(** * libmme1536: the driver of the mont_mult1536 hardware core

    A shallow embedding of [libmme1536_v1.c] (with [libmme1536_v1.h] and
    [libmme1536_types.h]) and the properties of its control protocol.

    C [int] values are integers of [Z] with the 32-bit wrap-around written
    out ([u32] is the conversion to [unsigned], [s32] the conversion to
    [int]).  The two mapped regions are word memories indexed by byte
    offset, in which a load returns the word last stored at its offset (what
    the core computes between a start and the end of a wait is not
    modelled); every access of the hardware, of the interrupt descriptor and
    of the clock is recorded, in order, in a trace.  What the environment
    answers (the counts delivered by the interrupt descriptor, the times
    returned by the clock, the results of the system calls that acquire
    resources) is given to the driver from outside and is consumed call by
    call. *)

From Stdlib Require Import ZArith String List Lia Bool.
Import ListNotations.
Local Open Scope Z_scope.

(** ** C integers *)

Module CInt.

Definition u32 (z : Z) : Z := z mod 2 ^ 32.

Definition s32 (z : Z) : Z := (z + 2 ^ 31) mod 2 ^ 32 - 2 ^ 31.

Definition int_range (z : Z) : Prop := - 2 ^ 31 <= z < 2 ^ 31.

End CInt.
Import CInt.

Arguments u32 : simpl never.
Arguments s32 : simpl never.

(** ** libmme1536_v1.h: the register and address map *)

Definition LOW_PART : Z := 1.
Definition HIGH_PART : Z := 2.
Definition TOT_PIPELINE : Z := 3.

Definition OPERAND_0 : Z := 0.
Definition OPERAND_1 : Z := 1.
Definition OPERAND_2 : Z := 2.
Definition OPERAND_3 : Z := 3.
Definition MODULUS : Z := 4.

Definition BITS_LOW : Z := 512.
Definition BITS_HIGH : Z := 1024.
Definition BITS_TOT : Z := BITS_LOW + BITS_HIGH.

Definition WORDS_LOW : Z := BITS_LOW / 32.
Definition WORDS_HIGH : Z := BITS_HIGH / 32.
Definition WORDS_TOT : Z := BITS_TOT / 32.

Definition ADDR_STEP : Z := 4.
Definition HIGH_OFFSET : Z := WORDS_LOW * ADDR_STEP.
Definition PAGE_SIZE : Z := 4096.

Definition DATA_BASE_ADDR : Z := 2684354560.
Definition OP0_OFFSET : Z := 4096.
Definition OP1_OFFSET : Z := 8192.
Definition OP2_OFFSET : Z := 12288.
Definition OP3_OFFSET : Z := 16384.
Definition M_OFFSET : Z := 0.
Definition FIFO_OFFSET : Z := 20480.

Definition P_SEL_BITS : Z := 30.
Definition DEST_BITS : Z := 28.
Definition X_OP_BITS : Z := 26.
Definition Y_OP_BITS : Z := 24.

Definition TIMEOUT_S : Z := 0.
Definition TIMEOUT_US : Z := 140000.

Definition MME1536_INTR_CNTRL_SPACE_OFFSET : Z := 512.
Definition MME1536_INTR_DGIER_OFFSET : Z := MME1536_INTR_CNTRL_SPACE_OFFSET + 28.
Definition MME1536_INTR_IPISR_OFFSET : Z := MME1536_INTR_CNTRL_SPACE_OFFSET + 32.
Definition MME1536_INTR_IPIER_OFFSET : Z := MME1536_INTR_CNTRL_SPACE_OFFSET + 40.
Definition INTR_GIE_MASK : Z := 2147483648.

Definition DEFAULT_UIO_DEV : string := "/dev/uio6".

Definition ENOSYS : Z := 38.
Definition MAP_FAILED : Z := -1.

(** The masks of the control register used by the start operations. *)
Definition MASK_KEEP_LOW : Z := 4194303.      (* 0x003fffff *)
Definition START_BIT : Z := 8388608.          (* 0x00800000 *)
Definition START_AUTO_BITS : Z := 12582912.   (* 0x00c00000 *)
Definition MASK_CLEAR_START : Z := 4286578687. (* 0xff7fffff *)

(** ** libmme1536_types.h: the device structure *)

Record timeval := { tv_sec : Z; tv_usec : Z }.

Module Dev.
Record MME1536 := {
  data_fd : Z;
  ctrl_fd : Z;
  ctrl_ptr : Z;
  data_ptr : Z;
  uio_dev : string;
  tv : timeval;
  select_fd : list Z;
  prev_tot_ints : Z;
  R2 : list Z;          (* the 48-word buffer R2 points to; [] is NULL *)
  n : Z;
  words : Z;
  part : Z
}.
End Dev.
Definition MME1536 : Type := Dev.MME1536.

(** ** The machine the driver runs on *)

Inductive Event :=
| EvCtrlRead (off : Z)            (* load of the word at ctrl_ptr + off *)
| EvCtrlWrite (off v : Z)         (* store of the word v at ctrl_ptr + off *)
| EvDataRead (off : Z)            (* load of the word at data_ptr + off *)
| EvDataWrite (off v : Z)         (* store of the word v at data_ptr + off *)
| EvUsleep (us : Z)
| EvGetTime                       (* gettimeofday *)
| EvUioRead                       (* read on the interrupt descriptor *)
| EvUioWrite (v : Z)              (* write of v on the interrupt descriptor *)
| EvPrintf (msg : string).

Record State := {
  dev : MME1536;                  (* *device_instance *)
  ctrl_reg : Z -> Z;              (* the control page, by byte offset *)
  data_mem : Z -> Z;              (* the data window, by byte offset *)
  trace : list Event;             (* oldest access first *)
  uio_in : list (option Z);       (* what the coming reads of the interrupt
                                     descriptor deliver: [Some c] stores the
                                     count c in the caller's buffer, [None]
                                     returns without storing (the descriptor
                                     is opened O_NONBLOCK) *)
  clock : list timeval;           (* what the coming gettimeofday calls return *)
  fds : list Z;                   (* the open file descriptors *)
  maps : list (Z * Z)             (* the mapped regions: address, length *)
}.

Definition upd (f : Z -> Z) (a v : Z) : Z -> Z :=
  fun x => if x =? a then v else f x.

Definition with_dev (d : MME1536) (s : State) : State :=
  {| dev := d; ctrl_reg := ctrl_reg s; data_mem := data_mem s;
     trace := trace s; uio_in := uio_in s; clock := clock s;
     fds := fds s; maps := maps s |}.

Definition with_trace (t : list Event) (s : State) : State :=
  {| dev := dev s; ctrl_reg := ctrl_reg s; data_mem := data_mem s;
     trace := t; uio_in := uio_in s; clock := clock s;
     fds := fds s; maps := maps s |}.

Definition log (e : Event) (s : State) : State :=
  with_trace (trace s ++ [e]) s.

(** A run either has a result and a final state, or has none: the answers
    of the environment are used up, or the process is stopped by a fault. *)
Definition M (A : Type) : Type := State -> option (A * State).

Definition ret {A} (a : A) : M A := fun s => Some (a, s).

Definition bind {A B} (c : M A) (k : A -> M B) : M B :=
  fun s => match c s with
           | Some (a, s') => k a s'
           | None => None
           end.

Definition fault {A} : M A := fun _ => None.

Notation "x <- c ;; k" := (bind c (fun x => k))
  (at level 61, c at next level, right associativity).
Notation "c ;; k" := (bind c (fun _ => k))
  (at level 61, right associativity).

Definition get_dev : M MME1536 := fun s => Some (dev s, s).
Definition set_dev (d : MME1536) : M unit := fun s => Some (tt, with_dev d s).

Definition ctrl_load (off : Z) : M Z :=
  fun s => Some (ctrl_reg s off, log (EvCtrlRead off) s).

Definition ctrl_store (off v : Z) : M unit :=
  fun s => Some (tt,
    log (EvCtrlWrite off (u32 v))
      {| dev := dev s; ctrl_reg := upd (ctrl_reg s) off (u32 v);
         data_mem := data_mem s; trace := trace s; uio_in := uio_in s;
         clock := clock s; fds := fds s; maps := maps s |}).

Definition data_load (off : Z) : M Z :=
  fun s => Some (data_mem s off, log (EvDataRead off) s).

Definition data_store (off v : Z) : M unit :=
  fun s => Some (tt,
    log (EvDataWrite off (u32 v))
      {| dev := dev s; ctrl_reg := ctrl_reg s;
         data_mem := upd (data_mem s) off (u32 v);
         trace := trace s; uio_in := uio_in s;
         clock := clock s; fds := fds s; maps := maps s |}).

Definition usleep (us : Z) : M unit := fun s => Some (tt, log (EvUsleep us) s).

Definition printf (msg : string) : M unit :=
  fun s => Some (tt, log (EvPrintf msg) s).

Definition gettimeofday : M timeval :=
  fun s => match clock s with
           | [] => None
           | t :: rest =>
               Some (t, log EvGetTime
                 {| dev := dev s; ctrl_reg := ctrl_reg s; data_mem := data_mem s;
                    trace := trace s; uio_in := uio_in s; clock := rest;
                    fds := fds s; maps := maps s |})
           end.

(** [read(ctrl_fd, &buf, sizeof(int))]: the new content of [buf]. *)
Definition uio_read (buf : Z) : M Z :=
  fun s => match uio_in s with
           | [] => None
           | r :: rest =>
               Some (match r with Some c => c | None => buf end,
                 log EvUioRead
                 {| dev := dev s; ctrl_reg := ctrl_reg s; data_mem := data_mem s;
                    trace := trace s; uio_in := rest; clock := clock s;
                    fds := fds s; maps := maps s |})
           end.

Definition uio_write (v : Z) : M unit :=
  fun s => Some (tt, log (EvUioWrite v) s).

(** ** The start operations *)

(** The control word MME1536_StartSingle and MME1536_StartSingle_m build
    from the content [control] of the register: the part kept by the mask,
    the four selectors and the start bit. *)
Definition start_word (control p_sel destination x_op y_op : Z) : Z :=
  s32 (Z.lor (s32 (Z.land control MASK_KEEP_LOW))
         (Z.lor (Z.lor (Z.lor (Z.lor (Z.shiftl p_sel P_SEL_BITS)
                                  (Z.shiftl destination DEST_BITS))
                           (Z.shiftl x_op X_OP_BITS))
                    (Z.shiftl y_op Y_OP_BITS))
            START_BIT)).

Definition MME1536_StartSingle (p_sel destination x_op y_op : Z) : M unit :=
  control <- ctrl_load 0 ;;
  let control := s32 control in
  let control := start_word control p_sel destination x_op y_op in
  ctrl_store 0 control ;;
  let control := s32 (Z.land (u32 control) MASK_CLEAR_START) in
  usleep 1 ;;
  ctrl_store 0 control.

Definition MME1536_StartSingle_m (destination x_op y_op : Z) : M unit :=
  control <- ctrl_load 0 ;;
  let control := s32 control in
  d <- get_dev ;;
  let control := start_word control (Dev.part d) destination x_op y_op in
  ctrl_store 0 control ;;
  let control := s32 (Z.land (u32 control) MASK_CLEAR_START) in
  usleep 1 ;;
  ctrl_store 0 control.

Definition MME1536_StartAuto (p_sel : Z) : M unit :=
  let control := s32 (Z.lor START_AUTO_BITS (Z.shiftl p_sel P_SEL_BITS)) in
  ctrl_store 0 control ;;
  let control := s32 (Z.land (u32 control) MASK_CLEAR_START) in
  usleep 1 ;;
  ctrl_store 0 control.

Definition MME1536_StartAuto_m : M unit :=
  d <- get_dev ;;
  let control := s32 (Z.lor START_AUTO_BITS (Z.shiftl (Dev.part d) P_SEL_BITS)) in
  ctrl_store 0 control ;;
  let control := s32 (Z.land (u32 control) MASK_CLEAR_START) in
  usleep 1 ;;
  ctrl_store 0 control.

(** ** The device structure, field by field *)

Definition set_part (v : Z) (d : MME1536) : MME1536 :=
  {| Dev.data_fd := Dev.data_fd d; Dev.ctrl_fd := Dev.ctrl_fd d;
     Dev.ctrl_ptr := Dev.ctrl_ptr d; Dev.data_ptr := Dev.data_ptr d;
     Dev.uio_dev := Dev.uio_dev d; Dev.tv := Dev.tv d;
     Dev.select_fd := Dev.select_fd d;
     Dev.prev_tot_ints := Dev.prev_tot_ints d; Dev.R2 := Dev.R2 d;
     Dev.n := Dev.n d; Dev.words := Dev.words d; Dev.part := v |}.

Definition set_n (v : Z) (d : MME1536) : MME1536 :=
  {| Dev.data_fd := Dev.data_fd d; Dev.ctrl_fd := Dev.ctrl_fd d;
     Dev.ctrl_ptr := Dev.ctrl_ptr d; Dev.data_ptr := Dev.data_ptr d;
     Dev.uio_dev := Dev.uio_dev d; Dev.tv := Dev.tv d;
     Dev.select_fd := Dev.select_fd d;
     Dev.prev_tot_ints := Dev.prev_tot_ints d; Dev.R2 := Dev.R2 d;
     Dev.n := v; Dev.words := Dev.words d; Dev.part := Dev.part d |}.

Definition set_words (v : Z) (d : MME1536) : MME1536 :=
  {| Dev.data_fd := Dev.data_fd d; Dev.ctrl_fd := Dev.ctrl_fd d;
     Dev.ctrl_ptr := Dev.ctrl_ptr d; Dev.data_ptr := Dev.data_ptr d;
     Dev.uio_dev := Dev.uio_dev d; Dev.tv := Dev.tv d;
     Dev.select_fd := Dev.select_fd d;
     Dev.prev_tot_ints := Dev.prev_tot_ints d; Dev.R2 := Dev.R2 d;
     Dev.n := Dev.n d; Dev.words := v; Dev.part := Dev.part d |}.

Definition set_R2 (v : list Z) (d : MME1536) : MME1536 :=
  {| Dev.data_fd := Dev.data_fd d; Dev.ctrl_fd := Dev.ctrl_fd d;
     Dev.ctrl_ptr := Dev.ctrl_ptr d; Dev.data_ptr := Dev.data_ptr d;
     Dev.uio_dev := Dev.uio_dev d; Dev.tv := Dev.tv d;
     Dev.select_fd := Dev.select_fd d;
     Dev.prev_tot_ints := Dev.prev_tot_ints d; Dev.R2 := v;
     Dev.n := Dev.n d; Dev.words := Dev.words d; Dev.part := Dev.part d |}.

Definition set_prev_tot_ints (v : Z) (d : MME1536) : MME1536 :=
  {| Dev.data_fd := Dev.data_fd d; Dev.ctrl_fd := Dev.ctrl_fd d;
     Dev.ctrl_ptr := Dev.ctrl_ptr d; Dev.data_ptr := Dev.data_ptr d;
     Dev.uio_dev := Dev.uio_dev d; Dev.tv := Dev.tv d;
     Dev.select_fd := Dev.select_fd d;
     Dev.prev_tot_ints := v; Dev.R2 := Dev.R2 d;
     Dev.n := Dev.n d; Dev.words := Dev.words d; Dev.part := Dev.part d |}.

Definition modify_dev (f : MME1536 -> MME1536) : M unit :=
  d <- get_dev ;; set_dev (f d).

(** ** Buffers

    A caller's buffer is the list of its [int]s.  The driver indexes its
    buffers from 0 up; an index past the end of a buffer is undefined in C,
    and here such a load gives 0 and such a store does nothing.  The
    theorems assume buffers of the length the driver expects. *)

Definition load_at (l : list Z) (i : Z) : Z := nth (Z.to_nat i) l 0.

Fixpoint store_nth (l : list Z) (i : nat) (v : Z) : list Z :=
  match l, i with
  | [], _ => []
  | _ :: t, O => v :: t
  | h :: t, S i' => h :: store_nth t i' v
  end.

Definition store_at (l : list Z) (i : Z) (v : Z) : list Z :=
  store_nth l (Z.to_nat i) v.

(** The static array [one] and the local array [zeros]. *)
Definition one : list Z := 1 :: repeat 0 47.
Definition zeros_init : list Z := repeat 0 48.

(** ** Low-level functions *)

(** [buffer[word] = *(data_ptr + address_offset)] for [k] more words; the
    result is the new content of the buffer from [word] on. *)
Fixpoint GetData_loop (k : nat) (address_offset : Z) : M (list Z) :=
  match k with
  | O => ret []
  | S k' =>
      v <- data_load address_offset ;;
      rest <- GetData_loop k' (address_offset + ADDR_STEP) ;;
      ret (s32 v :: rest)
  end.

Definition MME1536_GetData (buffer : list Z) (offset_start operand words : Z)
  : M (list Z) :=
  let control := 0 in
  let control := s32 (Z.lor control (Z.shiftl operand DEST_BITS)) in
  ctrl_store 0 control ;;
  got <- GetData_loop (Z.to_nat words) offset_start ;;
  ret (got ++ skipn (length got) buffer).

Fixpoint SetData_loop (k : nat) (data : list Z) (word address_offset : Z)
  : M unit :=
  match k with
  | O => ret tt
  | S k' =>
      data_store address_offset (load_at data word) ;;
      SetData_loop k' data (word + 1) (address_offset + ADDR_STEP)
  end.

Definition MME1536_SetData (data : list Z) (start_offset words : Z) : M unit :=
  SetData_loop (Z.to_nat words) data 0 start_offset.

Definition MME1536_EnableInterrupt : M unit :=
  ctrl_store MME1536_INTR_IPIER_OFFSET 1 ;;
  ctrl_store MME1536_INTR_DGIER_OFFSET INTR_GIE_MASK.

(** *** GMP, as MME1536_ComputeR2 uses it

    [mpz_import] and [mpz_export] are called with order -1 (least
    significant word first), words of [sizeof(int)] bytes in native byte
    order and no nail bits. *)

Fixpoint le_combine (l : list Z) : Z :=
  match l with
  | [] => 0
  | w :: t => u32 w + 2 ^ 32 * le_combine t
  end.

Fixpoint le_split (k : nat) (v : Z) : list Z :=
  match k with
  | O => []
  | S k' => v mod 2 ^ 32 :: le_split k' (v / 2 ^ 32)
  end.

(** The number of words [mpz_export] produces: none for 0. *)
Definition mpz_size (v : Z) : nat :=
  if v <=? 0 then O else S (Z.to_nat (Z.log2 v / 32)).

Definition mpz_import (count : Z) (op : list Z) : Z :=
  le_combine (firstn (Z.to_nat count) op).

Definition mpz_powm_ui (base exp md : Z) : Z := (base ^ exp) mod md.

(** The buffer [rop] after [mpz_export(rop, NULL, -1, sizeof(int), 0, 0, v)]. *)
Definition mpz_export (rop : list Z) (v : Z) : list Z :=
  let ws := map s32 (le_split (mpz_size v) v) in
  ws ++ skipn (length ws) rop.

(** The buffer [R2] after the call; GMP stops the process on a zero
    modulus. *)
Definition MME1536_ComputeR2 (R2 m : list Z) (n : Z) : M (list Z) :=
  let m_mpz := mpz_import (u32 n / 32) m in
  if m_mpz =? 0 then fault
  else
    let R2_mpz := mpz_powm_ui 2 (u32 (s32 (2 * n))) m_mpz in
    ret (mpz_export R2 R2_mpz).

(** ** The operand codec *)

(** [for(word=0;word<k;word++) zeros[word+shift] = operand_data[word]], from
    [word] on: the array [zeros] after the loop. *)
Fixpoint copy_loop (k : nat) (zeros operand_data : list Z) (word shift : Z)
  : list Z :=
  match k with
  | O => zeros
  | S k' =>
      copy_loop k' (store_at zeros (word + shift) (load_at operand_data word))
        operand_data (word + 1) shift
  end.

(** The switch on [operand] of MME1536_SetOperand and
    MME1536_SetOperand_m: the offset of the slot, or nothing in the default
    case. *)
Definition operand_offset (operand : Z) : option Z :=
  if operand =? OPERAND_0 then Some OP0_OFFSET
  else if operand =? OPERAND_1 then Some OP1_OFFSET
  else if operand =? OPERAND_2 then Some OP2_OFFSET
  else if operand =? OPERAND_3 then Some OP3_OFFSET
  else if operand =? MODULUS then Some M_OFFSET
  else None.

(** The switch on the width of MME1536_SetOperand and
    MME1536_SetOperand_m: the array [data] of 48 words that is written, or
    nothing in the default case. *)
Definition operand_image (operand_data : list Z) (length : Z)
  : option (list Z) :=
  if length =? BITS_LOW then
    Some (copy_loop (Z.to_nat WORDS_LOW) zeros_init operand_data 0 0)
  else if length =? BITS_HIGH then
    Some (copy_loop (Z.to_nat WORDS_HIGH) zeros_init operand_data 0 WORDS_LOW)
  else if length =? BITS_TOT then Some operand_data
  else None.

Definition MME1536_SetOperand (operand_data : list Z) (operand length : Z)
  : M Z :=
  match operand_offset operand with
  | None =>
      printf "[ERROR] MME1536: SetOperand() -> wrong operand (%d)" ;;
      ret (-1)
  | Some address_offset =>
      match operand_image operand_data length with
      | None =>
          printf "[ERROR] MME1536: SetOperand() -> wrong operand length (%d)" ;;
          ret (-1)
      | Some data =>
          MME1536_SetData data address_offset WORDS_TOT ;;
          ret 0
      end
  end.

Definition MME1536_SetOperand_m (operand_data : list Z) (operand : Z) : M Z :=
  match operand_offset operand with
  | None =>
      printf "[ERROR] MME1536: SetOperand_m() -> wrong operand (%d)" ;;
      ret (-1)
  | Some address_offset =>
      d <- get_dev ;;
      match operand_image operand_data (Dev.n d) with
      | None =>
          printf "[ERROR] MME1536: SetOperand_m() -> wrong operand length (%d)" ;;
          ret (-1)
      | Some data =>
          MME1536_SetData data address_offset WORDS_TOT ;;
          ret 0
      end
  end.

(** The switch on [operand] of MME1536_GetOperand and
    MME1536_GetOperand_m, which has no MODULUS case. *)
Definition read_offset (operand : Z) : option Z :=
  if operand =? OPERAND_0 then Some OP0_OFFSET
  else if operand =? OPERAND_1 then Some OP1_OFFSET
  else if operand =? OPERAND_2 then Some OP2_OFFSET
  else if operand =? OPERAND_3 then Some OP3_OFFSET
  else None.

(** The result is the return value and the caller's buffer after the
    call. *)
Definition MME1536_GetOperand (operand_data : list Z) (operand length : Z)
  : M (Z * list Z) :=
  match read_offset operand with
  | None =>
      printf "[ERROR] MME1536: GetOperand() -> wrong operand (%d)" ;;
      ret (-1, operand_data)
  | Some address_offset =>
      if length =? BITS_LOW then
        buf <- MME1536_GetData operand_data address_offset operand WORDS_LOW ;;
        ret (0, buf)
      else if length =? BITS_HIGH then
        buf <- MME1536_GetData operand_data (address_offset + HIGH_OFFSET)
                 operand WORDS_HIGH ;;
        ret (0, buf)
      else if length =? BITS_TOT then
        buf <- MME1536_GetData operand_data address_offset operand WORDS_TOT ;;
        ret (0, buf)
      else
        printf "[ERROR] MME1536: GetOperand() -> wrong operand length (%d)" ;;
        ret (-1, operand_data)
  end.

Definition MME1536_GetOperand_m (operand_data : list Z) (operand : Z)
  : M (Z * list Z) :=
  match read_offset operand with
  | None =>
      printf "[ERROR] MME1536: GetOperand_m() -> wrong operand (%d)" ;;
      ret (-1, operand_data)
  | Some address_offset =>
      d <- get_dev ;;
      let address_offset :=
        if Dev.n d =? BITS_HIGH then address_offset + HIGH_OFFSET
        else address_offset in
      buf <- MME1536_GetData operand_data address_offset operand (Dev.words d) ;;
      ret (0, buf)
  end.

(** ** The exponent feed *)

Definition MASK_HI16 : Z := 4294901760.   (* 0xffff0000 *)
Definition MASK_LO16 : Z := 65535.        (* 0x0000ffff *)

(** The first fifo entry for the word index [i]. *)
Definition fifo_entry_hi (e0 : list Z) (e1 : option (list Z)) (i : Z) : Z :=
  match e1 with
  | None => s32 (Z.shiftr (Z.land (u32 (load_at e0 i)) MASK_HI16) 16)
  | Some e1 =>
      s32 (Z.lor (Z.land (u32 (load_at e1 i)) MASK_HI16)
             (Z.shiftr (Z.land (u32 (load_at e0 i)) MASK_HI16) 16))
  end.

(** The second fifo entry for the word index [i]. *)
Definition fifo_entry_lo (e0 : list Z) (e1 : option (list Z)) (i : Z) : Z :=
  match e1 with
  | None => s32 (Z.land (load_at e0 i) MASK_LO16)
  | Some e1 =>
      s32 (Z.lor (s32 (Z.shiftl (Z.land (load_at e1 i) MASK_LO16) 16))
             (Z.land (load_at e0 i) MASK_LO16))
  end.

(** [for(i=(words-1); i>=0; i--)], with [k] = i + 1. *)
Fixpoint SetExponent_loop (k : nat) (e0 : list Z) (e1 : option (list Z))
  : M unit :=
  match k with
  | O => ret tt
  | S i =>
      let temp := fifo_entry_hi e0 e1 (Z.of_nat i) in
      data_store FIFO_OFFSET temp ;;
      let temp := fifo_entry_lo e0 e1 (Z.of_nat i) in
      data_store FIFO_OFFSET temp ;;
      SetExponent_loop i e0 e1
  end.

Definition MME1536_SetExponent (e0 : list Z) (e1 : option (list Z)) (t : Z)
  : M unit :=
  if negb (Z.rem t 32 =? 0) then
    printf "[ERROR] MME1536: SetExponent() -> exponent length %d, is no multiple of 32."
  else
    let words := Z.quot t 32 in
    SetExponent_loop (Z.to_nat words) e0 e1.

(** ** The interrupt wait *)

(** The loop of MME1536_WaitUntilReady; the result is [ints_passed] at the
    exit.  Every turn consumes one answer of the interrupt descriptor, so
    [fuel] is the number of answers left. *)
Fixpoint wait_loop (fuel : nat) (ints_passed prev timeout : Z) : M Z :=
  if ints_passed <=? prev then
    match fuel with
    | O => fault
    | S fuel' =>
        ints_passed <- uio_read ints_passed ;;
        time <- gettimeofday ;;
        let current_time := s32 (tv_usec time) in
        if current_time >=? timeout then
          printf "[WARNING] MME1536: WaitUntilReady() -> Timeout!" ;;
          ret ints_passed
        else wait_loop fuel' ints_passed prev timeout
    end
  else ret ints_passed.

Definition MME1536_WaitUntilReady : M unit :=
  fun s =>
    (let ints_passed := -1 in
     time <- gettimeofday ;;
     let timeout := s32 (s32 (tv_usec time) + TIMEOUT_US) in
     d <- get_dev ;;
     ints_passed <- wait_loop (length (uio_in s)) ints_passed
                      (Dev.prev_tot_ints d) timeout ;;
     modify_dev (set_prev_tot_ints ints_passed) ;;
     let enable := 1 in
     uio_write enable) s.

(** ** The operations *)

(** [for(i=0; i<WORDS_TOT; i++) R2[i] = 0], from [i] on. *)
Fixpoint zero_loop (k : nat) (R2 : list Z) (i : Z) : list Z :=
  match k with
  | O => R2
  | S k' => zero_loop k' (store_at R2 i 0) (i + 1)
  end.

Definition MME1536_UpdateModulus (m : list Z) (n : Z) : M unit :=
  (if n =? BITS_LOW then modify_dev (set_part LOW_PART)
   else if n =? BITS_HIGH then modify_dev (set_part HIGH_PART)
   else if n =? BITS_TOT then modify_dev (set_part TOT_PIPELINE)
   else printf "[ERROR] MME1536: UpdataModulus() -> wrong modulus length: %d") ;;
  modify_dev (set_n n) ;;
  modify_dev (set_words (Z.quot n 32)) ;;
  d <- get_dev ;;
  modify_dev (set_R2 (zero_loop (Z.to_nat WORDS_TOT) (Dev.R2 d) 0)) ;;
  d <- get_dev ;;
  R2 <- MME1536_ComputeR2 (Dev.R2 d) m n ;;
  modify_dev (set_R2 R2) ;;
  MME1536_SetOperand m MODULUS n ;;
  ret tt.

(** The result is the caller's buffer [result] after the call. *)
Definition MME1536_Multiply_m (result x y : list Z) : M (list Z) :=
  MME1536_SetOperand_m x OPERAND_0 ;;
  MME1536_SetOperand_m y OPERAND_1 ;;
  d <- get_dev ;;
  MME1536_SetOperand_m (Dev.R2 d) OPERAND_2 ;;
  MME1536_StartSingle_m OPERAND_3 OPERAND_0 OPERAND_1 ;;
  MME1536_WaitUntilReady ;;
  MME1536_StartSingle_m OPERAND_3 OPERAND_2 OPERAND_3 ;;
  MME1536_WaitUntilReady ;;
  r <- MME1536_GetOperand_m result OPERAND_3 ;;
  ret (snd r).

Definition MME1536_Exp_m (result g e : list Z) (t : Z) : M (list Z) :=
  MME1536_SetOperand_m g OPERAND_0 ;;
  d <- get_dev ;;
  MME1536_SetOperand_m (Dev.R2 d) OPERAND_1 ;;
  MME1536_SetOperand_m one OPERAND_2 ;;
  MME1536_StartSingle_m OPERAND_0 OPERAND_0 OPERAND_1 ;;
  MME1536_WaitUntilReady ;;
  MME1536_StartSingle_m OPERAND_3 OPERAND_2 OPERAND_1 ;;
  MME1536_WaitUntilReady ;;
  MME1536_SetExponent e None t ;;
  MME1536_StartAuto_m ;;
  MME1536_WaitUntilReady ;;
  MME1536_StartSingle_m OPERAND_3 OPERAND_2 OPERAND_3 ;;
  MME1536_WaitUntilReady ;;
  r <- MME1536_GetOperand_m result OPERAND_3 ;;
  ret (snd r).

Definition MME1536_MME_m (result g0 g1 e0 e1 : list Z) (t : Z) : M (list Z) :=
  MME1536_SetOperand_m g0 OPERAND_0 ;;
  MME1536_SetOperand_m g1 OPERAND_1 ;;
  MME1536_SetOperand_m one OPERAND_2 ;;
  d <- get_dev ;;
  MME1536_SetOperand_m (Dev.R2 d) OPERAND_3 ;;
  MME1536_StartSingle_m OPERAND_0 OPERAND_0 OPERAND_3 ;;
  MME1536_WaitUntilReady ;;
  MME1536_StartSingle_m OPERAND_1 OPERAND_1 OPERAND_3 ;;
  MME1536_WaitUntilReady ;;
  MME1536_StartSingle_m OPERAND_3 OPERAND_2 OPERAND_3 ;;
  MME1536_WaitUntilReady ;;
  MME1536_StartSingle_m OPERAND_2 OPERAND_0 OPERAND_1 ;;
  MME1536_WaitUntilReady ;;
  MME1536_SetExponent e0 (Some e1) t ;;
  MME1536_StartAuto_m ;;
  MME1536_WaitUntilReady ;;
  MME1536_SetOperand_m one OPERAND_2 ;;
  MME1536_StartSingle_m OPERAND_3 OPERAND_2 OPERAND_3 ;;
  MME1536_WaitUntilReady ;;
  r <- MME1536_GetOperand_m result OPERAND_3 ;;
  ret (snd r).

(** ** Acquiring and releasing the resources *)

(** What the system calls of one run of MME1536_Initialize answer. *)
Record Outcomes := {
  open_mem : Z;                 (* open of /dev/mem: a descriptor, or -1 *)
  mmap_data : Z;                (* mmap of the data window: an address, or MAP_FAILED *)
  open_uio : Z;                 (* open of the UIO device: a descriptor, or -1 *)
  mmap_ctrl : Z;                (* mmap of the control page: an address, or MAP_FAILED *)
  write_enable : Z;             (* the write that enables the UIO interrupt *)
  malloc_R2 : option (list Z)   (* malloc: the fresh block, or NULL *)
}.

Definition with_os (f : list Z) (m : list (Z * Z)) (s : State) : State :=
  {| dev := dev s; ctrl_reg := ctrl_reg s; data_mem := data_mem s;
     trace := trace s; uio_in := uio_in s; clock := clock s;
     fds := f; maps := m |}.

Definition pair_eqb (a b : Z * Z) : bool :=
  (fst a =? fst b) && (snd a =? snd b).

(** [open]: a successful call leaves its descriptor open. *)
Definition sys_open (answer : Z) : M Z :=
  fun s => Some (answer,
    if 0 <=? answer then with_os (answer :: fds s) (maps s) s else s).

(** [mmap]: a successful call leaves the region mapped. *)
Definition sys_mmap (answer len : Z) : M Z :=
  fun s => Some (answer,
    if answer =? MAP_FAILED then s
    else with_os (fds s) ((answer, len) :: maps s) s).

Definition sys_close (fd : Z) : M unit :=
  fun s => Some (tt,
    with_os (filter (fun x => negb (x =? fd)) (fds s)) (maps s) s).

Definition sys_munmap (addr len : Z) : M unit :=
  fun s => Some (tt,
    with_os (fds s)
      (filter (fun x => negb (pair_eqb x (addr, len))) (maps s)) s).

Definition set_data_fd (v : Z) (d : MME1536) : MME1536 :=
  {| Dev.data_fd := v; Dev.ctrl_fd := Dev.ctrl_fd d;
     Dev.ctrl_ptr := Dev.ctrl_ptr d; Dev.data_ptr := Dev.data_ptr d;
     Dev.uio_dev := Dev.uio_dev d; Dev.tv := Dev.tv d;
     Dev.select_fd := Dev.select_fd d;
     Dev.prev_tot_ints := Dev.prev_tot_ints d; Dev.R2 := Dev.R2 d;
     Dev.n := Dev.n d; Dev.words := Dev.words d; Dev.part := Dev.part d |}.

Definition set_ctrl_fd (v : Z) (d : MME1536) : MME1536 :=
  {| Dev.data_fd := Dev.data_fd d; Dev.ctrl_fd := v;
     Dev.ctrl_ptr := Dev.ctrl_ptr d; Dev.data_ptr := Dev.data_ptr d;
     Dev.uio_dev := Dev.uio_dev d; Dev.tv := Dev.tv d;
     Dev.select_fd := Dev.select_fd d;
     Dev.prev_tot_ints := Dev.prev_tot_ints d; Dev.R2 := Dev.R2 d;
     Dev.n := Dev.n d; Dev.words := Dev.words d; Dev.part := Dev.part d |}.

Definition set_ctrl_ptr (v : Z) (d : MME1536) : MME1536 :=
  {| Dev.data_fd := Dev.data_fd d; Dev.ctrl_fd := Dev.ctrl_fd d;
     Dev.ctrl_ptr := v; Dev.data_ptr := Dev.data_ptr d;
     Dev.uio_dev := Dev.uio_dev d; Dev.tv := Dev.tv d;
     Dev.select_fd := Dev.select_fd d;
     Dev.prev_tot_ints := Dev.prev_tot_ints d; Dev.R2 := Dev.R2 d;
     Dev.n := Dev.n d; Dev.words := Dev.words d; Dev.part := Dev.part d |}.

Definition set_data_ptr (v : Z) (d : MME1536) : MME1536 :=
  {| Dev.data_fd := Dev.data_fd d; Dev.ctrl_fd := Dev.ctrl_fd d;
     Dev.ctrl_ptr := Dev.ctrl_ptr d; Dev.data_ptr := v;
     Dev.uio_dev := Dev.uio_dev d; Dev.tv := Dev.tv d;
     Dev.select_fd := Dev.select_fd d;
     Dev.prev_tot_ints := Dev.prev_tot_ints d; Dev.R2 := Dev.R2 d;
     Dev.n := Dev.n d; Dev.words := Dev.words d; Dev.part := Dev.part d |}.

Definition set_uio_dev (v : string) (d : MME1536) : MME1536 :=
  {| Dev.data_fd := Dev.data_fd d; Dev.ctrl_fd := Dev.ctrl_fd d;
     Dev.ctrl_ptr := Dev.ctrl_ptr d; Dev.data_ptr := Dev.data_ptr d;
     Dev.uio_dev := v; Dev.tv := Dev.tv d;
     Dev.select_fd := Dev.select_fd d;
     Dev.prev_tot_ints := Dev.prev_tot_ints d; Dev.R2 := Dev.R2 d;
     Dev.n := Dev.n d; Dev.words := Dev.words d; Dev.part := Dev.part d |}.

Definition set_tv_select (t : timeval) (f : list Z) (d : MME1536) : MME1536 :=
  {| Dev.data_fd := Dev.data_fd d; Dev.ctrl_fd := Dev.ctrl_fd d;
     Dev.ctrl_ptr := Dev.ctrl_ptr d; Dev.data_ptr := Dev.data_ptr d;
     Dev.uio_dev := Dev.uio_dev d; Dev.tv := t;
     Dev.select_fd := f;
     Dev.prev_tot_ints := Dev.prev_tot_ints d; Dev.R2 := Dev.R2 d;
     Dev.n := Dev.n d; Dev.words := Dev.words d; Dev.part := Dev.part d |}.

(** The labels [failed2] and [failed1]. *)
Definition failed1 : M Z :=
  d <- get_dev ;;
  sys_close (Dev.ctrl_fd d) ;;
  ret (-1).

Definition failed2 : M Z :=
  d <- get_dev ;;
  sys_munmap (Dev.ctrl_ptr d) PAGE_SIZE ;;
  failed1.

Definition MME1536_Initialize (uio_dev : option string) (o : Outcomes) : M Z :=
  fd <- sys_open (open_mem o) ;;
  modify_dev (set_data_fd fd) ;;
  if fd <? 1 then
    printf "[ERROR] MME1536: Initialize() -> could not open /dev/mem" ;;
    ret (-1)
  else
  p <- sys_mmap (mmap_data o) (PAGE_SIZE * 6) ;;
  modify_dev (set_data_ptr p) ;;
  if s32 p =? -1 then
    printf "[ERROR] MME1536: Initialize() -> could not map data_ptr" ;;
    ret (-1)
  else
  match uio_dev with
  | None =>
      modify_dev (set_uio_dev DEFAULT_UIO_DEV) ;;
      printf "[INFO] MME1536: Initialize() -> taking default UIO device %s"
  | Some path => modify_dev (set_uio_dev path)
  end ;;
  fd <- sys_open (open_uio o) ;;
  modify_dev (set_ctrl_fd fd) ;;
  if fd <? 1 then
    printf "[ERROR] MME1536: Initialize() -> failed to open UIO device" ;;
    ret (-1)
  else
  p <- sys_mmap (mmap_ctrl o) PAGE_SIZE ;;
  modify_dev (set_ctrl_ptr p) ;;
  if p =? 0 then
    printf "[ERROR] MME1536: Initialize() -> failed to mmap the UIO device." ;;
    failed1
  else
  modify_dev (set_tv_select {| tv_sec := TIMEOUT_S; tv_usec := TIMEOUT_US |} [fd]) ;;
  (* the stores of MME1536_EnableInterrupt go through ctrl_ptr: with
     MAP_FAILED in it, the process is stopped *)
  (if p =? MAP_FAILED then fault else MME1536_EnableInterrupt) ;;
  let enable := 1 in
  uio_write enable ;;
  if write_enable o =? ENOSYS then
    printf "[ERROR] MME1536: Initialize() -> no interrupt for this device!" ;;
    failed2
  else
  let ints := 0 in
  ints <- uio_read ints ;;
  modify_dev (set_prev_tot_ints ints) ;;
  match malloc_R2 o with
  | None =>
      modify_dev (set_R2 []) ;;
      printf "[ERROR] MME1536: Initialize() -> could not allocate memory for R2." ;;
      failed2
  | Some block =>
      modify_dev (set_R2 block) ;;
      ret 0
  end.

Definition MME1536_Clean : M unit :=
  d <- get_dev ;;
  modify_dev (set_R2 []) ;;
  sys_munmap (Dev.ctrl_ptr d) PAGE_SIZE ;;
  sys_close (Dev.ctrl_fd d) ;;
  sys_munmap (Dev.data_ptr d) (PAGE_SIZE * 6) ;;
  sys_close (Dev.data_fd d).

(** ** What the properties are stated with *)

(** The stores to the control page among the events: offset and word. *)
Fixpoint ctrl_writes (evs : list Event) : list (Z * Z) :=
  match evs with
  | [] => []
  | EvCtrlWrite off v :: t => (off, v) :: ctrl_writes t
  | _ :: t => ctrl_writes t
  end.

(** The stores to the data window among the events: offset and word. *)
Fixpoint data_writes (evs : list Event) : list (Z * Z) :=
  match evs with
  | [] => []
  | EvDataWrite off v :: t => (off, v) :: data_writes t
  | _ :: t => data_writes t
  end.

(** The two-bit field of the control word [w] whose lowest bit is [pos]. *)
Definition ctrl_field (w pos : Z) : Z := Z.land (Z.shiftr w pos) 3.

(** [c], run from [s], ends in [s'] with the result [a], having added the
    events [evs] to the trace. *)
Definition runs {A} (c : M A) (s : State) (a : A) (evs : list Event)
  (s' : State) : Prop :=
  c s = Some (a, s') /\ trace s' = trace s ++ evs.

(** The four start operations. *)
Inductive StartOp :=
| StartSingle (p_sel destination x_op y_op : Z)
| StartSingle_m (destination x_op y_op : Z)
| StartAuto (p_sel : Z)
| StartAuto_m.

Definition start (op : StartOp) : M unit :=
  match op with
  | StartSingle p_sel destination x_op y_op =>
      MME1536_StartSingle p_sel destination x_op y_op
  | StartSingle_m destination x_op y_op =>
      MME1536_StartSingle_m destination x_op y_op
  | StartAuto p_sel => MME1536_StartAuto p_sel
  | StartAuto_m => MME1536_StartAuto_m
  end.

(** The selectors a start operation asks for: pipeline part, destination,
    operand X, operand Y. *)
Definition start_fields (op : StartOp) (s : State) : list Z :=
  match op with
  | StartSingle p_sel destination x_op y_op => [p_sel; destination; x_op; y_op]
  | StartSingle_m destination x_op y_op =>
      [Dev.part (dev s); destination; x_op; y_op]
  | StartAuto p_sel => [p_sel; 0; 0; 0]
  | StartAuto_m => [Dev.part (dev s); 0; 0; 0]
  end.

Definition start_auto_run (op : StartOp) : bool :=
  match op with
  | StartSingle _ _ _ _ | StartSingle_m _ _ _ => false
  | StartAuto _ | StartAuto_m => true
  end.

Definition selector (a : Z) : Prop := 0 <= a < 4.

(** The two families of operand reads. *)
Inductive ReadOp :=
| ReadOperand (length : Z)
| ReadOperand_m.

Definition read_operand (op : ReadOp) (operand_data : list Z) (operand : Z)
  : M (Z * list Z) :=
  match op with
  | ReadOperand length => MME1536_GetOperand operand_data operand length
  | ReadOperand_m => MME1536_GetOperand_m operand_data operand
  end.

Definition supported_width (length : Z) : Prop :=
  length = BITS_LOW \/ length = BITS_HIGH \/ length = BITS_TOT.

Definition working_slot (operand : Z) : Prop :=
  OPERAND_0 <= operand <= OPERAND_3.

Definition read_width_ok (op : ReadOp) : Prop :=
  match op with
  | ReadOperand length => supported_width length
  | ReadOperand_m => True
  end.

(** The byte offsets of [k] consecutive words from [off] on. *)
Fixpoint addrs (k : nat) (off : Z) : list Z :=
  match k with
  | O => []
  | S k' => off :: addrs k' (off + ADDR_STEP)
  end.

(** Every event of the list is a load from the data window. *)
Definition only_data_reads (evs : list Event) : Prop :=
  exists offs, evs = map EvDataRead offs.

(** *** The exponent stream *)

(** The upper and the lower 16-bit half of a 32-bit word, and the 32-bit
    entry made of two halves. *)
Definition hi16 (w : Z) : Z := u32 w / 2 ^ 16.
Definition lo16 (w : Z) : Z := u32 w mod 2 ^ 16.
Definition pack16 (upper lower : Z) : Z := upper * 2 ^ 16 + lower.

(** The two entries pushed for one word index: the word [w0] of e0 and,
    when e1 is there, its word [w1].  Without e1 the half of e0 stays in the
    lower 16 bits and the upper 16 bits are zero. *)
Definition packed_entries (w0 : Z) (w1 : option Z) : list Z :=
  match w1 with
  | Some w1 => [pack16 (hi16 w1) (hi16 w0); pack16 (lo16 w1) (lo16 w0)]
  | None => [pack16 0 (hi16 w0); pack16 0 (lo16 w0)]
  end.

(** The entries as the specification words them: without e1, the half of
    e0 left-justified, that is in the upper 16 bits. *)
Definition left_justified_entries (w0 : Z) (w1 : option Z) : list Z :=
  match w1 with
  | Some w1 => [pack16 (hi16 w1) (hi16 w0); pack16 (lo16 w1) (lo16 w0)]
  | None => [pack16 (hi16 w0) 0; pack16 (lo16 w0) 0]
  end.

(** The word indices, most significant word first. *)
Definition msw_first (words : nat) : list Z := map Z.of_nat (rev (seq 0 words)).

Definition feed_stream (entries : Z -> option Z -> list Z)
  (e0 : list Z) (e1 : option (list Z)) (words : nat) : list Z :=
  flat_map (fun i => entries (load_at e0 i) (option_map (fun e => load_at e i) e1))
    (msw_first words).

(** *** Calls of the codec and feed primitives and what they return *)

Inductive CValue :=
| VVoid               (* the function is declared void *)
| VInt (z : Z).

Inductive Call :=
| CallSetOperand (operand_data : list Z) (operand length : Z)
| CallSetExponent (e0 : list Z) (e1 : option (list Z)) (t : Z).

Definition call (c : Call) : M CValue :=
  match c with
  | CallSetOperand operand_data operand length =>
      r <- MME1536_SetOperand operand_data operand length ;; ret (VInt r)
  | CallSetExponent e0 e1 t =>
      MME1536_SetExponent e0 e1 t ;; ret VVoid
  end.

Definition known_slot (operand : Z) : Prop := OPERAND_0 <= operand <= MODULUS.

Definition invalid_call (c : Call) : Prop :=
  match c with
  | CallSetOperand _ operand length =>
      ~ known_slot operand \/ ~ supported_width length
  | CallSetExponent _ _ t => Z.rem t 32 <> 0
  end.

Definition error_code (v : CValue) : Prop :=
  exists z, v = VInt z /\ z <> 0.

(** The events are one message and nothing else. *)
Definition only_reports (evs : list Event) : Prop :=
  exists msg, evs = [EvPrintf msg].

(** What the claim asks of a call on an invalid input. *)
Definition rejected_with_error_code (c : Call) (s : State) : Prop :=
  exists v evs s',
    runs (call c) s v evs s' /\
    only_reports evs /\ data_writes evs = [] /\ data_mem s' = data_mem s /\
    error_code v.

(** What the code does on it: -1 from MME1536_SetOperand, nothing from
    MME1536_SetExponent, which is declared void. *)
Definition call_status (c : Call) : CValue :=
  match c with
  | CallSetOperand _ _ _ => VInt (-1)
  | CallSetExponent _ _ _ => VVoid
  end.

Definition rejected (c : Call) (s : State) : Prop :=
  exists evs s',
    runs (call c) s (call_status c) evs s' /\
    only_reports evs /\ data_writes evs = [] /\ data_mem s' = data_mem s.

(** *** A device and a machine to run examples on *)

Definition example_dev : MME1536 :=
  {| Dev.data_fd := 3; Dev.ctrl_fd := 4; Dev.ctrl_ptr := 4096;
     Dev.data_ptr := 8192; Dev.uio_dev := DEFAULT_UIO_DEV;
     Dev.tv := {| tv_sec := TIMEOUT_S; tv_usec := TIMEOUT_US |};
     Dev.select_fd := [4]; Dev.prev_tot_ints := 5;
     Dev.R2 := repeat 7 48; Dev.n := 512; Dev.words := 16;
     Dev.part := LOW_PART |}.

Definition example_state (answers : list (option Z)) (times : list timeval)
  : State :=
  {| dev := example_dev; ctrl_reg := fun _ => 4294967295;
     data_mem := fun _ => 7; trace := [];
     uio_in := answers; clock := times;
     fds := [3; 4]; maps := [(8192, PAGE_SIZE * 6); (4096, PAGE_SIZE)] |}.

(** *** The layout of a slot *)

(** The 48 words of a slot that holds [data] under the placement policy of
    the width [length]: the low 16 words for 512 bits, the high 32 words
    for 1024 bits, all the words for 1536 bits; the rest is zero. *)
Definition slot_layout (data : list Z) (length : Z) : list Z :=
  if length =? BITS_LOW then data ++ repeat 0 32
  else if length =? BITS_HIGH then repeat 0 16 ++ data
  else data.

(** The words of a buffer from the index [word] on, [k] of them. *)
Fixpoint loads (k : nat) (data : list Z) (word : Z) : list Z :=
  match k with
  | O => []
  | S k' => load_at data word :: loads k' data (word + 1)
  end.

(** *** The interrupt wait, seen from the environment *)

(** The value most recently read: the content of the [int] the reads of
    the interrupt descriptor store in, which starts as [ints_passed], after
    the reads that got the [answers]. *)
Definition buffer_after (ints_passed : Z) (answers : list (option Z)) : Z :=
  fold_left (fun b r => match r with Some c => c | None => b end)
    answers ints_passed.

(** The count delivered by the latest of the reads that delivered one. *)
Fixpoint last_delivered (answers : list (option Z)) : option Z :=
  match answers with
  | [] => None
  | r :: rest =>
      match last_delivered rest with
      | Some c => Some c
      | None => r
      end
  end.

(** [current_time] in the turn [j] of the loop (the first turn is 0), from
    the times the clock returns in the loop. *)
Definition usec_at (times : list timeval) (j : nat) : Z :=
  s32 (tv_usec (nth j times {| tv_sec := 0; tv_usec := 0 |})).

(** [timeout], from the time at the call. *)
Definition deadline (t0 : timeval) : Z := s32 (s32 (tv_usec t0) + TIMEOUT_US).

Definition turn_events : list Event := [EvUioRead; EvGetTime].

Definition timeout_message : string :=
  "[WARNING] MME1536: WaitUntilReady() -> Timeout!".

(** A time of day, in microseconds. *)
Definition total_usec (t : timeval) : Z := tv_sec t * 1000000 + tv_usec t.

Definition wf_timeval (t : timeval) : Prop := 0 <= tv_usec t < 1000000.

(** A wait of two turns: the first read delivers nothing, the second one
    the count 6. *)
Definition completed_wait : State :=
  example_state [None; Some 6]
    [{| tv_sec := 9; tv_usec := 100 |}; {| tv_sec := 9; tv_usec := 200 |};
     {| tv_sec := 9; tv_usec := 900 |}].

(** A wait of two turns in which no read delivers a count and the second
    turn finds the deadline reached. *)
Definition timed_out_wait : State :=
  example_state [None; None]
    [{| tv_sec := 9; tv_usec := 100 |}; {| tv_sec := 9; tv_usec := 200 |};
     {| tv_sec := 9; tv_usec := 150000 |}].

(** *** Counting the waits *)

(** The number of writes on the interrupt descriptor among the events.
    MME1536_WaitUntilReady ends with one such write and the operations
    write on the descriptor nowhere else, so this is the number of times an
    operation has waited. *)
Fixpoint waits (evs : list Event) : nat :=
  match evs with
  | [] => O
  | EvUioWrite _ :: t => S (waits t)
  | _ :: t => waits t
  end.

(** Whenever [c] returns, it has waited [k] times. *)
Definition waits_exactly {A} (c : M A) (k : nat) : Prop :=
  forall s a s', c s = Some (a, s') ->
  exists evs, trace s' = trace s ++ evs /\ waits evs = k.

(** The environment of an exponentiation: every wait sees a new count at
    its first read. *)
Definition exponentiation_example : State :=
  example_state [Some 6; Some 7; Some 8; Some 9]
    (map (fun u => {| tv_sec := 9; tv_usec := u |})
       [100; 200; 300; 400; 500; 600; 700; 800]).

(** *** The modulus update *)

(** The pipeline part of a supported width. *)
Definition part_of_width (n : Z) : Z :=
  if n =? BITS_LOW then LOW_PART
  else if n =? BITS_HIGH then HIGH_PART
  else TOT_PIPELINE.

(** A modulus of two words, 2^32 + 1 less than 2^64, padded to 512 bits. *)
Definition example_modulus : list Z := [-1; -2] ++ repeat 0 14.

(** *** Opening the device *)

(** A process with nothing open and nothing mapped, and a device structure
    not yet initialised. *)
Definition blank_dev : MME1536 :=
  {| Dev.data_fd := 0; Dev.ctrl_fd := 0; Dev.ctrl_ptr := 0; Dev.data_ptr := 0;
     Dev.uio_dev := EmptyString; Dev.tv := {| tv_sec := 0; tv_usec := 0 |};
     Dev.select_fd := []; Dev.prev_tot_ints := 0; Dev.R2 := [];
     Dev.n := 0; Dev.words := 0; Dev.part := 0 |}.

Definition fresh_process : State :=
  {| dev := blank_dev; ctrl_reg := fun _ => 0; data_mem := fun _ => 0;
     trace := []; uio_in := [None]; clock := [];
     fds := []; maps := [] |}.

(** Every call succeeds. *)
Definition all_succeed : Outcomes :=
  {| open_mem := 3; mmap_data := 1073741824; open_uio := 4;
     mmap_ctrl := 1073766400; write_enable := 4;
     malloc_R2 := Some (repeat 0 48) |}.

(** /dev/mem is opened and mapped, then the UIO device cannot be opened. *)
Definition uio_open_fails : Outcomes :=
  {| open_mem := 3; mmap_data := 1073741824; open_uio := -1;
     mmap_ctrl := MAP_FAILED; write_enable := -1; malloc_R2 := None |}.

(** Everything succeeds but the allocation of R2. *)
Definition malloc_fails : Outcomes :=
  {| open_mem := 3; mmap_data := 1073741824; open_uio := 4;
     mmap_ctrl := 1073766400; write_enable := 4; malloc_R2 := None |}.

(** *** Reading the exponent stream back *)

(** The word of e0 and the word of e1 that the two entries of one word
    index carry. *)
Definition entry_e0 (first second : Z) : Z := pack16 (lo16 first) (lo16 second).
Definition entry_e1 (first second : Z) : Z := pack16 (hi16 first) (hi16 second).

(** The pairs of words (of e0, of e1) carried by a stream of entries, in
    the order of the stream. *)
Fixpoint decode_stream (entries : list Z) : list (Z * Z) :=
  match entries with
  | first :: second :: rest =>
      (entry_e0 first second, entry_e1 first second) :: decode_stream rest
  | _ => []
  end.

(** *** The operation that takes its modulus as an argument *)

(** MME1536_MME.  [block] is what its [malloc(n/8)] returns: the content of
    the fresh block, or nothing for NULL.  With NULL, [mpz_export] allocates
    an array of its own and the pointer R2 stays NULL; MME1536_SetOperand
    then reads through it when the width is a supported one. *)
Definition MME1536_MME (result g0 g1 m e0 e1 : list Z) (n t : Z)
  (block : option (list Z)) : M (list Z) :=
  let part := 0 in
  part <- (if n =? BITS_LOW then ret LOW_PART
           else if n =? BITS_HIGH then ret HIGH_PART
           else if n =? BITS_TOT then ret TOT_PIPELINE
           else printf "[ERROR] MME1536: MME() -> wrong operand length: %d" ;;
                ret part) ;;
  R2 <- match block with
        | Some b => b' <- MME1536_ComputeR2 b m n ;; ret (Some b')
        | None => MME1536_ComputeR2 [] m n ;; ret None
        end ;;
  MME1536_SetOperand m MODULUS n ;;
  MME1536_SetOperand g0 OPERAND_0 n ;;
  MME1536_SetOperand g1 OPERAND_1 n ;;
  MME1536_SetOperand one OPERAND_2 n ;;
  match R2 with
  | Some b => MME1536_SetOperand b OPERAND_3 n
  | None =>
      match operand_image [] n with
      | Some _ => fault
      | None => MME1536_SetOperand [] OPERAND_3 n
      end
  end ;;
  MME1536_StartSingle part OPERAND_0 OPERAND_0 OPERAND_3 ;;
  MME1536_WaitUntilReady ;;
  MME1536_StartSingle part OPERAND_1 OPERAND_1 OPERAND_3 ;;
  MME1536_WaitUntilReady ;;
  MME1536_StartSingle part OPERAND_3 OPERAND_2 OPERAND_3 ;;
  MME1536_WaitUntilReady ;;
  MME1536_StartSingle part OPERAND_2 OPERAND_0 OPERAND_1 ;;
  MME1536_WaitUntilReady ;;
  MME1536_SetExponent e0 (Some e1) t ;;
  MME1536_StartAuto part ;;
  MME1536_WaitUntilReady ;;
  MME1536_SetOperand one OPERAND_2 n ;;
  MME1536_StartSingle part OPERAND_3 OPERAND_2 OPERAND_3 ;;
  MME1536_WaitUntilReady ;;
  r <- MME1536_GetOperand result OPERAND_3 n ;;
  ret (snd r).

(** The operations of the driver. *)
Inductive Operation :=
| Multiply_m (result x y : list Z)
| Exp_m (result g e : list Z) (t : Z)
| MME_m (result g0 g1 e0 e1 : list Z) (t : Z)
| MME (result g0 g1 m e0 e1 : list Z) (n t : Z) (block : option (list Z)).

Definition operation (o : Operation) : M (list Z) :=
  match o with
  | Multiply_m result x y => MME1536_Multiply_m result x y
  | Exp_m result g e t => MME1536_Exp_m result g e t
  | MME_m result g0 g1 e0 e1 t => MME1536_MME_m result g0 g1 e0 e1 t
  | MME result g0 g1 m e0 e1 n t block =>
      MME1536_MME result g0 g1 m e0 e1 n t block
  end.

(** Whenever [c] returns, the device is as before but for its
    last-observed count, and the process has the same descriptors open and
    the same regions mapped. *)
Definition keeps_config {A} (c : M A) : Prop :=
  forall s a s', c s = Some (a, s') ->
  dev s' = set_prev_tot_ints (Dev.prev_tot_ints (dev s')) (dev s) /\
  fds s' = fds s /\ maps s' = maps s.

(** An environment in which each of six waits sees a new count at its
    first read. *)
Definition six_waits_example : State :=
  example_state [Some 6; Some 7; Some 8; Some 9; Some 10; Some 11]
    (map (fun u => {| tv_sec := 9; tv_usec := u |})
       [100; 200; 300; 400; 500; 600; 700; 800; 900; 1000; 1100; 1200]).

(** *** The steps of an operation *)

(** A step of an operation, as its text has them. *)
Inductive Step :=
| Load (operand : Z)                  (* an operand is stored into its slot *)
| Single (destination x_op y_op : Z)  (* one product is started: x_op times y_op into destination *)
| Auto                                (* the loop over the exponents that were fed is started *)
| Feed                                (* the exponents are pushed to the fifo port *)
| Wait                                (* one call of MME1536_WaitUntilReady *)
| Read (operand : Z).                 (* a slot is selected and read back *)

(** The events beside the printed messages. *)
Definition not_message (e : Event) : bool :=
  match e with
  | EvPrintf _ => false
  | _ => true
  end.

Definition actions (evs : list Event) : list Event := filter not_message evs.

(** A store into the slot of [operand], a store on the fifo port, a load
    from the data window. *)
Definition store_into (operand : Z) (e : Event) : Prop :=
  exists base a v,
    operand_offset operand = Some base /\ e = EvDataWrite a v /\
    base <= a < base + WORDS_TOT * ADDR_STEP.

Definition fifo_store (e : Event) : Prop := exists v, e = EvDataWrite FIFO_OFFSET v.

Definition data_read (e : Event) : Prop := exists a, e = EvDataRead a.

(** The two control words of a start: the first has the start bit, the
    second is the first without it. *)
Definition start_pair (w1 w2 : Z) : Prop :=
  Z.testbit w1 23 = true /\ Z.testbit w2 23 = false /\
  forall i, i <> 23 -> Z.testbit w2 i = Z.testbit w1 i.

(** The first word of a start with the pipeline part [part]: the part
    shows in its field when it is one of the four selectors. *)
Definition carries_part (part w : Z) : Prop :=
  selector part -> ctrl_field w 30 = part.

(** The events [evs] are those of the steps [steps], in order, with the
    pipeline part [part]:
    - for a load, stores into the slot of the operand (none when the call
      is turned down);
    - for a single step, the load of the control register and two stores
      with the delay between them, the words carrying the selectors of the
      step;
    - for the auto-run, two such stores of words with the auto-run bit;
    - for the feed, stores on the fifo port;
    - for a wait, the time of the call, a read of the interrupt descriptor
      and the time for each turn of the loop, and the write of 1 on the
      interrupt descriptor;
    - for a read, the store of the word that selects the slot and loads
      from the data window. *)
Inductive follows (part : Z) : list Step -> list Event -> Prop :=
| follows_nil : follows part [] []
| follows_load operand stores steps evs :
    Forall (store_into operand) stores ->
    follows part steps evs ->
    follows part (Load operand :: steps) (stores ++ evs)
| follows_single destination x_op y_op steps w1 w2 evs :
    start_pair w1 w2 ->
    Z.testbit w1 22 = false ->
    map (ctrl_field w1) [28; 26; 24] = [destination; x_op; y_op] ->
    carries_part part w1 ->
    follows part steps evs ->
    follows part (Single destination x_op y_op :: steps)
      (EvCtrlRead 0 :: EvCtrlWrite 0 w1 :: EvUsleep 1 :: EvCtrlWrite 0 w2 :: evs)
| follows_auto steps w1 w2 evs :
    start_pair w1 w2 ->
    Z.testbit w1 22 = true ->
    map (ctrl_field w1) [28; 26; 24] = [0; 0; 0] ->
    carries_part part w1 ->
    follows part steps evs ->
    follows part (Auto :: steps)
      (EvCtrlWrite 0 w1 :: EvUsleep 1 :: EvCtrlWrite 0 w2 :: evs)
| follows_feed stores steps evs :
    Forall fifo_store stores ->
    follows part steps evs ->
    follows part (Feed :: steps) (stores ++ evs)
| follows_wait (turns : nat) steps evs :
    follows part steps evs ->
    follows part (Wait :: steps)
      (EvGetTime :: concat (repeat turn_events turns) ++ EvUioWrite 1 :: evs)
| follows_read operand loads steps evs :
    Forall data_read loads ->
    follows part steps evs ->
    follows part (Read operand :: steps)
      (EvCtrlWrite 0 (Z.shiftl operand DEST_BITS) :: loads ++ evs).

(** The steps of MME1536_Exp_m. *)
Definition Exp_m_steps : list Step :=
  [Load OPERAND_0; Load OPERAND_1; Load OPERAND_2;
   Single OPERAND_0 OPERAND_0 OPERAND_1; Wait;
   Single OPERAND_3 OPERAND_2 OPERAND_1; Wait;
   Feed; Auto; Wait;
   Single OPERAND_3 OPERAND_2 OPERAND_3; Wait;
   Read OPERAND_3].

(** The steps of the double exponentiation, after its loads. *)
Definition MME_steps : list Step :=
  [Single OPERAND_0 OPERAND_0 OPERAND_3; Wait;
   Single OPERAND_1 OPERAND_1 OPERAND_3; Wait;
   Single OPERAND_3 OPERAND_2 OPERAND_3; Wait;
   Single OPERAND_2 OPERAND_0 OPERAND_1; Wait;
   Feed; Auto; Wait;
   Load OPERAND_2;
   Single OPERAND_3 OPERAND_2 OPERAND_3; Wait;
   Read OPERAND_3].

(** The steps of each operation, in the order of its text. *)
Definition script (o : Operation) : list Step :=
  match o with
  | Multiply_m _ _ _ =>
      [Load OPERAND_0; Load OPERAND_1; Load OPERAND_2;
       Single OPERAND_3 OPERAND_0 OPERAND_1; Wait;
       Single OPERAND_3 OPERAND_2 OPERAND_3; Wait;
       Read OPERAND_3]
  | Exp_m _ _ _ _ => Exp_m_steps
  | MME_m _ _ _ _ _ _ =>
      [Load OPERAND_0; Load OPERAND_1; Load OPERAND_2; Load OPERAND_3]
        ++ MME_steps
  | MME _ _ _ _ _ _ _ _ _ =>
      [Load MODULUS; Load OPERAND_0; Load OPERAND_1; Load OPERAND_2;
       Load OPERAND_3] ++ MME_steps
  end.

(** The pipeline part an operation works with: the part of the device, or
    for MME1536_MME the part of its width. *)
Definition operation_part (o : Operation) (s : State) : Z :=
  match o with
  | MME _ _ _ _ _ _ n _ _ => part_of_width n
  | _ => Dev.part (dev s)
  end.

(** The width of MME1536_MME is a supported one; the other operations
    take the width of the device as it is. *)
Definition operation_width_ok (o : Operation) : Prop :=
  match o with
  | MME _ _ _ _ _ _ n _ _ => supported_width n
  | _ => True
  end.

(** Whenever [c] returns, it has left the device structure as it was and,
    messages apart, done nothing but events of the kind [P]. *)
Definition does_only {A} (P : Event -> Prop) (c : M A) : Prop :=
  forall s a s', c s = Some (a, s') ->
  dev s' = dev s /\
  exists evs, trace s' = trace s ++ evs /\ Forall P (actions evs).

(** Whenever [c] returns from a device of part [q], the device still has
    that part and what [c] did, messages apart, is what [steps] say, with
    the part [p]. *)
Definition scripted {A} (q p : Z) (c : M A) (steps : list Step) : Prop :=
  forall s a s', Dev.part (dev s) = q -> c s = Some (a, s') ->
  Dev.part (dev s') = q /\
  exists evs, trace s' = trace s ++ evs /\ follows p steps (actions evs).

(** *** How MME1536_Initialize returns *)

(** Whenever [c] returns, the device structure, the open descriptors and
    the mapped regions are as before. *)
Definition leaves_process {A} (c : M A) : Prop :=
  forall s a s', c s = Some (a, s') ->
  dev s' = dev s /\ fds s' = fds s /\ maps s' = maps s.

Definition not_fd (fd : Z) (x : Z) : bool := negb (x =? fd).
Definition not_region (addr len : Z) (x : Z * Z) : bool :=
  negb (pair_eqb x (addr, len)).

(** The returns of MME1536_Initialize, in the order of its text, with what
    the process holds at each: the five [return -1], the two of the labels
    taken together, and the [return 0]. *)
Inductive Initialize_exit (o : Outcomes) (s : State) : Z -> State -> Prop :=
| exit_open_mem s' :
    open_mem o < 1 ->
    fds s' = (if 0 <=? open_mem o then open_mem o :: fds s else fds s) ->
    maps s' = maps s ->
    Initialize_exit o s (-1) s'
| exit_mmap_data s' :
    1 <= open_mem o -> s32 (mmap_data o) = -1 ->
    fds s' = open_mem o :: fds s ->
    maps s' = (if mmap_data o =? MAP_FAILED then maps s
               else (mmap_data o, PAGE_SIZE * 6) :: maps s) ->
    Initialize_exit o s (-1) s'
| exit_open_uio s' :
    1 <= open_mem o -> s32 (mmap_data o) <> -1 -> open_uio o < 1 ->
    fds s' = (if 0 <=? open_uio o then open_uio o :: open_mem o :: fds s
              else open_mem o :: fds s) ->
    maps s' = (mmap_data o, PAGE_SIZE * 6) :: maps s ->
    Initialize_exit o s (-1) s'
| exit_failed1 s' :
    1 <= open_mem o -> s32 (mmap_data o) <> -1 -> 1 <= open_uio o ->
    mmap_ctrl o = 0 ->
    fds s' = filter (not_fd (open_uio o)) (open_uio o :: open_mem o :: fds s) ->
    maps s' = (mmap_ctrl o, PAGE_SIZE) :: (mmap_data o, PAGE_SIZE * 6) :: maps s ->
    Initialize_exit o s (-1) s'
| exit_failed2 s' :
    1 <= open_mem o -> s32 (mmap_data o) <> -1 -> 1 <= open_uio o ->
    mmap_ctrl o <> 0 -> mmap_ctrl o <> MAP_FAILED ->
    write_enable o = ENOSYS \/ malloc_R2 o = None ->
    fds s' = filter (not_fd (open_uio o)) (open_uio o :: open_mem o :: fds s) ->
    maps s' = filter (not_region (mmap_ctrl o) PAGE_SIZE)
                ((mmap_ctrl o, PAGE_SIZE) :: (mmap_data o, PAGE_SIZE * 6) :: maps s) ->
    Initialize_exit o s (-1) s'
| exit_success s' block path ints :
    1 <= open_mem o -> s32 (mmap_data o) <> -1 -> 1 <= open_uio o ->
    mmap_ctrl o <> 0 -> mmap_ctrl o <> MAP_FAILED ->
    write_enable o <> ENOSYS -> malloc_R2 o = Some block ->
    fds s' = open_uio o :: open_mem o :: fds s ->
    maps s' = (mmap_ctrl o, PAGE_SIZE) :: (mmap_data o, PAGE_SIZE * 6) :: maps s ->
    dev s' =
      set_R2 block
        (set_prev_tot_ints ints
           (set_tv_select {| tv_sec := TIMEOUT_S; tv_usec := TIMEOUT_US |}
              [open_uio o]
              (set_ctrl_ptr (mmap_ctrl o)
                 (set_ctrl_fd (open_uio o)
                    (set_uio_dev path
                       (set_data_ptr (mmap_data o)
                          (set_data_fd (open_mem o) (dev s)))))))) ->
    Initialize_exit o s 0 s'.
(** * Properties *)

(** ** C integers *)

Lemma u32_range x : 0 <= u32 x < 2 ^ 32.
Proof. unfold u32. apply Z.mod_pos_bound. lia. Qed.

Lemma u32_small x : 0 <= x < 2 ^ 32 -> u32 x = x.
Proof. intros H. unfold u32. apply Z.mod_small. exact H. Qed.

Lemma u32_s32 x : u32 (s32 x) = u32 x.
Proof.
  unfold u32, s32. rewrite Zminus_mod_idemp_l. f_equal. lia.
Qed.

Lemma s32_range x : int_range (s32 x).
Proof.
  unfold int_range, s32.
  pose proof (Z.mod_pos_bound (x + 2 ^ 31) (2 ^ 32)). lia.
Qed.

Lemma s32_small x : int_range x -> s32 x = x.
Proof.
  unfold int_range, s32. intros H.
  rewrite Z.mod_small by lia. lia.
Qed.

Lemma s32_u32 x : s32 (u32 x) = s32 x.
Proof.
  unfold u32, s32. rewrite Zplus_mod_idemp_l. reflexivity.
Qed.

Lemma s32_u32_int x : int_range x -> s32 (u32 x) = x.
Proof. intros H. rewrite s32_u32. apply s32_small, H. Qed.

Lemma testbit_mod_pow2 a k i :
  0 <= k -> Z.testbit (a mod 2 ^ k) i = (i <? k) && Z.testbit a i.
Proof.
  intros Hk. destruct (Z.ltb_spec i k).
  - apply Z.mod_pow2_bits_low. assumption.
  - apply Z.mod_pow2_bits_high. lia.
Qed.

Lemma testbit_u32 x i : Z.testbit (u32 x) i = (i <? 32) && Z.testbit x i.
Proof. unfold u32. apply testbit_mod_pow2. lia. Qed.

Lemma testbit_s32_low x i : i < 32 -> Z.testbit (s32 x) i = Z.testbit x i.
Proof.
  intros Hi.
  assert (H : Z.testbit (u32 (s32 x)) i = Z.testbit (u32 x) i)
    by (rewrite u32_s32; reflexivity).
  rewrite !testbit_u32 in H.
  destruct (Z.ltb_spec i 32); [exact H | lia].
Qed.

Lemma testbit_small x k i : 0 <= x < 2 ^ k -> 0 <= k <= i -> Z.testbit x i = false.
Proof.
  intros Hx Hk.
  rewrite <- (Z.mod_small x (2 ^ k)) by exact Hx.
  apply Z.mod_pow2_bits_high. lia.
Qed.

(** ** The start operations *)

Lemma testbit_START_BIT i : Z.testbit START_BIT i = (i =? 23).
Proof.
  change START_BIT with (2 ^ 23). rewrite Z.pow2_bits_eqb by lia.
  apply Z.eqb_sym.
Qed.

Lemma testbit_START_AUTO_BITS i :
  Z.testbit START_AUTO_BITS i = (i =? 22) || (i =? 23).
Proof.
  change START_AUTO_BITS with (Z.lor (2 ^ 22) (2 ^ 23)).
  rewrite Z.lor_spec, !Z.pow2_bits_eqb by lia.
  rewrite (Z.eqb_sym 22), (Z.eqb_sym 23). reflexivity.
Qed.

Lemma testbit_MASK_KEEP_LOW i : Z.testbit MASK_KEEP_LOW i = (0 <=? i) && (i <? 22).
Proof.
  change MASK_KEEP_LOW with (Z.ones 22). apply Z.testbit_ones. lia.
Qed.

Lemma testbit_MASK_CLEAR_START i :
  Z.testbit MASK_CLEAR_START i = (0 <=? i) && (i <? 32) && negb (i =? 23).
Proof.
  change MASK_CLEAR_START with (Z.ldiff (Z.ones 32) (2 ^ 23)).
  rewrite Z.ldiff_spec, Z.testbit_ones, Z.pow2_bits_eqb by lia.
  rewrite (Z.eqb_sym 23). reflexivity.
Qed.

Lemma testbit_clear_start c i :
  Z.testbit (u32 (s32 (Z.land (u32 c) MASK_CLEAR_START))) i
  = Z.testbit (u32 c) i && negb (i =? 23).
Proof.
  rewrite u32_s32, testbit_u32, Z.land_spec, testbit_u32, testbit_MASK_CLEAR_START.
  destruct (Z.leb_spec 0 i);
    [| rewrite (Z.testbit_neg_r c) by lia; rewrite !andb_false_r; reflexivity].
  destruct (Z.ltb_spec i 32), (Z.eqb_spec i 23); simpl;
    rewrite ?andb_true_r, ?andb_false_r; reflexivity.
Qed.

Lemma testbit_start_word c p d x y i :
  0 <= i < 32 ->
  Z.testbit (u32 (start_word c p d x y)) i
  = (Z.testbit c i && (i <? 22)) || Z.testbit p (i - 30) || Z.testbit d (i - 28)
    || Z.testbit x (i - 26) || Z.testbit y (i - 24) || (i =? 23).
Proof.
  intros Hi. unfold start_word.
  rewrite u32_s32, testbit_u32.
  rewrite !Z.lor_spec, testbit_s32_low, Z.land_spec by lia.
  rewrite testbit_MASK_KEEP_LOW, testbit_START_BIT.
  unfold P_SEL_BITS, DEST_BITS, X_OP_BITS, Y_OP_BITS.
  rewrite !Z.shiftl_spec by lia.
  destruct (Z.ltb_spec i 32); [|lia].
  destruct (Z.leb_spec 0 i); [|lia].
  simpl. rewrite !orb_assoc. reflexivity.
Qed.

Lemma ctrl_field_bits w pos i :
  0 <= pos -> 0 <= i ->
  Z.testbit (ctrl_field w pos) i = Z.testbit w (i + pos) && (i <? 2).
Proof.
  intros Hp Hi. unfold ctrl_field.
  rewrite Z.land_spec, Z.shiftr_spec by lia.
  change 3 with (Z.ones 2). rewrite Z.testbit_ones by lia.
  destruct (Z.leb_spec 0 i); [reflexivity | lia].
Qed.

Lemma ctrl_field_eq w pos a :
  0 <= pos -> selector a ->
  (forall i, 0 <= i < 2 -> Z.testbit w (i + pos) = Z.testbit a i) ->
  ctrl_field w pos = a.
Proof.
  intros Hp Ha H. apply Z.bits_inj'. intros i Hi.
  rewrite ctrl_field_bits by lia.
  destruct (Z.ltb_spec i 2).
  - rewrite andb_true_r. apply H. lia.
  - rewrite andb_false_r. symmetry.
    apply (testbit_small a 2); [exact Ha | lia].
Qed.

Lemma ctrl_field_same w1 w2 pos :
  23 < pos ->
  (forall i, i <> 23 -> Z.testbit w2 i = Z.testbit w1 i) ->
  ctrl_field w2 pos = ctrl_field w1 pos.
Proof.
  intros Hp H. apply Z.bits_inj'. intros i Hi.
  rewrite !ctrl_field_bits by lia. rewrite H by lia. reflexivity.
Qed.

Lemma selector_bits_high a i : selector a -> 2 <= i -> Z.testbit a i = false.
Proof. intros Ha Hi. apply (testbit_small a 2); [exact Ha | lia]. Qed.

Lemma start_word_fields c p d x y :
  selector p -> selector d -> selector x -> selector y ->
  map (ctrl_field (u32 (start_word c p d x y))) [30; 28; 26; 24] = [p; d; x; y].
Proof.
  intros Hp Hd Hx Hy. cbn [map].
  repeat f_equal.
  all: apply ctrl_field_eq; [lia | assumption |];
    intros i Hi; rewrite testbit_start_word by lia;
    replace (i + 30 - 30) with i by lia;
    replace (i + 28 - 28) with i by lia;
    replace (i + 26 - 26) with i by lia;
    replace (i + 24 - 24) with i by lia;
    rewrite ?(Z.testbit_neg_r p), ?(Z.testbit_neg_r d), ?(Z.testbit_neg_r x),
      ?(Z.testbit_neg_r y) by lia;
    rewrite ?(selector_bits_high p), ?(selector_bits_high d),
      ?(selector_bits_high x), ?(selector_bits_high y) by (assumption || lia);
    repeat match goal with
    | |- context [?a <? ?b] => destruct (Z.ltb_spec a b); try lia
    | |- context [?a =? ?b] => destruct (Z.eqb_spec a b); try lia
    end;
    rewrite ?andb_false_r, ?orb_false_r; simpl; rewrite ?orb_false_r; reflexivity.
Qed.

Lemma testbit_auto_word p i :
  0 <= i < 32 ->
  Z.testbit (u32 (s32 (Z.lor START_AUTO_BITS (Z.shiftl p P_SEL_BITS)))) i
  = (i =? 22) || (i =? 23) || Z.testbit p (i - 30).
Proof.
  intros Hi. rewrite u32_s32, testbit_u32, Z.lor_spec, testbit_START_AUTO_BITS.
  unfold P_SEL_BITS. rewrite Z.shiftl_spec by lia.
  destruct (Z.ltb_spec i 32); [reflexivity | lia].
Qed.

Lemma auto_word_fields p :
  selector p ->
  map (ctrl_field (u32 (s32 (Z.lor START_AUTO_BITS (Z.shiftl p P_SEL_BITS)))))
    [30; 28; 26; 24] = [p; 0; 0; 0].
Proof.
  intros Hp. cbn [map].
  repeat f_equal.
  all: apply ctrl_field_eq; [lia | unfold selector; lia || assumption |];
    intros i Hi; rewrite testbit_auto_word by lia;
    replace (i + 30 - 30) with i by lia;
    rewrite ?(Z.testbit_neg_r p) by lia;
    rewrite ?Z.bits_0;
    repeat match goal with
    | |- context [?a =? ?b] => destruct (Z.eqb_spec a b); try lia
    end; reflexivity.
Qed.

Lemma start_pulse w :
  let w1 := u32 w in
  let w2 := u32 (s32 (Z.land (u32 w) MASK_CLEAR_START)) in
  Z.testbit w2 23 = false /\
  (forall i, i <> 23 -> Z.testbit w2 i = Z.testbit w1 i) /\
  map (ctrl_field w2) [30; 28; 26; 24] = map (ctrl_field w1) [30; 28; 26; 24] /\
  Z.testbit w2 22 = Z.testbit w1 22.
Proof.
  intros w1 w2.
  assert (Hbits : forall i, i <> 23 -> Z.testbit w2 i = Z.testbit w1 i).
  { intros i Hi. unfold w1, w2. rewrite testbit_clear_start.
    destruct (Z.eqb_spec i 23); [lia |]. apply andb_true_r. }
  split; [| split; [exact Hbits | split]].
  - unfold w2. rewrite testbit_clear_start. apply andb_false_r.
  - cbn [map].
    rewrite (ctrl_field_same w1 w2 30), (ctrl_field_same w1 w2 28),
      (ctrl_field_same w1 w2 26), (ctrl_field_same w1 w2 24)
      by (lia || exact Hbits).
    reflexivity.
  - apply Hbits. lia.
Qed.

Lemma start_word_first c p d x y :
  let w1 := u32 (start_word c p d x y) in
  Z.testbit w1 23 = true /\ Z.testbit w1 22 = false /\
  (Forall selector [p; d; x; y] ->
   map (ctrl_field w1) [30; 28; 26; 24] = [p; d; x; y]).
Proof.
  intros w1. unfold w1. split; [| split].
  - rewrite testbit_start_word by lia. apply orb_true_r.
  - rewrite testbit_start_word by lia.
    rewrite (Z.testbit_neg_r p), (Z.testbit_neg_r d),
      (Z.testbit_neg_r x), (Z.testbit_neg_r y) by lia.
    change (22 <? 22) with false. rewrite andb_false_r. reflexivity.
  - intros HF.
    inversion_clear HF as [| ? ? Hp HF1]. inversion_clear HF1 as [| ? ? Hd HF2].
    inversion_clear HF2 as [| ? ? Hx HF3]. inversion_clear HF3 as [| ? ? Hy _].
    apply start_word_fields; assumption.
Qed.

Lemma auto_word_first p :
  let w1 := u32 (s32 (Z.lor START_AUTO_BITS (Z.shiftl p P_SEL_BITS))) in
  Z.testbit w1 23 = true /\ Z.testbit w1 22 = true /\
  (Forall selector [p; 0; 0; 0] ->
   map (ctrl_field w1) [30; 28; 26; 24] = [p; 0; 0; 0]).
Proof.
  intros w1. unfold w1. split; [| split].
  - rewrite testbit_auto_word by lia. rewrite (Z.testbit_neg_r p) by lia.
    reflexivity.
  - rewrite testbit_auto_word by lia. rewrite (Z.testbit_neg_r p) by lia.
    reflexivity.
  - intros HF. inversion_clear HF as [| ? ? Hp _].
    apply auto_word_fields; assumption.
Qed.

Ltac run_start :=
  split;
  [ lazy beta iota zeta delta
      [start MME1536_StartSingle MME1536_StartSingle_m MME1536_StartAuto
       MME1536_StartAuto_m bind ctrl_load ctrl_store usleep get_dev];
    reflexivity
  | unfold log, with_trace; cbn [trace app]; rewrite <- ?app_assoc;
    cbn [app]; reflexivity ].

Ltac finish_start Hfirst Hpulse :=
  destruct Hfirst as (F1 & F2 & F3);
  destruct Hpulse as (H1 & H2 & H3 & H4);
  split; [reflexivity |]; split; [reflexivity |];
  split; [exact F1 |]; split; [exact H1 |]; split; [exact H2 |];
  split; [exact H3 |]; split; [exact H4 |]; split; [exact F2 | exact F3].

(** C6: a start operation stores exactly two words in the control
    register, with only the delay between them.  The first has the start
    bit (bit 23) set and carries the selectors asked for and the auto-run
    bit of the operation; the second is the first with the start bit
    cleared and every other bit, so every field, the same. *)
Theorem start_two_control_writes (op : StartOp) (s : State) :
  exists w1 w2 evs s',
    runs (start op) s tt evs s' /\
    evs = (if start_auto_run op then [] else [EvCtrlRead 0])
            ++ [EvCtrlWrite 0 w1; EvUsleep 1; EvCtrlWrite 0 w2] /\
    ctrl_writes evs = [(0, w1); (0, w2)] /\
    Z.testbit w1 23 = true /\
    Z.testbit w2 23 = false /\
    (forall i, i <> 23 -> Z.testbit w2 i = Z.testbit w1 i) /\
    map (ctrl_field w2) [30; 28; 26; 24] = map (ctrl_field w1) [30; 28; 26; 24] /\
    Z.testbit w2 22 = Z.testbit w1 22 /\
    Z.testbit w1 22 = start_auto_run op /\
    (Forall selector (start_fields op s) ->
     map (ctrl_field w1) [30; 28; 26; 24] = start_fields op s).
Proof.
  destruct op as [p d x y | d x y | p |].
  - exists (u32 (start_word (s32 (ctrl_reg s 0)) p d x y)).
    eexists. eexists. eexists.
    split; [run_start |].
    finish_start (start_word_first (s32 (ctrl_reg s 0)) p d x y)
      (start_pulse (start_word (s32 (ctrl_reg s 0)) p d x y)).
  - exists (u32 (start_word (s32 (ctrl_reg s 0)) (Dev.part (dev s)) d x y)).
    eexists. eexists. eexists.
    split; [run_start |].
    finish_start (start_word_first (s32 (ctrl_reg s 0)) (Dev.part (dev s)) d x y)
      (start_pulse (start_word (s32 (ctrl_reg s 0)) (Dev.part (dev s)) d x y)).
  - exists (u32 (s32 (Z.lor START_AUTO_BITS (Z.shiftl p P_SEL_BITS)))).
    eexists. eexists. eexists.
    split; [run_start |].
    finish_start (auto_word_first p)
      (start_pulse (s32 (Z.lor START_AUTO_BITS (Z.shiftl p P_SEL_BITS)))).
  - exists (u32 (s32 (Z.lor START_AUTO_BITS (Z.shiftl (Dev.part (dev s)) P_SEL_BITS)))).
    eexists. eexists. eexists.
    split; [run_start |].
    finish_start (auto_word_first (Dev.part (dev s)))
      (start_pulse (s32 (Z.lor START_AUTO_BITS
                           (Z.shiftl (Dev.part (dev s)) P_SEL_BITS)))).
Qed.

Lemma start_two_control_writes_witness :
  exists w1 w2 evs s',
    runs (start (StartSingle TOT_PIPELINE OPERAND_3 OPERAND_2 OPERAND_1))
      (example_state [] []) tt evs s' /\
    ctrl_writes evs = [(0, w1); (0, w2)] /\
    map (ctrl_field w1) [30; 28; 26; 24]
    = [TOT_PIPELINE; OPERAND_3; OPERAND_2; OPERAND_1].
Proof.
  destruct (start_two_control_writes
              (StartSingle TOT_PIPELINE OPERAND_3 OPERAND_2 OPERAND_1)
              (example_state [] []))
    as (w1 & w2 & evs & s' & Hrun & _ & Hcw & _ & _ & _ & _ & _ & _ & Hf).
  exists w1, w2, evs, s'. split; [exact Hrun |]. split; [exact Hcw |].
  apply Hf. cbn [start_fields].
  unfold selector, TOT_PIPELINE, OPERAND_3, OPERAND_2, OPERAND_1.
  repeat (apply Forall_cons; [lia |]). apply Forall_nil.
Defined.

(** ** Reading operands *)

Lemma GetData_loop_runs k : forall off s,
  exists got s',
    runs (GetData_loop k off) s got (map EvDataRead (addrs k off)) s' /\
    got = map (fun a => s32 (data_mem s a)) (addrs k off) /\
    ctrl_reg s' = ctrl_reg s /\ data_mem s' = data_mem s /\ dev s' = dev s.
Proof.
  induction k as [| k IH]; intros off s.
  - exists [], s. unfold runs. cbn [GetData_loop addrs map].
    rewrite app_nil_r. repeat split; reflexivity.
  - destruct (IH (off + ADDR_STEP) (log (EvDataRead off) s))
      as (got & s' & (Hrun & Htr) & Hgot & Hc & Hd & Hdev).
    exists (s32 (data_mem s off) :: got), s'.
    unfold runs. cbn [GetData_loop addrs map].
    unfold bind at 1. unfold data_load at 1.
    unfold bind at 1. rewrite Hrun. unfold ret.
    repeat split.
    + rewrite Htr. unfold log, with_trace. cbn [trace].
      rewrite <- app_assoc. reflexivity.
    + rewrite Hgot. reflexivity.
    + exact Hc.
    + exact Hd.
    + exact Hdev.
Qed.

Lemma read_word_bits operand i :
  working_slot operand ->
  Z.testbit (u32 (s32 (Z.lor 0 (Z.shiftl operand DEST_BITS)))) i
  = Z.testbit operand (i - 28).
Proof.
  intros Hop. unfold working_slot, OPERAND_0, OPERAND_3 in Hop.
  rewrite u32_s32, testbit_u32, Z.lor_0_l. unfold DEST_BITS.
  destruct (Z.ltb_spec i 0).
  - rewrite !Z.testbit_neg_r by lia. apply andb_false_r.
  - rewrite Z.shiftl_spec by lia.
    destruct (Z.ltb_spec i 32); [reflexivity |].
    symmetry. apply (testbit_small operand 2); lia.
Qed.

Lemma GetData_runs buffer off operand words s :
  exists got s',
    runs (MME1536_GetData buffer off operand words) s
      (got ++ skipn (length got) buffer)
      (EvCtrlWrite 0 (u32 (s32 (Z.lor 0 (Z.shiftl operand DEST_BITS))))
         :: map EvDataRead (addrs (Z.to_nat words) off)) s' /\
    got = map (fun a => s32 (data_mem s a)) (addrs (Z.to_nat words) off) /\
    ctrl_reg s' 0 = u32 (s32 (Z.lor 0 (Z.shiftl operand DEST_BITS))) /\
    data_mem s' = data_mem s /\ dev s' = dev s.
Proof.
  unfold MME1536_GetData.
  set (w := s32 (Z.lor 0 (Z.shiftl operand DEST_BITS))).
  destruct (ctrl_store 0 w s) as [[u s1] |] eqn:E1; [| discriminate E1].
  unfold ctrl_store in E1. injection E1 as _ E1.
  destruct (GetData_loop_runs (Z.to_nat words) off s1)
    as (got & s' & (Hrun & Htr) & Hgot & Hc & Hd & Hdev).
  exists got, s'. unfold runs, bind. unfold ctrl_store at 1.
  rewrite E1, Hrun. unfold ret.
  repeat split.
  - rewrite Htr, <- E1. unfold log, with_trace. cbn [trace].
    rewrite <- app_assoc. reflexivity.
  - rewrite Hgot, <- E1. reflexivity.
  - rewrite Hc, <- E1. unfold log, with_trace, upd. cbn [ctrl_reg]. reflexivity.
  - rewrite Hd, <- E1. reflexivity.
  - rewrite Hdev, <- E1. reflexivity.
Qed.

Lemma read_offset_working operand :
  working_slot operand -> exists a, read_offset operand = Some a.
Proof.
  unfold working_slot, OPERAND_0, OPERAND_3. intros H.
  assert (Hc : operand = 0 \/ operand = 1 \/ operand = 2 \/ operand = 3) by lia.
  destruct Hc as [-> | [-> | [-> | ->]]]; eexists; reflexivity.
Qed.

(** A read of a working slot (and, in the family with an explicit width,
    of a supported width) begins with the store of [operand << 28] in the
    control register. *)
Lemma read_operand_accepted
  (op : ReadOp) (operand_data : list Z) (operand : Z) (s : State) :
  working_slot operand ->
  read_width_ok op ->
  exists w buf reads s',
    runs (read_operand op operand_data operand) s (0, buf)
      (EvCtrlWrite 0 w :: reads) s' /\
    only_data_reads reads /\
    ctrl_reg s' 0 = w /\
    w = Z.shiftl operand DEST_BITS /\
    map (ctrl_field w) [30; 28; 26; 24] = [0; operand; 0; 0] /\
    Z.testbit w 23 = false /\
    Z.testbit w 22 = false /\
    (forall i, Z.testbit w i = true -> i = 28 \/ i = 29).
Proof.
  intros Hop Hw.
  set (w := u32 (s32 (Z.lor 0 (Z.shiftl operand DEST_BITS)))).
  assert (Hbits : forall i, Z.testbit w i = Z.testbit operand (i - 28))
    by (intros i; apply read_word_bits, Hop).
  assert (Hweq : w = Z.shiftl operand DEST_BITS).
  { apply Z.bits_inj'. intros i Hi. rewrite Hbits. unfold DEST_BITS.
    rewrite Z.shiftl_spec by lia. reflexivity. }
  assert (Hrest :
    map (ctrl_field w) [30; 28; 26; 24] = [0; operand; 0; 0] /\
    Z.testbit w 23 = false /\ Z.testbit w 22 = false /\
    (forall i, Z.testbit w i = true -> i = 28 \/ i = 29)).
  { unfold working_slot, OPERAND_0, OPERAND_3 in Hop.
    split; [| split; [| split]].
    - cbn [map].
      rewrite (ctrl_field_eq w 30 0), (ctrl_field_eq w 28 operand),
        (ctrl_field_eq w 26 0), (ctrl_field_eq w 24 0); try reflexivity;
        try lia; try (unfold selector; lia);
        intros i Hi; rewrite Hbits, ?Z.bits_0.
      + apply Z.testbit_neg_r. lia.
      + apply Z.testbit_neg_r. lia.
      + f_equal. lia.
      + apply (testbit_small operand 2); lia.
    - rewrite Hbits. apply Z.testbit_neg_r. lia.
    - rewrite Hbits. apply Z.testbit_neg_r. lia.
    - intros i Hi. rewrite Hbits in Hi.
      destruct (Z.ltb_spec (i - 28) 0) as [Hn | Hn];
        [rewrite Z.testbit_neg_r in Hi by lia; discriminate |].
      destruct (Z.ltb_spec (i - 28) 2) as [Hh | Hh]; [lia |].
      rewrite (testbit_small operand 2) in Hi by lia. discriminate. }
  destruct (read_offset_working operand Hop) as (a & Ha).
  assert (Hgen : forall off words,
    exists buf reads s',
      runs (buf0 <- MME1536_GetData operand_data off operand words ;; ret (0, buf0))
        s (0, buf) (EvCtrlWrite 0 w :: reads) s' /\
      only_data_reads reads /\ ctrl_reg s' 0 = w).
  { intros off words.
    destruct (GetData_runs operand_data off operand words s)
      as (got & s' & (Hrun & Htr) & _ & Hc & _ & _).
    exists (got ++ skipn (length got) operand_data),
      (map EvDataRead (addrs (Z.to_nat words) off)), s'.
    split; [split |].
    - unfold bind. rewrite Hrun. reflexivity.
    - exact Htr.
    - split; [eexists; reflexivity | exact Hc]. }
  assert (Hmain : exists buf reads s',
      runs (read_operand op operand_data operand) s (0, buf)
        (EvCtrlWrite 0 w :: reads) s' /\
      only_data_reads reads /\ ctrl_reg s' 0 = w).
  { destruct op as [len |]; cbn [read_operand read_width_ok] in *.
    - unfold MME1536_GetOperand. rewrite Ha.
      destruct Hw as [-> | [-> | ->]].
      + apply Hgen.
      + apply Hgen.
      + apply Hgen.
    - unfold MME1536_GetOperand_m. rewrite Ha.
      unfold bind at 1. unfold get_dev at 1. apply Hgen. }
  destruct Hmain as (buf & reads & s' & Hrun & Hreads & Hc).
  exists w, buf, reads, s'.
  split; [exact Hrun |]. split; [exact Hreads |]. split; [exact Hc |].
  split; [exact Hweq | exact Hrest].
Qed.

Lemma read_offset_not_working operand :
  ~ working_slot operand -> read_offset operand = None.
Proof.
  unfold working_slot, read_offset, OPERAND_0, OPERAND_1, OPERAND_2, OPERAND_3.
  intros H.
  destruct (Z.eqb_spec operand 0); [lia |].
  destruct (Z.eqb_spec operand 1); [lia |].
  destruct (Z.eqb_spec operand 2); [lia |].
  destruct (Z.eqb_spec operand 3); [lia | reflexivity].
Qed.

Lemma working_slot_dec operand : working_slot operand \/ ~ working_slot operand.
Proof. unfold working_slot, OPERAND_0, OPERAND_3. lia. Qed.

(** Any other read is turned down before MME1536_GetData is called. *)
Lemma read_operand_rejected
  (op : ReadOp) (operand_data : list Z) (operand : Z) (s : State) :
  ~ working_slot operand \/ ~ read_width_ok op ->
  exists msg s',
    runs (read_operand op operand_data operand) s (-1, operand_data)
      [EvPrintf msg] s' /\
    ctrl_reg s' = ctrl_reg s /\ data_mem s' = data_mem s /\ dev s' = dev s.
Proof.
  intros H.
  destruct (working_slot_dec operand) as [Hs | Hs].
  - destruct H as [H | H]; [contradiction |].
    destruct op as [len |]; cbn [read_width_ok] in H; [| tauto].
    destruct (read_offset_working operand Hs) as (off & Hoff).
    cbn [read_operand]. unfold MME1536_GetOperand. rewrite Hoff.
    unfold supported_width in H.
    destruct (Z.eqb_spec len BITS_LOW); [tauto |].
    destruct (Z.eqb_spec len BITS_HIGH); [tauto |].
    destruct (Z.eqb_spec len BITS_TOT); [tauto |].
    eexists. eexists. split; [split; reflexivity |]. repeat split.
  - destruct op as [len |]; cbn [read_operand].
    + unfold MME1536_GetOperand. rewrite (read_offset_not_working _ Hs).
      eexists. eexists. split; [split; reflexivity |]. repeat split.
    + unfold MME1536_GetOperand_m. rewrite (read_offset_not_working _ Hs).
      eexists. eexists. split; [split; reflexivity |]. repeat split.
Qed.

(** C10, as amended: an operand read of either family, of a working slot
    (and, for the family with an explicit width, of a supported width),
    returns 0 and begins by storing in the control register, before any
    load from the data window, the word [operand << 28]: its destination
    field is the slot, every other bit is zero, so the pipeline part, the
    operand X and Y selectors, the start bit and the auto-run bit are
    cleared; the register holds that word when the read returns.  A read
    of any other slot, the modulus slot included, or with an unsupported
    width, is turned down: it prints its error and returns -1 with the
    caller's buffer as it was, without a store in the control register and
    without a load from the data window. *)
Theorem operand_read_overwrites_control
  (op : ReadOp) (operand_data : list Z) (operand : Z) (s : State) :
  (working_slot operand -> read_width_ok op ->
   exists w buf reads s',
     runs (read_operand op operand_data operand) s (0, buf)
       (EvCtrlWrite 0 w :: reads) s' /\
     only_data_reads reads /\
     ctrl_reg s' 0 = w /\
     w = Z.shiftl operand DEST_BITS /\
     map (ctrl_field w) [30; 28; 26; 24] = [0; operand; 0; 0] /\
     Z.testbit w 23 = false /\
     Z.testbit w 22 = false /\
     (forall i, Z.testbit w i = true -> i = 28 \/ i = 29)) /\
  (~ working_slot operand \/ ~ read_width_ok op ->
   exists msg s',
     runs (read_operand op operand_data operand) s (-1, operand_data)
       [EvPrintf msg] s' /\
     ctrl_reg s' = ctrl_reg s /\ data_mem s' = data_mem s /\ dev s' = dev s).
Proof.
  split.
  - apply read_operand_accepted.
  - apply read_operand_rejected.
Qed.

Lemma operand_read_overwrites_control_witness :
  (exists w buf reads s',
     runs (read_operand (ReadOperand 1024) (repeat 0 32) 2) (example_state [] [])
       (0, buf) (EvCtrlWrite 0 w :: reads) s' /\
     only_data_reads reads /\
     ctrl_reg s' 0 = w /\
     w = Z.shiftl 2 DEST_BITS /\
     map (ctrl_field w) [30; 28; 26; 24] = [0; 2; 0; 0] /\
     Z.testbit w 23 = false /\
     Z.testbit w 22 = false /\
     (forall i, Z.testbit w i = true -> i = 28 \/ i = 29)) /\
  (exists msg s',
     runs (read_operand ReadOperand_m (repeat 0 16) 7) (example_state [] [])
       (-1, repeat 0 16) [EvPrintf msg] s' /\
     ctrl_reg s' = ctrl_reg (example_state [] []) /\
     data_mem s' = data_mem (example_state [] []) /\
     dev s' = dev (example_state [] [])).
Proof.
  split.
  - apply (proj1 (operand_read_overwrites_control
                    (ReadOperand 1024) (repeat 0 32) 2 (example_state [] []))).
    + unfold working_slot, OPERAND_0, OPERAND_3. lia.
    + right. left. reflexivity.
  - apply (proj2 (operand_read_overwrites_control
                    ReadOperand_m (repeat 0 16) 7 (example_state [] []))).
    left. unfold working_slot, OPERAND_0, OPERAND_3. lia.
Defined.

(** C10, as it is stated, fails: a read of the modulus slot, and a read of
    a working slot with the width 100, return -1 and leave the control
    register as it was, here with every field set. *)
Lemma operand_read_rejected_counterexample :
  (exists msg s',
     runs (read_operand (ReadOperand BITS_LOW) (repeat 0 16) MODULUS)
       (example_state [] []) (-1, repeat 0 16) [EvPrintf msg] s' /\
     ctrl_writes [EvPrintf msg] = [] /\
     ctrl_reg s' 0 = ctrl_reg (example_state [] []) 0 /\
     map (ctrl_field (ctrl_reg s' 0)) [30; 28; 26; 24] = [3; 3; 3; 3] /\
     Z.testbit (ctrl_reg s' 0) 23 = true) /\
  (exists msg s',
     runs (read_operand (ReadOperand 100) (repeat 0 16) OPERAND_1)
       (example_state [] []) (-1, repeat 0 16) [EvPrintf msg] s' /\
     ctrl_writes [EvPrintf msg] = [] /\
     ctrl_reg s' 0 = ctrl_reg (example_state [] []) 0 /\
     map (ctrl_field (ctrl_reg s' 0)) [30; 28; 26; 24] = [3; 3; 3; 3] /\
     Z.testbit (ctrl_reg s' 0) 23 = true).
Proof.
  split; eexists; eexists;
    (split; [split; reflexivity |]);
    (split; [reflexivity |]); (split; [reflexivity |]);
    (split; [vm_compute; reflexivity | vm_compute; reflexivity]).
Qed.
(** ** The exponent feed *)

Lemma hi16_range w : 0 <= hi16 w < 2 ^ 16.
Proof.
  unfold hi16. pose proof (u32_range w) as H.
  split; [apply Z.div_pos; lia |].
  apply Z.div_lt_upper_bound; lia.
Qed.

Lemma lo16_range w : 0 <= lo16 w < 2 ^ 16.
Proof. unfold lo16. apply Z.mod_pos_bound. lia. Qed.

Lemma testbit_hi16 w i :
  0 <= i -> Z.testbit (hi16 w) i = (i <? 16) && Z.testbit w (i + 16).
Proof.
  intros Hi. unfold hi16. rewrite Z.div_pow2_bits by lia.
  rewrite testbit_u32.
  destruct (Z.ltb_spec (i + 16) 32), (Z.ltb_spec i 16); try lia; reflexivity.
Qed.

Lemma testbit_lo16 w i : Z.testbit (lo16 w) i = (i <? 16) && Z.testbit w i.
Proof.
  unfold lo16. rewrite testbit_mod_pow2 by lia. rewrite testbit_u32.
  destruct (Z.ltb_spec i 16), (Z.ltb_spec i 32); try lia; reflexivity.
Qed.

Lemma testbit_pack16 upper lower i :
  0 <= lower < 2 ^ 16 -> 0 <= i ->
  Z.testbit (pack16 upper lower) i
  = if i <? 16 then Z.testbit lower i else Z.testbit upper (i - 16).
Proof.
  intros Hl Hi. unfold pack16.
  destruct (Z.ltb_spec i 16).
  - rewrite <- (Z.mod_pow2_bits_low (upper * 2 ^ 16 + lower) 16 i) by lia.
    rewrite Z.add_comm, Z.mod_add by lia.
    rewrite Z.mod_small by lia. reflexivity.
  - replace i with ((i - 16) + 16) at 1 by lia.
    rewrite <- Z.div_pow2_bits by lia.
    rewrite Z.add_comm, Z.div_add by lia.
    rewrite Z.div_small by lia. reflexivity.
Qed.

Lemma testbit_MASK_HI16 i : Z.testbit MASK_HI16 i = (16 <=? i) && (i <? 32).
Proof.
  change MASK_HI16 with (Z.shiftl (Z.ones 16) 16).
  destruct (Z.ltb_spec i 0).
  - rewrite Z.testbit_neg_r by lia.
    destruct (Z.leb_spec 16 i); [lia | reflexivity].
  - rewrite Z.shiftl_spec by lia. rewrite Z.testbit_ones by lia.
    destruct (Z.leb_spec 0 (i - 16)), (Z.ltb_spec (i - 16) 16),
      (Z.leb_spec 16 i), (Z.ltb_spec i 32); try lia; reflexivity.
Qed.

Lemma testbit_MASK_LO16 i : Z.testbit MASK_LO16 i = (0 <=? i) && (i <? 16).
Proof. change MASK_LO16 with (Z.ones 16). apply Z.testbit_ones. lia. Qed.

Ltac split_comparisons :=
  repeat match goal with
  | |- context [?a <? ?b] => destruct (Z.ltb_spec a b); try lia
  | |- context [?a <=? ?b] => destruct (Z.leb_spec a b); try lia
  | |- context [?a =? ?b] => destruct (Z.eqb_spec a b); try lia
  end.

Lemma fifo_entry_hi_packed e0 e1 i :
  u32 (fifo_entry_hi e0 e1 i)
  = nth 0 (packed_entries (load_at e0 i) (option_map (fun e => load_at e i) e1)) 0.
Proof.
  apply Z.bits_inj'. intros j Hj.
  destruct e1 as [e1 |]; cbn [fifo_entry_hi option_map packed_entries nth].
  - rewrite u32_s32, testbit_u32, Z.lor_spec, Z.land_spec, Z.shiftr_spec by lia.
    rewrite Z.land_spec, !testbit_u32, !testbit_MASK_HI16.
    rewrite testbit_pack16 by (apply hi16_range || lia).
    destruct (Z.ltb_spec j 16).
    + rewrite testbit_hi16 by lia. split_comparisons; simpl;
        rewrite ?andb_false_r, ?andb_true_r; reflexivity.
    + destruct (Z.ltb_spec j 32).
      * rewrite testbit_hi16 by lia. replace (j - 16 + 16) with j by lia.
        split_comparisons; simpl; rewrite ?andb_false_r, ?andb_true_r, ?orb_false_r;
          reflexivity.
      * simpl. symmetry. apply (testbit_small _ 16); [apply hi16_range | lia].
  - rewrite u32_s32, testbit_u32, Z.shiftr_spec by lia.
    rewrite Z.land_spec, !testbit_u32, !testbit_MASK_HI16.
    rewrite testbit_pack16 by (apply hi16_range || lia).
    destruct (Z.ltb_spec j 16).
    + rewrite testbit_hi16 by lia. split_comparisons; simpl;
        rewrite ?andb_false_r, ?andb_true_r; reflexivity.
    + rewrite Z.bits_0. split_comparisons; simpl;
        rewrite ?andb_false_r, ?andb_true_r; reflexivity.
Qed.

Lemma fifo_entry_lo_packed e0 e1 i :
  u32 (fifo_entry_lo e0 e1 i)
  = nth 1 (packed_entries (load_at e0 i) (option_map (fun e => load_at e i) e1)) 0.
Proof.
  apply Z.bits_inj'. intros j Hj.
  destruct e1 as [e1 |]; cbn [fifo_entry_lo option_map packed_entries nth].
  - rewrite u32_s32, testbit_u32, Z.lor_spec, Z.land_spec, testbit_MASK_LO16.
    rewrite testbit_pack16 by (apply lo16_range || lia).
    destruct (Z.ltb_spec j 32).
    + rewrite testbit_s32_low by lia.
      rewrite Z.shiftl_spec, Z.land_spec, testbit_MASK_LO16 by lia.
      destruct (Z.ltb_spec j 16).
      * rewrite testbit_lo16. rewrite (Z.testbit_neg_r _ (j - 16)) by lia.
        split_comparisons; simpl; rewrite ?andb_true_r; reflexivity.
      * rewrite testbit_lo16. split_comparisons; simpl;
          rewrite ?andb_false_r, ?andb_true_r, ?orb_false_r; reflexivity.
    + simpl. destruct (Z.ltb_spec j 16); [lia |].
      symmetry. apply (testbit_small _ 16); [apply lo16_range | lia].
  - rewrite u32_s32, testbit_u32, Z.land_spec, testbit_MASK_LO16.
    rewrite testbit_pack16 by (apply lo16_range || lia).
    destruct (Z.ltb_spec j 16).
    + rewrite testbit_lo16. split_comparisons; simpl;
        rewrite ?andb_false_r, ?andb_true_r; reflexivity.
    + rewrite Z.bits_0. split_comparisons; simpl;
        rewrite ?andb_false_r, ?andb_true_r; reflexivity.
Qed.

Lemma packed_entries_two w0 w1 :
  packed_entries w0 w1
  = [nth 0 (packed_entries w0 w1) 0; nth 1 (packed_entries w0 w1) 0].
Proof. destruct w1; reflexivity. Qed.

Lemma msw_first_S i : msw_first (S i) = Z.of_nat i :: msw_first i.
Proof.
  unfold msw_first. rewrite seq_S, rev_app_distr. reflexivity.
Qed.

Lemma SetExponent_loop_runs e0 e1 k : forall s,
  exists s',
    runs (SetExponent_loop k e0 e1) s tt
      (map (EvDataWrite FIFO_OFFSET) (feed_stream packed_entries e0 e1 k)) s' /\
    ctrl_reg s' = ctrl_reg s /\ dev s' = dev s.
Proof.
  induction k as [| i IH]; intros s.
  - exists s. unfold runs. cbn. rewrite app_nil_r. repeat split; reflexivity.
  - cbn [SetExponent_loop].
    set (hi := fifo_entry_hi e0 e1 (Z.of_nat i)).
    set (lo := fifo_entry_lo e0 e1 (Z.of_nat i)).
    destruct (data_store FIFO_OFFSET hi s) as [[u1 s1] |] eqn:E1;
      [| discriminate E1].
    destruct (data_store FIFO_OFFSET lo s1) as [[u2 s2] |] eqn:E2;
      [| discriminate E2].
    destruct (IH s2) as (s' & (Hrun & Htr) & Hc & Hd).
    exists s'. unfold runs, bind. rewrite E1, E2, Hrun.
    unfold data_store in E1, E2.
    injection E1 as _ E1. injection E2 as _ E2.
    repeat split.
    + rewrite Htr, <- E2, <- E1. unfold log, with_trace. cbn [trace].
      unfold feed_stream. rewrite msw_first_S. cbn [flat_map].
      rewrite packed_entries_two.
      rewrite <- fifo_entry_hi_packed, <- fifo_entry_lo_packed.
      fold (feed_stream packed_entries e0 e1 i). fold hi. fold lo.
      cbn [map app]. rewrite <- !app_assoc. reflexivity.
    + rewrite Hc, <- E2, <- E1. reflexivity.
    + rewrite Hd, <- E2, <- E1. reflexivity.
Qed.

(** C3, as amended: for a bit-length that is a multiple of 32,
    MME1536_SetExponent does nothing but store to the fifo port; it goes
    through the word indices from the most significant word down and
    stores two entries per index, first the upper halves of e1 and e0
    packed together, then their lower halves.  Without e1 each entry is the
    half of e0 in the lower 16 bits under 16 zero bits: the half stays where
    it is in the packed entry and is not left-justified. *)
Theorem SetExponent_stream e0 e1 t s :
  Z.rem t 32 = 0 ->
  exists s',
    runs (MME1536_SetExponent e0 e1 t) s tt
      (map (EvDataWrite FIFO_OFFSET)
         (feed_stream packed_entries e0 e1 (Z.to_nat (Z.quot t 32)))) s'.
Proof.
  intros Ht. unfold MME1536_SetExponent.
  rewrite Ht. cbn [Z.eqb negb].
  destruct (SetExponent_loop_runs e0 e1 (Z.to_nat (Z.quot t 32)) s)
    as (s' & Hrun & _).
  exists s'. exact Hrun.
Qed.

Lemma SetExponent_stream_witness :
  exists s',
    runs (MME1536_SetExponent [305419896; 2271560481] (Some [11259375; 4275878552]) 64)
      (example_state [] []) tt
      (map (EvDataWrite FIFO_OFFSET)
         (feed_stream packed_entries [305419896; 2271560481]
            (Some [11259375; 4275878552]) (Z.to_nat (Z.quot 64 32)))) s'.
Proof.
  apply SetExponent_stream. reflexivity.
Defined.

(** C3, as it is stated, fails: fed the single word 0x12345678 without e1,
    the driver pushes 0x00001234 and then 0x00005678, not the
    left-justified 0x12340000 and 0x56780000. *)
Lemma SetExponent_left_justified_counterexample :
  Z.rem 32 32 = 0 /\
  (exists s',
     runs (MME1536_SetExponent [305419896] None 32) (example_state [] []) tt
       [EvDataWrite FIFO_OFFSET 4660; EvDataWrite FIFO_OFFSET 22136] s') /\
  feed_stream left_justified_entries [305419896] None (Z.to_nat (Z.quot 32 32))
    = [305397760; 1450704896] /\
  ~ (exists s',
       runs (MME1536_SetExponent [305419896] None 32) (example_state [] []) tt
         (map (EvDataWrite FIFO_OFFSET)
            (feed_stream left_justified_entries [305419896] None
               (Z.to_nat (Z.quot 32 32)))) s').
Proof.
  split; [reflexivity |].
  split; [eexists; split; vm_compute; reflexivity |].
  split; [vm_compute; reflexivity |].
  intros (s' & Hrun & Htr).
  vm_compute in Hrun. injection Hrun as Hs. subst s'.
  vm_compute in Htr. discriminate Htr.
Qed.
(** ** Invalid arguments *)

Lemma operand_offset_unknown operand :
  ~ known_slot operand -> operand_offset operand = None.
Proof.
  unfold known_slot, OPERAND_0, MODULUS, operand_offset.
  unfold OPERAND_0, OPERAND_1, OPERAND_2, OPERAND_3, MODULUS.
  intros H.
  destruct (Z.eqb_spec operand 0); [lia |].
  destruct (Z.eqb_spec operand 1); [lia |].
  destruct (Z.eqb_spec operand 2); [lia |].
  destruct (Z.eqb_spec operand 3); [lia |].
  destruct (Z.eqb_spec operand 4); [lia | reflexivity].
Qed.

Lemma operand_offset_known operand :
  known_slot operand -> exists a, operand_offset operand = Some a.
Proof.
  unfold known_slot, OPERAND_0, MODULUS. intros H.
  assert (Hc : operand = 0 \/ operand = 1 \/ operand = 2 \/ operand = 3
               \/ operand = 4) by lia.
  destruct Hc as [-> | [-> | [-> | [-> | ->]]]]; eexists; reflexivity.
Qed.

Lemma operand_image_unsupported operand_data length :
  ~ supported_width length -> operand_image operand_data length = None.
Proof.
  unfold supported_width, operand_image. intros H.
  destruct (Z.eqb_spec length BITS_LOW); [tauto |].
  destruct (Z.eqb_spec length BITS_HIGH); [tauto |].
  destruct (Z.eqb_spec length BITS_TOT); [tauto | reflexivity].
Qed.

Lemma known_slot_dec operand : known_slot operand \/ ~ known_slot operand.
Proof. unfold known_slot, OPERAND_0, MODULUS. lia. Qed.

Lemma report_runs {A} (msg : string) (a : A) s :
  exists evs s',
    runs (printf msg ;; ret a) s a evs s' /\
    only_reports evs /\ data_writes evs = [] /\ data_mem s' = data_mem s.
Proof.
  exists [EvPrintf msg], (log (EvPrintf msg) s).
  split; [split; reflexivity |].
  split; [exists msg; reflexivity |].
  split; reflexivity.
Qed.

Lemma SetOperand_rejects operand_data operand length s :
  ~ known_slot operand \/ ~ supported_width length ->
  exists evs s',
    runs (MME1536_SetOperand operand_data operand length) s (-1) evs s' /\
    only_reports evs /\ data_writes evs = [] /\ data_mem s' = data_mem s.
Proof.
  intros H. unfold MME1536_SetOperand.
  destruct (known_slot_dec operand) as [Hk | Hk].
  - destruct H as [H | H]; [contradiction |].
    destruct (operand_offset_known operand Hk) as (a & ->).
    rewrite (operand_image_unsupported operand_data length H).
    apply report_runs.
  - rewrite (operand_offset_unknown operand Hk). apply report_runs.
Qed.

Lemma SetExponent_rejects e0 e1 t s :
  Z.rem t 32 <> 0 ->
  exists evs s',
    runs (MME1536_SetExponent e0 e1 t) s tt evs s' /\
    only_reports evs /\ data_writes evs = [] /\ data_mem s' = data_mem s.
Proof.
  intros H. unfold MME1536_SetExponent.
  destruct (Z.eqb_spec (Z.rem t 32) 0) as [E | _]; [contradiction |].
  cbn [negb]. eexists. eexists.
  split; [split; [unfold printf; reflexivity | reflexivity] |].
  split; [eexists; reflexivity |].
  split; reflexivity.
Qed.

(** C8, as amended: on an unknown slot or an unsupported width
    MME1536_SetOperand prints its error and returns -1, and on a bit-length
    that is no multiple of 32 MME1536_SetExponent prints its error and
    returns, without a status since it is declared void; in each case the
    message is the only effect: nothing is stored in the data window. *)
Theorem invalid_call_rejected (c : Call) (s : State) :
  invalid_call c -> rejected c s.
Proof.
  intros H. unfold rejected.
  destruct c as [operand_data operand length | e0 e1 t];
    cbn [invalid_call call call_status] in *.
  - destruct (SetOperand_rejects operand_data operand length s H)
      as (evs & s' & (Hrun & Htr) & Hrest).
    exists evs, s'. split; [split |]; [| exact Htr | exact Hrest].
    unfold bind. rewrite Hrun. reflexivity.
  - destruct (SetExponent_rejects e0 e1 t s H)
      as (evs & s' & (Hrun & Htr) & Hrest).
    exists evs, s'. split; [split |]; [| exact Htr | exact Hrest].
    unfold bind. rewrite Hrun. reflexivity.
Qed.

Lemma invalid_call_rejected_witness :
  rejected (CallSetOperand [1; 2; 3] 7 512) (example_state [] []) /\
  rejected (CallSetOperand [1; 2; 3] OPERAND_1 100) (example_state [] []) /\
  rejected (CallSetExponent [1; 2] None 40) (example_state [] []).
Proof.
  split; [| split]; apply invalid_call_rejected; cbn [invalid_call].
  - left. unfold known_slot, OPERAND_0, MODULUS. lia.
  - right. unfold supported_width, BITS_LOW, BITS_HIGH, BITS_TOT. cbn. lia.
  - cbn. lia.
Defined.

(** C8, as it is stated, fails: called with the bit-length 33,
    MME1536_SetExponent reports the error and stores nothing, but it
    returns no error code. *)
Lemma invalid_call_counterexample :
  invalid_call (CallSetExponent [1; 2] None 33) /\
  ~ rejected_with_error_code (CallSetExponent [1; 2] None 33)
      (example_state [] []).
Proof.
  split; [cbn; lia |].
  intros (v & evs & s' & (Hrun & _) & _ & _ & _ & (z & Hv & _)).
  subst v. vm_compute in Hrun. discriminate Hrun.
Qed.
(** ** The operand codec *)

Lemma addrs_lower_bound k : forall off x, In x (addrs k off) -> off <= x.
Proof.
  induction k as [| k IH]; intros off x Hx; cbn [addrs] in Hx.
  - destruct Hx.
  - destruct Hx as [<- | Hx]; [lia |].
    apply IH in Hx. unfold ADDR_STEP in Hx. lia.
Qed.

Lemma addrs_app k1 : forall k2 off,
  addrs (k1 + k2) off = addrs k1 off ++ addrs k2 (off + ADDR_STEP * Z.of_nat k1).
Proof.
  induction k1 as [| k1 IH]; intros k2 off.
  - cbn [addrs app Nat.add]. f_equal. lia.
  - cbn [addrs app Nat.add]. f_equal. rewrite IH. f_equal. f_equal. lia.
Qed.

Lemma length_addrs k : forall off, length (addrs k off) = k.
Proof. induction k as [| k IH]; intros off; cbn; [| rewrite IH]; reflexivity. Qed.

Lemma loads_firstn k : forall data j,
  (j + k <= length data)%nat ->
  loads k data (Z.of_nat j) = firstn k (skipn j data).
Proof.
  induction k as [| k IH]; intros data j Hj.
  - reflexivity.
  - cbn [loads]. replace (Z.of_nat j + 1) with (Z.of_nat (S j)) by lia.
    rewrite IH by lia.
    unfold load_at. rewrite Nat2Z.id.
    assert (Hs : skipn j data = nth j data 0 :: skipn (S j) data).
    { clear IH. revert data Hj. induction j as [| j IHj]; intros data Hj.
      - destruct data; [cbn in Hj; lia | reflexivity].
      - destruct data as [| d data]; [cbn in Hj; lia |].
        cbn [skipn nth]. apply IHj. cbn in Hj. lia. }
    rewrite Hs. reflexivity.
Qed.

Lemma loads_all data : loads (length data) data 0 = data.
Proof.
  change 0 with (Z.of_nat 0). rewrite loads_firstn by lia.
  cbn [skipn]. apply firstn_all.
Qed.

Lemma SetData_loop_runs k : forall data word off s,
  exists evs s',
    runs (SetData_loop k data word off) s tt evs s' /\
    data_writes evs = combine (addrs k off) (map u32 (loads k data word)) /\
    ctrl_writes evs = [] /\
    map (data_mem s') (addrs k off) = map u32 (loads k data word) /\
    (forall x, ~ In x (addrs k off) -> data_mem s' x = data_mem s x) /\
    ctrl_reg s' = ctrl_reg s /\ dev s' = dev s.
Proof.
  induction k as [| k IH]; intros data word off s.
  - exists [], s. unfold runs. cbn. rewrite app_nil_r. repeat split; reflexivity.
  - cbn [SetData_loop].
    destruct (data_store off (load_at data word) s) as [[u1 s1] |] eqn:E1;
      [| discriminate E1].
    unfold data_store in E1. injection E1 as _ E1.
    destruct (IH data (word + 1) (off + ADDR_STEP) s1)
      as (evs & s' & (Hrun & Htr) & Hdw & Hcw & Hmem & Hout & Hc & Hd).
    exists (EvDataWrite off (u32 (load_at data word)) :: evs), s'.
    unfold runs, bind. unfold data_store at 1. rewrite E1, Hrun.
    repeat split.
    + rewrite Htr, <- E1. unfold log, with_trace. cbn [trace].
      rewrite <- app_assoc. reflexivity.
    + cbn [data_writes addrs loads map combine]. rewrite Hdw. reflexivity.
    + cbn [ctrl_writes]. exact Hcw.
    + cbn [addrs loads map]. rewrite Hmem. f_equal.
      rewrite Hout.
      * rewrite <- E1. unfold log, with_trace, upd. cbn [data_mem].
        rewrite Z.eqb_refl. reflexivity.
      * intros Hin. apply addrs_lower_bound in Hin. unfold ADDR_STEP in Hin. lia.
    + intros x Hx. cbn [addrs In] in Hx.
      rewrite Hout by tauto.
      rewrite <- E1. unfold log, with_trace, upd. cbn [data_mem].
      destruct (Z.eqb_spec x off); [subst; tauto | reflexivity].
    + rewrite Hc, <- E1. reflexivity.
    + rewrite Hd, <- E1. reflexivity.
Qed.

Lemma SetData_runs data off s :
  length data = Z.to_nat WORDS_TOT ->
  exists evs s',
    runs (MME1536_SetData data off WORDS_TOT) s tt evs s' /\
    data_writes evs = combine (addrs (Z.to_nat WORDS_TOT) off) (map u32 data) /\
    ctrl_writes evs = [] /\
    map (data_mem s') (addrs (Z.to_nat WORDS_TOT) off) = map u32 data /\
    ctrl_reg s' = ctrl_reg s /\ dev s' = dev s.
Proof.
  intros Hlen. unfold MME1536_SetData.
  destruct (SetData_loop_runs (Z.to_nat WORDS_TOT) data 0 off s)
    as (evs & s' & Hrun & Hdw & Hcw & Hmem & _ & Hc & Hd).
  rewrite <- Hlen, loads_all in Hdw, Hmem. rewrite Hlen in Hdw, Hmem.
  exists evs, s'. repeat split; try assumption; apply Hrun.
Qed.

Lemma map_s32_u32 data : Forall int_range data -> map s32 (map u32 data) = data.
Proof.
  induction 1 as [| d data Hd _ IH]; [reflexivity |].
  cbn [map]. rewrite IH, s32_u32_int by exact Hd. reflexivity.
Qed.

Lemma segment_of_app {A} (l1 l2 l3 : list A) :
  firstn (length l2) (skipn (length l1) (l1 ++ l2 ++ l3)) = l2.
Proof.
  rewrite skipn_app, skipn_all, Nat.sub_diag. cbn [skipn app].
  rewrite firstn_app, firstn_all, Nat.sub_diag. cbn [firstn].
  apply app_nil_r.
Qed.

Lemma read_back (mem : Z -> Z) off image (j k : nat) :
  map mem (addrs (Z.to_nat WORDS_TOT) off) = map u32 image ->
  Forall int_range image ->
  (j + k <= Z.to_nat WORDS_TOT)%nat ->
  map (fun a => s32 (mem a)) (addrs k (off + ADDR_STEP * Z.of_nat j))
  = firstn k (skipn j image).
Proof.
  intros Hmem Hint Hjk.
  replace (Z.to_nat WORDS_TOT) with (j + (k + (Z.to_nat WORDS_TOT - j - k)))%nat
    in Hmem by lia.
  rewrite !addrs_app, !map_app in Hmem.
  apply (f_equal (fun l => firstn k (skipn j l))) in Hmem.
  set (A1 := map mem (addrs j off)) in Hmem.
  set (A2 := map mem (addrs k (off + ADDR_STEP * Z.of_nat j))) in Hmem.
  assert (H1 : length A1 = j) by (unfold A1; rewrite length_map; apply length_addrs).
  assert (H2 : length A2 = k) by (unfold A2; rewrite length_map; apply length_addrs).
  rewrite <- H1 in Hmem at 1. rewrite <- H2 in Hmem at 1.
  rewrite segment_of_app in Hmem.
  rewrite <- (map_s32_u32 image Hint).
  rewrite skipn_map, firstn_map, <- Hmem.
  unfold A2. rewrite map_map. reflexivity.
Qed.

Lemma operand_image_layout data length :
  supported_width length ->
  List.length data = Z.to_nat (length / 32) ->
  operand_image data length = Some (slot_layout data length) /\
  List.length (slot_layout data length) = Z.to_nat WORDS_TOT.
Proof.
  intros [-> | [-> | ->]] Hlen.
  - change (Z.to_nat (BITS_LOW / 32)) with 16%nat in Hlen.
    do 16 (destruct data as [| ? data]; [discriminate Hlen |]).
    destruct data; [| discriminate Hlen]. split; reflexivity.
  - change (Z.to_nat (BITS_HIGH / 32)) with 32%nat in Hlen.
    do 32 (destruct data as [| ? data]; [discriminate Hlen |]).
    destruct data; [| discriminate Hlen]. split; reflexivity.
  - change (Z.to_nat (BITS_TOT / 32)) with 48%nat in Hlen.
    split; [reflexivity | exact Hlen].
Qed.

Lemma slot_layout_int data length :
  Forall int_range data -> Forall int_range (slot_layout data length).
Proof.
  intros H. unfold slot_layout.
  assert (Hz : forall k, Forall int_range (repeat 0 k)).
  { intros k. apply Forall_forall. intros x Hx. apply repeat_spec in Hx.
    subst x. unfold int_range. lia. }
  destruct (length =? BITS_LOW); [apply Forall_app; split; [exact H | apply Hz] |].
  destruct (length =? BITS_HIGH); [apply Forall_app; split; [apply Hz | exact H] |].
  exact H.
Qed.

Lemma SetOperand_runs data operand length s :
  known_slot operand ->
  supported_width length ->
  List.length data = Z.to_nat (length / 32) ->
  exists off evs s',
    operand_offset operand = Some off /\
    runs (MME1536_SetOperand data operand length) s 0 evs s' /\
    data_writes evs
    = combine (addrs (Z.to_nat WORDS_TOT) off) (map u32 (slot_layout data length)) /\
    ctrl_writes evs = [] /\
    map (data_mem s') (addrs (Z.to_nat WORDS_TOT) off)
    = map u32 (slot_layout data length) /\
    ctrl_reg s' = ctrl_reg s /\ dev s' = dev s.
Proof.
  intros Hop Hw Hlen.
  destruct (operand_offset_known operand Hop) as (off & Hoff).
  destruct (operand_image_layout data length Hw Hlen) as (Himg & Hl).
  destruct (SetData_runs (slot_layout data length) off s Hl)
    as (evs & s' & (Hrun & Htr) & Hrest).
  exists off, evs, s'. split; [exact Hoff |].
  split; [| exact Hrest].
  unfold runs, MME1536_SetOperand. rewrite Hoff, Himg.
  unfold bind. rewrite Hrun. split; [reflexivity | exact Htr].
Qed.

Lemma read_offset_operand_offset operand :
  working_slot operand -> read_offset operand = operand_offset operand.
Proof.
  unfold working_slot, OPERAND_0, OPERAND_3. intros H.
  assert (Hc : operand = 0 \/ operand = 1 \/ operand = 2 \/ operand = 3) by lia.
  destruct Hc as [-> | [-> | [-> | ->]]]; reflexivity.
Qed.

Lemma working_slot_known operand : working_slot operand -> known_slot operand.
Proof. unfold working_slot, known_slot, OPERAND_0, OPERAND_3, MODULUS. lia. Qed.

(** What MME1536_GetOperand reads for a width: how many words, and from
    which word of the slot on. *)
Lemma GetOperand_runs buf operand length off s :
  read_offset operand = Some off ->
  supported_width length ->
  let j := if length =? BITS_HIGH then 16%nat else 0%nat in
  let k := Z.to_nat (length / 32) in
  exists got evs s',
    runs (MME1536_GetOperand buf operand length) s
      (0, got ++ skipn (List.length got) buf) evs s' /\
    got = map (fun a => s32 (data_mem s a)) (addrs k (off + ADDR_STEP * Z.of_nat j)).
Proof.
  intros Hoff Hw j k. unfold MME1536_GetOperand. rewrite Hoff.
  assert (Hgen : forall o words,
    exists got evs s',
      runs (b <- MME1536_GetData buf o operand words ;; ret (0, b)) s
        (0, got ++ skipn (List.length got) buf) evs s' /\
      got = map (fun a => s32 (data_mem s a)) (addrs (Z.to_nat words) o)).
  { intros o words.
    destruct (GetData_runs buf o operand words s)
      as (got & s' & (Hrun & Htr) & Hgot & _).
    exists got. eexists. exists s'.
    split; [split; [| exact Htr] | exact Hgot].
    unfold bind. rewrite Hrun. reflexivity. }
  subst j k.
  destruct Hw as [-> | [-> | ->]].
  - cbn [Z.eqb BITS_LOW BITS_HIGH Pos.eqb].
    replace (off + ADDR_STEP * Z.of_nat 0) with off by (unfold ADDR_STEP; lia).
    apply Hgen.
  - cbn [Z.eqb BITS_LOW BITS_HIGH Pos.eqb].
    replace (off + ADDR_STEP * Z.of_nat 16) with (off + HIGH_OFFSET) by reflexivity.
    apply Hgen.
  - change (BITS_TOT =? BITS_LOW) with false. change (BITS_TOT =? BITS_HIGH) with false.
    change (BITS_TOT =? BITS_TOT) with true. cbn iota.
    replace (off + ADDR_STEP * Z.of_nat 0) with off by (unfold ADDR_STEP; lia).
    apply Hgen.
Qed.

(** C2: for a working slot, a supported width and a buffer [data] of
    width/32 [int]s, MME1536_SetOperand followed by MME1536_GetOperand with
    the same slot and width puts [data] back in the caller's buffer; and
    reading the whole slot after the set gives [data] in its place (the low
    16 words for 512 bits, the high 32 words for 1024 bits) and zero in
    every other word. *)
Theorem operand_round_trip
  (data buf whole : list Z) (operand length : Z) (s : State) :
  working_slot operand ->
  supported_width length ->
  List.length data = Z.to_nat (length / 32) ->
  Forall int_range data ->
  exists evs1 s1,
    runs (MME1536_SetOperand data operand length) s 0 evs1 s1 /\
    (exists evs2 s2,
       runs (MME1536_GetOperand buf operand length) s1
         (0, data ++ skipn (List.length data) buf) evs2 s2) /\
    (exists evs3 s3,
       runs (MME1536_GetOperand whole operand BITS_TOT) s1
         (0, slot_layout data length ++ skipn (Z.to_nat WORDS_TOT) whole) evs3 s3) /\
    (length = BITS_LOW -> slot_layout data length = data ++ repeat 0 32) /\
    (length = BITS_HIGH -> slot_layout data length = repeat 0 16 ++ data).
Proof.
  intros Hop Hw Hlen Hint.
  destruct (SetOperand_runs data operand length s (working_slot_known _ Hop) Hw Hlen)
    as (off & evs1 & s1 & Hoff & Hrun1 & _ & _ & Hmem & _ & _).
  rewrite <- (read_offset_operand_offset operand Hop) in Hoff.
  destruct (operand_image_layout data length Hw Hlen) as (_ & Hl).
  pose proof (slot_layout_int data length Hint) as Hli.
  exists evs1, s1. split; [exact Hrun1 |].
  split; [| split; [| split]].
  - destruct (GetOperand_runs buf operand length off s1 Hoff Hw)
      as (got & evs2 & s2 & Hrun2 & Hgot).
    rewrite (read_back (data_mem s1) off (slot_layout data length) _ _ Hmem Hli)
      in Hgot.
    + assert (Hd : got = data).
      { rewrite Hgot. clear Hgot Hrun2. unfold slot_layout.
        destruct Hw as [-> | [-> | ->]].
        - cbn [Z.eqb BITS_LOW BITS_HIGH Pos.eqb skipn].
          change (Z.to_nat (512 / 32)) with 16%nat in *.
          rewrite <- Hlen. rewrite firstn_app, firstn_all, Nat.sub_diag.
          cbn [firstn]. apply app_nil_r.
        - cbn [Z.eqb BITS_LOW BITS_HIGH Pos.eqb].
          change (Z.to_nat (1024 / 32)) with 32%nat in *.
          change 16%nat with (List.length (repeat 0 16)) at 1.
          rewrite skipn_app, skipn_all, Nat.sub_diag. cbn [skipn app].
          rewrite <- Hlen. apply firstn_all.
        - change (BITS_TOT =? BITS_LOW) with false.
          change (BITS_TOT =? BITS_HIGH) with false. cbn iota. cbn [skipn].
          rewrite <- Hlen. apply firstn_all. }
      clear Hgot. subst got. exists evs2, s2. exact Hrun2.
    + destruct Hw as [-> | [-> | ->]]; vm_compute; lia.
  - destruct (GetOperand_runs whole operand BITS_TOT off s1 Hoff)
      as (got & evs3 & s3 & Hrun3 & Hgot); [right; right; reflexivity |].
    change (BITS_TOT =? BITS_HIGH) with false in Hgot. cbn iota in Hgot.
    change (Z.to_nat (BITS_TOT / 32)) with (Z.to_nat WORDS_TOT) in Hgot.
    rewrite (read_back (data_mem s1) off (slot_layout data length) _ _ Hmem Hli)
      in Hgot by (vm_compute; lia).
    cbn [skipn] in Hgot. rewrite <- Hl, firstn_all in Hgot.
    subst got. rewrite Hl in Hrun3. exists evs3, s3. exact Hrun3.
  - intros ->. reflexivity.
  - intros ->. reflexivity.
Qed.

Lemma operand_round_trip_witness :
  exists evs1 s1,
    runs (MME1536_SetOperand (map (fun i => Z.of_nat i - 9) (seq 0 32)) 2 1024)
      (example_state [] []) 0 evs1 s1 /\
    (exists evs2 s2,
       runs (MME1536_GetOperand (repeat 5 32) 2 1024) s1
         (0, map (fun i => Z.of_nat i - 9) (seq 0 32)
               ++ skipn (List.length (map (fun i => Z.of_nat i - 9) (seq 0 32)))
                    (repeat 5 32)) evs2 s2) /\
    (exists evs3 s3,
       runs (MME1536_GetOperand (repeat 5 48) 2 BITS_TOT) s1
         (0, slot_layout (map (fun i => Z.of_nat i - 9) (seq 0 32)) 1024
               ++ skipn (Z.to_nat WORDS_TOT) (repeat 5 48)) evs3 s3) /\
    (1024 = BITS_LOW ->
     slot_layout (map (fun i => Z.of_nat i - 9) (seq 0 32)) 1024
     = map (fun i => Z.of_nat i - 9) (seq 0 32) ++ repeat 0 32) /\
    (1024 = BITS_HIGH ->
     slot_layout (map (fun i => Z.of_nat i - 9) (seq 0 32)) 1024
     = repeat 0 16 ++ map (fun i => Z.of_nat i - 9) (seq 0 32)).
Proof.
  apply operand_round_trip.
  - unfold working_slot, OPERAND_0, OPERAND_3. lia.
  - right. left. reflexivity.
  - reflexivity.
  - apply Forall_forall. intros x Hx. apply in_map_iff in Hx.
    destruct Hx as (i & <- & Hi). apply in_seq in Hi. unfold int_range. lia.
Defined.
(** ** The interrupt wait *)

Lemma buffer_after_last_delivered answers : forall ints_passed,
  buffer_after ints_passed answers
  = match last_delivered answers with Some c => c | None => ints_passed end.
Proof.
  unfold buffer_after.
  induction answers as [| r rest IH]; intros ip; [reflexivity |].
  cbn [fold_left last_delivered]. rewrite IH.
  destruct (last_delivered rest); [reflexivity |].
  destruct r; reflexivity.
Qed.

Lemma last_delivered_in answers c :
  last_delivered answers = Some c -> In (Some c) answers.
Proof.
  induction answers as [| r rest IH]; cbn [last_delivered]; [discriminate |].
  destruct (last_delivered rest) as [c' |].
  - intros H. right. apply IH. exact H.
  - intros ->. left. reflexivity.
Qed.

(** The loop: if it is left after [k] turns, then [ints_passed] is what
    the [k] reads left in it, and either there was no turn at all and
    [ints_passed] was above [prev] from the start, or the last turn saw the
    deadline reached or a count above [prev]. *)
Lemma wait_loop_exit fuel : forall ints_passed prev timeout s r s',
  wait_loop fuel ints_passed prev timeout s = Some (r, s') ->
  exists k : nat,
    (k <= length (uio_in s))%nat /\ (k <= length (clock s))%nat /\
    r = buffer_after ints_passed (firstn k (uio_in s)) /\
    uio_in s' = skipn k (uio_in s) /\ clock s' = skipn k (clock s) /\
    dev s' = dev s /\ ctrl_reg s' = ctrl_reg s /\ data_mem s' = data_mem s /\
    ((k = 0%nat /\ prev < ints_passed /\ trace s' = trace s) \/
     (exists k', k = S k' /\ ints_passed <= prev /\
        buffer_after ints_passed (firstn k' (uio_in s)) <= prev /\
        ((timeout <= usec_at (clock s) k' /\
          trace s' = trace s ++ concat (repeat turn_events k)
                       ++ [EvPrintf timeout_message]) \/
         (usec_at (clock s) k' < timeout /\ prev < r /\
          trace s' = trace s ++ concat (repeat turn_events k))))).
Proof.
  induction fuel as [| fuel IH]; intros ip prev timeout s r s' H.
  - cbn [wait_loop] in H.
    destruct (Z.leb_spec ip prev) as [Hle | Hgt]; [discriminate H |].
    injection H as <- <-. exists 0%nat.
    repeat (split; [first [reflexivity | apply Nat.le_0_l] |]).
    left. repeat split. exact Hgt.
  - cbn [wait_loop] in H.
    destruct (Z.leb_spec ip prev) as [Hle | Hgt].
    + unfold bind at 1 in H. unfold uio_read at 1 in H.
      destruct (uio_in s) as [| a answers] eqn:Ea; [discriminate H |].
      unfold bind at 1 in H. unfold gettimeofday at 1 in H.
      cbn [clock] in H.
      destruct (clock s) as [| t times] eqn:Ec; [discriminate H |].
      set (ip' := match a with Some c => c | None => ip end) in *.
      unfold log, with_trace in H.
      cbn [dev ctrl_reg data_mem trace uio_in clock fds maps] in H.
      destruct (Z.geb_spec (s32 (tv_usec t)) timeout) as [Hto | Hnto].
      * unfold bind, printf, ret, log, with_trace in H.
        cbn [dev ctrl_reg data_mem trace uio_in clock fds maps] in H.
        injection H as <- <-. exists 1%nat.
        cbn [length firstn skipn dev ctrl_reg data_mem trace uio_in clock].
        split; [lia |]. split; [lia |].
        repeat (split; [reflexivity |]).
        right. exists 0%nat. split; [reflexivity |]. split; [exact Hle |].
        split; [exact Hle |]. left. split; [unfold usec_at; cbn [nth]; lia |].
        cbn [repeat concat turn_events app]. rewrite <- !app_assoc. reflexivity.
      * apply IH in H.
        cbn [dev ctrl_reg data_mem trace uio_in clock fds maps] in H.
        destruct H as (k & Hk1 & Hk2 & Hr & Hu & Hcl & Hd & Hc & Hm & Hexit).
        exists (S k). cbn [length firstn skipn].
        split; [lia |]. split; [lia |].
        split; [exact Hr |]. split; [exact Hu |]. split; [exact Hcl |].
        split; [exact Hd |]. split; [exact Hc |]. split; [exact Hm |].
        right. exists k. split; [reflexivity |]. split; [exact Hle |].
        destruct Hexit as [(-> & Hgt & Htr) | (k' & -> & _ & Hbuf & Hlast)].
        -- split; [exact Hle |].
           right. split; [unfold usec_at; cbn [nth]; lia |].
           split; [rewrite Hr; cbn [firstn]; unfold buffer_after; cbn [fold_left];
                   exact Hgt |].
           rewrite Htr. cbn [repeat concat turn_events app].
           rewrite <- !app_assoc. reflexivity.
        -- split; [exact Hbuf |].
           destruct Hlast as [(Hto & Htr) | (Hnt & Hgt & Htr)].
           ++ left. split; [exact Hto |].
              rewrite Htr. cbn [repeat concat turn_events app].
              rewrite <- !app_assoc. reflexivity.
           ++ right. split; [exact Hnt |]. split; [exact Hgt |].
              rewrite Htr. cbn [repeat concat turn_events app].
              rewrite <- !app_assoc. reflexivity.
    + injection H as <- <-. exists 0%nat.
      repeat (split; [first [reflexivity | apply Nat.le_0_l] |]).
      left. repeat split. exact Hgt.
Qed.

(** One call of MME1536_WaitUntilReady that returns: the time [t0] at the
    call, the number [k] of turns of the loop, and what the call leaves. *)
Lemma WaitUntilReady_run s s' :
  MME1536_WaitUntilReady s = Some (tt, s') ->
  exists (t0 : timeval) (times : list timeval) (k : nat) (loop_evs : list Event),
    clock s = t0 :: times /\
    (k <= length (uio_in s))%nat /\ (k <= length times)%nat /\
    uio_in s' = skipn k (uio_in s) /\ clock s' = skipn k times /\
    ctrl_reg s' = ctrl_reg s /\ data_mem s' = data_mem s /\
    dev s' = set_prev_tot_ints (buffer_after (-1) (firstn k (uio_in s))) (dev s) /\
    trace s' = trace s ++ [EvGetTime] ++ loop_evs ++ [EvUioWrite 1] /\
    ((k = 0%nat /\ Dev.prev_tot_ints (dev s) < -1 /\ loop_evs = []) \/
     (exists k', k = S k' /\ -1 <= Dev.prev_tot_ints (dev s) /\
        buffer_after (-1) (firstn k' (uio_in s)) <= Dev.prev_tot_ints (dev s) /\
        ((deadline t0 <= usec_at times k' /\
          loop_evs = concat (repeat turn_events k) ++ [EvPrintf timeout_message]) \/
         (usec_at times k' < deadline t0 /\
          Dev.prev_tot_ints (dev s) < buffer_after (-1) (firstn k (uio_in s)) /\
          loop_evs = concat (repeat turn_events k))))).
Proof.
  unfold MME1536_WaitUntilReady. intros H.
  unfold bind at 1 in H. unfold gettimeofday at 1 in H.
  destruct (clock s) as [| t0 times] eqn:Ec; [discriminate H |].
  unfold bind at 1 in H. unfold get_dev at 1 in H.
  unfold log, with_trace in H.
  cbn [dev ctrl_reg data_mem trace uio_in clock fds maps] in H.
  unfold bind at 1 in H.
  match type of H with
  | match wait_loop ?f ?i ?p ?t ?st with _ => _ end = _ =>
      destruct (wait_loop f i p t st) as [[r s1] |] eqn:El; [| discriminate H]
  end.
  apply wait_loop_exit in El.
  cbn [dev ctrl_reg data_mem trace uio_in clock fds maps] in El.
  destruct El as (k & Hk1 & Hk2 & Hr & Hu & Hcl & Hd & Hc & Hm & Hexit).
  unfold bind, modify_dev, bind, get_dev, set_dev, uio_write, log, with_trace,
    with_dev in H.
  cbn [dev ctrl_reg data_mem trace uio_in clock fds maps] in H.
  injection H as <-.
  cbn [dev ctrl_reg data_mem trace uio_in clock fds maps].
  assert (Htrace : forall evs,
    trace s1 = (trace s ++ [EvGetTime]) ++ evs ->
    trace s1 ++ [EvUioWrite 1] = trace s ++ [EvGetTime] ++ evs ++ [EvUioWrite 1]).
  { intros evs ->. rewrite <- !app_assoc. reflexivity. }
  destruct Hexit as [(-> & Hgt & Htr) | (k' & -> & Hin & Hbuf & Hlast)].
  - exists t0, times, 0%nat, [].
    split; [reflexivity |]. split; [exact Hk1 |]. split; [exact Hk2 |].
    split; [exact Hu |]. split; [exact Hcl |]. split; [exact Hc |].
    split; [exact Hm |]. split; [rewrite Hd, Hr; reflexivity |].
    split; [apply Htrace; rewrite Htr, app_nil_r; reflexivity |].
    left. repeat split. exact Hgt.
  - destruct Hlast as [(Hto & Htr) | (Hnt & Hgt & Htr)].
    + exists t0, times, (S k'),
        (concat (repeat turn_events (S k')) ++ [EvPrintf timeout_message]).
      split; [reflexivity |]. split; [exact Hk1 |]. split; [exact Hk2 |].
      split; [exact Hu |]. split; [exact Hcl |]. split; [exact Hc |].
      split; [exact Hm |]. split; [rewrite Hd, Hr; reflexivity |].
      split; [apply Htrace; exact Htr |].
      right. exists k'. split; [reflexivity |]. split; [exact Hin |].
      split; [exact Hbuf |].
      left. split; [exact Hto | reflexivity].
    + exists t0, times, (S k'), (concat (repeat turn_events (S k'))).
      split; [reflexivity |]. split; [exact Hk1 |]. split; [exact Hk2 |].
      split; [exact Hu |]. split; [exact Hcl |]. split; [exact Hc |].
      split; [exact Hm |]. split; [rewrite Hd, Hr; reflexivity |].
      split; [apply Htrace; exact Htr |].
      right. exists k'. split; [reflexivity |]. split; [exact Hin |].
      split; [exact Hbuf |].
      right. split; [exact Hnt |]. split; [rewrite <- Hr; exact Hgt | reflexivity].
Qed.

(** The loop is left as soon as a turn sees the deadline reached or a count
    above [prev]: with answers enough to get to such a turn, the call
    returns. *)
Lemma wait_loop_returns k : forall fuel ints_passed prev timeout s,
  (k < fuel)%nat -> (k < length (uio_in s))%nat -> (k < length (clock s))%nat ->
  timeout <= usec_at (clock s) k \/
  prev < buffer_after ints_passed (firstn (S k) (uio_in s)) ->
  exists r s', wait_loop fuel ints_passed prev timeout s = Some (r, s').
Proof.
  induction k as [| k IH]; intros fuel ip prev timeout s Hf Hu Hc Hexit.
  - destruct fuel as [| fuel]; [lia |]. cbn [wait_loop].
    destruct (Z.leb_spec ip prev) as [Hle | Hgt]; [| eexists; eexists; reflexivity].
    unfold bind at 1. unfold uio_read at 1.
    destruct (uio_in s) as [| a answers] eqn:Ea; [cbn in Hu; lia |].
    unfold bind at 1. unfold gettimeofday at 1. unfold log, with_trace.
    cbn [dev ctrl_reg data_mem trace uio_in clock fds maps].
    destruct (clock s) as [| t times] eqn:Ec; [cbn in Hc; lia |].
    destruct (Z.geb_spec (s32 (tv_usec t)) timeout) as [Hto | Hnto];
      [eexists; eexists; reflexivity |].
    destruct Hexit as [Hexit | Hexit]; [unfold usec_at in Hexit; cbn in Hexit; lia |].
    cbn [firstn] in Hexit. unfold buffer_after in Hexit. cbn [fold_left] in Hexit.
    destruct fuel as [| fuel]; cbn [wait_loop];
      (destruct (Z.leb_spec (match a with Some c => c | None => ip end) prev);
       [lia | eexists; eexists; reflexivity]).
  - destruct fuel as [| fuel]; [lia |]. cbn [wait_loop].
    destruct (Z.leb_spec ip prev) as [Hle | Hgt]; [| eexists; eexists; reflexivity].
    unfold bind at 1. unfold uio_read at 1.
    destruct (uio_in s) as [| a answers] eqn:Ea; [cbn in Hu; lia |].
    unfold bind at 1. unfold gettimeofday at 1. unfold log, with_trace.
    cbn [dev ctrl_reg data_mem trace uio_in clock fds maps].
    destruct (clock s) as [| t times] eqn:Ec; [cbn in Hc; lia |].
    destruct (Z.geb_spec (s32 (tv_usec t)) timeout) as [Hto | Hnto];
      [eexists; eexists; reflexivity |].
    apply IH.
    + lia.
    + cbn [uio_in log with_trace]. cbn in Hu. lia.
    + cbn [clock log with_trace]. cbn in Hc. lia.
    + cbn [uio_in clock log with_trace]. exact Hexit.
Qed.

Lemma WaitUntilReady_returns s t0 times k :
  clock s = t0 :: times ->
  (k < length (uio_in s))%nat -> (k < length times)%nat ->
  deadline t0 <= usec_at times k \/
  Dev.prev_tot_ints (dev s) < buffer_after (-1) (firstn (S k) (uio_in s)) ->
  exists s', MME1536_WaitUntilReady s = Some (tt, s').
Proof.
  intros Ec Hu Hc Hexit. unfold MME1536_WaitUntilReady.
  unfold bind at 1. unfold gettimeofday at 1. rewrite Ec.
  unfold bind at 1. unfold get_dev at 1.
  unfold bind at 1.
  match goal with
  | |- exists _, match wait_loop ?f ?i ?p ?t ?st with _ => _ end = _ =>
      destruct (wait_loop_returns k f i p t st) as (r & s1 & ->)
  end.
  - lia.
  - exact Hu.
  - exact Hc.
  - exact Hexit.
  - eexists. reflexivity.
Qed.

(** The last-observed count never gets below -1 by a wait, as long as the
    descriptor delivers no count below -1. *)
Lemma WaitUntilReady_floor s s' :
  Forall (fun r => forall c, r = Some c -> -1 <= c) (uio_in s) ->
  MME1536_WaitUntilReady s = Some (tt, s') ->
  -1 <= Dev.prev_tot_ints (dev s').
Proof.
  intros Hall H.
  destruct (WaitUntilReady_run s s' H)
    as (t0 & times & k & evs & _ & _ & _ & _ & _ & _ & _ & Hd & _ & _).
  rewrite Hd. cbn [Dev.prev_tot_ints set_prev_tot_ints].
  rewrite buffer_after_last_delivered.
  destruct (last_delivered (firstn k (uio_in s))) as [c |] eqn:El; [| lia].
  apply last_delivered_in in El.
  assert (Hin : In (Some c) (uio_in s)).
  { rewrite <- (firstn_skipn k (uio_in s)). apply in_or_app. left. exact El. }
  rewrite Forall_forall in Hall. apply (Hall _ Hin). reflexivity.
Qed.

(** C5, as amended: a call of MME1536_WaitUntilReady that returns has
    gone through [turns] turns of the loop.  On a device whose
    last-observed count is at least -1 there is at least one turn, and the
    loop is left only in a turn in which the reads of the descriptor had
    delivered a count above the last-observed one, or in which the deadline
    computed at the call was reached ([current_time >= timeout], which on a
    clock that does not go back means that at least TIMEOUT_US microseconds
    have passed since the call); on a device whose last-observed count is
    below -1 the loop is not entered, [ints_passed] being -1 from the
    start.  At every exit [prev_tot_ints] is [ints_passed]: the count most
    recently delivered by a read of the call, and the initial -1 when no
    read of the call delivered any.  Nothing else of the device changes,
    and the last action is the write of 1 on the interrupt descriptor,
    which enables the interrupt again. *)
Theorem WaitUntilReady_exit (s s' : State) :
  MME1536_WaitUntilReady s = Some (tt, s') ->
  exists (t0 : timeval) (times : list timeval) (turns : nat),
    clock s = t0 :: times /\
    (turns <= length (uio_in s))%nat /\ (turns <= length times)%nat /\
    let answers := firstn turns (uio_in s) in
    let prev := Dev.prev_tot_ints (dev s) in
    ((turns = 0%nat /\ prev < -1 /\
      trace s' = trace s ++ [EvGetTime; EvUioWrite 1])
     \/
     (exists k : nat,
        turns = S k /\ -1 <= prev /\
        let tk := nth k times {| tv_sec := 0; tv_usec := 0 |} in
        let timed_out := deadline t0 <=? usec_at times k in
        ((exists c, last_delivered answers = Some c /\ prev < c)
         \/ deadline t0 <= usec_at times k) /\
        (wf_timeval t0 -> wf_timeval tk -> total_usec t0 <= total_usec tk ->
         deadline t0 <= usec_at times k ->
         total_usec t0 + TIMEOUT_US <= total_usec tk) /\
        trace s' = trace s ++ [EvGetTime] ++ concat (repeat turn_events turns)
                     ++ (if timed_out then [EvPrintf timeout_message] else [])
                     ++ [EvUioWrite 1])) /\
    Dev.prev_tot_ints (dev s') = buffer_after (-1) answers /\
    buffer_after (-1) answers
    = match last_delivered answers with Some c => c | None => -1 end /\
    dev s' = set_prev_tot_ints (Dev.prev_tot_ints (dev s')) (dev s) /\
    uio_in s' = skipn turns (uio_in s) /\ clock s' = skipn turns times /\
    ctrl_reg s' = ctrl_reg s /\ data_mem s' = data_mem s.
Proof.
  intros H.
  destruct (WaitUntilReady_run s s' H)
    as (t0 & times & k & evs & Ec & Hk1 & Hk2 & Hu & Hcl & Hc & Hm & Hd & Htr & Hexit).
  exists t0, times, k.
  split; [exact Ec |]. split; [exact Hk1 |]. split; [exact Hk2 |].
  cbv zeta.
  assert (Hpr : Dev.prev_tot_ints (dev s')
                = buffer_after (-1) (firstn k (uio_in s))).
  { rewrite Hd. reflexivity. }
  split; [| split; [exact Hpr | split;
    [apply buffer_after_last_delivered | split; [| split; [exact Hu | split;
    [exact Hcl | split; [exact Hc | exact Hm]]]]]]].
  - destruct Hexit as [(-> & Hlt & ->) | (k' & -> & Hin & Hbuf & Hlast)].
    + left. split; [reflexivity |]. split; [exact Hlt | exact Htr].
    + right. exists k'. split; [reflexivity |]. split; [exact Hin |].
      split; [| split].
      * destruct Hlast as [(Hto & _) | (_ & Hgt & _)]; [right; exact Hto |].
        left. rewrite buffer_after_last_delivered in Hgt.
        destruct (last_delivered (firstn (S k') (uio_in s))) as [c |]; [| lia].
        exists c. split; [reflexivity | exact Hgt].
      * unfold wf_timeval, total_usec, deadline, usec_at, TIMEOUT_US.
        intros H0 Hk Hmono Hto.
        rewrite (s32_small (tv_usec t0)) in Hto by (unfold int_range; lia).
        rewrite (s32_small (tv_usec t0 + 140000)) in Hto by (unfold int_range; lia).
        rewrite s32_small in Hto by (unfold int_range; lia).
        lia.
      * rewrite Htr. f_equal. f_equal.
        destruct Hlast as [(Hto & ->) | (Hnt & _ & ->)].
        -- destruct (Z.leb_spec (deadline t0) (usec_at times k')); [| lia].
           rewrite <- app_assoc. reflexivity.
        -- destruct (Z.leb_spec (deadline t0) (usec_at times k')); [lia |].
           reflexivity.
  - rewrite Hd. reflexivity.
Qed.

Lemma WaitUntilReady_exit_witness :
  exists s' (t0 : timeval) (times : list timeval) (turns : nat),
    MME1536_WaitUntilReady completed_wait = Some (tt, s') /\
    clock completed_wait = t0 :: times /\
    (turns <= 2)%nat /\
    Dev.prev_tot_ints (dev s')
    = match last_delivered (firstn turns [None; Some 6]) with
      | Some c => c
      | None => -1
      end.
Proof.
  destruct (WaitUntilReady_returns completed_wait
              {| tv_sec := 9; tv_usec := 100 |}
              [{| tv_sec := 9; tv_usec := 200 |}; {| tv_sec := 9; tv_usec := 900 |}]
              1%nat eq_refl) as (s' & Hrun).
  - cbn. lia.
  - cbn. lia.
  - right. cbn. lia.
  - destruct (WaitUntilReady_exit completed_wait s' Hrun)
      as (t0 & times & turns & Ec & Hk1 & _ & _ & Hpr & Hlast & _).
    exists s', t0, times, turns.
    split; [exact Hrun |]. split; [exact Ec |]. split; [exact Hk1 |].
    rewrite Hpr. exact Hlast.
Defined.

(** C5, as it is stated, fails: in this call no read of the interrupt
    descriptor delivers anything before the deadline is reached, so there
    is no most recently read value; the call returns all the same and
    stores -1, the initial content of its buffer, as the last-observed
    count, which was 5. *)
Lemma WaitUntilReady_stores_unread_counterexample :
  exists s',
    MME1536_WaitUntilReady timed_out_wait = Some (tt, s') /\
    uio_in timed_out_wait = [None; None] /\ uio_in s' = [] /\
    Dev.prev_tot_ints (dev timed_out_wait) = 5 /\
    Dev.prev_tot_ints (dev s') = -1 /\
    ~ (exists c, In (Some c) (uio_in timed_out_wait) /\
                 Dev.prev_tot_ints (dev s') = c).
Proof.
  eexists. split; [vm_compute; reflexivity |].
  split; [reflexivity |]. split; [reflexivity |].
  split; [reflexivity |]. split; [reflexivity |].
  intros (c & [Hc | [Hc | []]] & _); discriminate Hc.
Qed.

(** C9, as amended: after a call of MME1536_WaitUntilReady in which a read
    delivered a count, the last-observed count is the count delivered
    last, so it has not decreased when the descriptor delivers no count
    below the last-observed one; after a call in which no read delivered a
    count, it is -1 whatever it was before. *)
Theorem prev_tot_ints_after_wait (s s' : State) :
  MME1536_WaitUntilReady s = Some (tt, s') ->
  exists k : nat,
    (k <= length (uio_in s))%nat /\ uio_in s' = skipn k (uio_in s) /\
    let answers := firstn k (uio_in s) in
    let prev := Dev.prev_tot_ints (dev s) in
    (forall c, last_delivered answers = Some c -> Dev.prev_tot_ints (dev s') = c) /\
    (last_delivered answers <> None ->
     Forall (fun r => forall c, r = Some c -> prev <= c) answers ->
     prev <= Dev.prev_tot_ints (dev s')) /\
    (last_delivered answers = None -> Dev.prev_tot_ints (dev s') = -1).
Proof.
  intros H.
  destruct (WaitUntilReady_run s s' H)
    as (t0 & times & k & evs & _ & Hk1 & _ & Hu & _ & _ & _ & Hd & _ & _).
  exists k. split; [exact Hk1 |]. split; [exact Hu |]. cbv zeta.
  assert (Hpr : Dev.prev_tot_ints (dev s')
                = match last_delivered (firstn k (uio_in s)) with
                  | Some c => c | None => -1 end).
  { rewrite Hd. rewrite buffer_after_last_delivered. reflexivity. }
  split; [| split].
  - intros c Hc. rewrite Hpr, Hc. reflexivity.
  - intros Hsome Hall. rewrite Hpr.
    destruct (last_delivered (firstn k (uio_in s))) as [c |] eqn:El;
      [| contradiction].
    apply last_delivered_in in El.
    rewrite Forall_forall in Hall. apply (Hall _ El). reflexivity.
  - intros Hnone. rewrite Hpr, Hnone. reflexivity.
Qed.

Lemma prev_tot_ints_after_wait_witness :
  exists s' (k : nat),
    MME1536_WaitUntilReady completed_wait = Some (tt, s') /\
    (k <= 2)%nat /\
    (forall c, last_delivered (firstn k [None; Some 6]) = Some c ->
               Dev.prev_tot_ints (dev s') = c).
Proof.
  destruct (WaitUntilReady_returns completed_wait
              {| tv_sec := 9; tv_usec := 100 |}
              [{| tv_sec := 9; tv_usec := 200 |}; {| tv_sec := 9; tv_usec := 900 |}]
              1%nat eq_refl) as (s' & Hrun).
  - cbn. lia.
  - cbn. lia.
  - right. cbn. lia.
  - destruct (prev_tot_ints_after_wait completed_wait s' Hrun)
      as (k & Hk & _ & Hc & _).
    exists s', k. split; [exact Hrun |]. split; [exact Hk | exact Hc].
Defined.

(** C9, as it is stated, fails: on a device whose last-observed count is
    5, a call whose reads deliver no count until the deadline is reached
    returns with the last-observed count -1. *)
Lemma prev_tot_ints_decreases_counterexample :
  exists s',
    MME1536_WaitUntilReady timed_out_wait = Some (tt, s') /\
    Dev.prev_tot_ints (dev timed_out_wait) = 5 /\
    Dev.prev_tot_ints (dev s') = -1 /\
    ~ Dev.prev_tot_ints (dev timed_out_wait) <= Dev.prev_tot_ints (dev s').
Proof.
  eexists. split; [vm_compute; reflexivity |].
  split; [reflexivity |]. split; [reflexivity |].
  cbn. lia.
Qed.
(** ** The operations count their waits *)

Lemma waits_app evs1 evs2 : waits (evs1 ++ evs2) = (waits evs1 + waits evs2)%nat.
Proof.
  induction evs1 as [| e evs1 IH]; [reflexivity |].
  destruct e; cbn [app waits]; rewrite IH; reflexivity.
Qed.

Lemma waits_ret {A} (a : A) : waits_exactly (ret a) 0.
Proof.
  intros s a' s' H. injection H as _ <-. exists []. split; [| reflexivity].
  symmetry. apply app_nil_r.
Qed.

Lemma waits_bind {A B} (c : M A) (f : A -> M B) k1 k2 k :
  waits_exactly c k1 -> (forall a, waits_exactly (f a) k2) ->
  (k1 + k2)%nat = k ->
  waits_exactly (bind c f) k.
Proof.
  intros Hc Hf <- s b s' H. unfold bind in H.
  destruct (c s) as [[a s1] |] eqn:E; [| discriminate H].
  destruct (Hc s a s1 E) as (evs1 & Ht1 & Hw1).
  destruct (Hf a s1 b s' H) as (evs2 & Ht2 & Hw2).
  exists (evs1 ++ evs2). split.
  - rewrite Ht2, Ht1. symmetry. apply app_assoc.
  - rewrite waits_app, Hw1, Hw2. reflexivity.
Qed.

Lemma waits_silent {A} (c : M A) :
  (forall s a s', c s = Some (a, s') -> trace s' = trace s) ->
  waits_exactly c 0.
Proof.
  intros Hc s a s' H. exists []. split; [| reflexivity].
  rewrite (Hc s a s' H). symmetry. apply app_nil_r.
Qed.

Lemma waits_one_event {A} (c : M A) (e : Event) :
  (forall s a s', c s = Some (a, s') -> trace s' = trace s ++ [e]) ->
  waits_exactly c (waits [e]).
Proof.
  intros Hc s a s' H. exists [e]. split; [exact (Hc s a s' H) | reflexivity].
Qed.

Lemma waits_get_dev : waits_exactly get_dev 0.
Proof. apply waits_silent. intros s a s' H. injection H as _ <-. reflexivity. Qed.

Lemma waits_set_dev d : waits_exactly (set_dev d) 0.
Proof. apply waits_silent. intros s a s' H. injection H as _ <-. reflexivity. Qed.

Lemma waits_ctrl_load off : waits_exactly (ctrl_load off) 0.
Proof.
  apply (waits_one_event _ (EvCtrlRead off)).
  intros s a s' H. injection H as _ <-. reflexivity.
Qed.

Lemma waits_ctrl_store off v : waits_exactly (ctrl_store off v) 0.
Proof.
  apply (waits_one_event _ (EvCtrlWrite off (u32 v))).
  intros s a s' H. injection H as _ <-. reflexivity.
Qed.

Lemma waits_data_load off : waits_exactly (data_load off) 0.
Proof.
  apply (waits_one_event _ (EvDataRead off)).
  intros s a s' H. injection H as _ <-. reflexivity.
Qed.

Lemma waits_data_store off v : waits_exactly (data_store off v) 0.
Proof.
  apply (waits_one_event _ (EvDataWrite off (u32 v))).
  intros s a s' H. injection H as _ <-. reflexivity.
Qed.

Lemma waits_usleep us : waits_exactly (usleep us) 0.
Proof.
  apply (waits_one_event _ (EvUsleep us)).
  intros s a s' H. injection H as _ <-. reflexivity.
Qed.

Lemma waits_printf msg : waits_exactly (printf msg) 0.
Proof.
  apply (waits_one_event _ (EvPrintf msg)).
  intros s a s' H. injection H as _ <-. reflexivity.
Qed.

Lemma waits_uio_write v : waits_exactly (uio_write v) 1.
Proof.
  apply (waits_one_event _ (EvUioWrite v)).
  intros s a s' H. injection H as _ <-. reflexivity.
Qed.

Lemma waits_uio_read buf : waits_exactly (uio_read buf) 0.
Proof.
  apply (waits_one_event _ EvUioRead).
  intros s a s' H. unfold uio_read in H.
  destruct (uio_in s); [discriminate H |]. injection H as _ <-. reflexivity.
Qed.

Lemma waits_gettimeofday : waits_exactly gettimeofday 0.
Proof.
  apply (waits_one_event _ EvGetTime).
  intros s a s' H. unfold gettimeofday in H.
  destruct (clock s); [discriminate H |]. injection H as _ <-. reflexivity.
Qed.

Create HintDb waits discriminated.
#[local] Hint Resolve waits_get_dev waits_set_dev waits_ctrl_load waits_ctrl_store
  waits_data_load waits_data_store waits_usleep waits_printf waits_uio_write
  waits_uio_read waits_gettimeofday : waits.
#[local] Hint Extern 0 (waits_exactly (ret _) _) => apply waits_ret : waits.

(** Goes through a sequence of calls, adding up their waits. *)
Ltac count_waits :=
  lazymatch goal with
  | |- waits_exactly (bind _ _) _ =>
      eapply waits_bind; [count_waits | intros ?; count_waits | reflexivity]
  | |- waits_exactly (if ?b then _ else _) _ => destruct b; count_waits
  | |- waits_exactly (match ?x with Some _ => _ | None => _ end) _ =>
      destruct x; count_waits
  | |- waits_exactly (let _ := _ in _) _ => cbv zeta; count_waits
  | |- _ => solve [auto with waits]
  end.

Lemma waits_modify_dev f : waits_exactly (modify_dev f) 0.
Proof. unfold modify_dev. count_waits. Qed.
#[local] Hint Resolve waits_modify_dev : waits.

Lemma waits_SetData_loop k : forall data word off,
  waits_exactly (SetData_loop k data word off) 0.
Proof.
  induction k as [| k IH]; intros data word off; cbn [SetData_loop].
  - count_waits.
  - eapply waits_bind; [count_waits | intros ?; apply IH | reflexivity].
Qed.

Lemma waits_GetData_loop k : forall off, waits_exactly (GetData_loop k off) 0.
Proof.
  induction k as [| k IH]; intros off; cbn [GetData_loop].
  - count_waits.
  - eapply waits_bind; [count_waits | intros ? | reflexivity].
    eapply waits_bind; [apply IH | intros ?; count_waits | reflexivity].
Qed.

Lemma waits_SetExponent_loop k e0 e1 : waits_exactly (SetExponent_loop k e0 e1) 0.
Proof.
  induction k as [| k IH]; cbn [SetExponent_loop].
  - count_waits.
  - eapply waits_bind; [count_waits | intros ? | reflexivity].
    eapply waits_bind; [count_waits | intros ?; apply IH | reflexivity].
Qed.

Lemma waits_wait_loop fuel : forall ints_passed prev timeout,
  waits_exactly (wait_loop fuel ints_passed prev timeout) 0.
Proof.
  induction fuel as [| fuel IH]; intros ip prev timeout; cbn [wait_loop].
  - destruct (ip <=? prev); [intros s a s' H; discriminate H | count_waits].
  - destruct (ip <=? prev); [| count_waits].
    eapply waits_bind; [count_waits | intros ? | reflexivity].
    eapply waits_bind; [count_waits | intros ? | reflexivity].
    cbv zeta. destruct (_ >=? _); [count_waits | apply IH].
Qed.

#[local] Hint Resolve waits_SetData_loop waits_GetData_loop waits_SetExponent_loop
  waits_wait_loop : waits.

(** One call of MME1536_WaitUntilReady is one wait. *)
Lemma waits_WaitUntilReady : waits_exactly MME1536_WaitUntilReady 1.
Proof.
  intros s a s' H.
  assert (Hb : forall fuel, waits_exactly
    (time <- gettimeofday ;;
     d <- get_dev ;;
     ints_passed <- wait_loop fuel (-1) (Dev.prev_tot_ints d)
                      (s32 (s32 (tv_usec time) + TIMEOUT_US)) ;;
     modify_dev (set_prev_tot_ints ints_passed) ;;
     uio_write 1) 1) by (intros fuel; count_waits).
  exact (Hb (length (uio_in s)) s a s' H).
Qed.

Lemma waits_SetData data off words : waits_exactly (MME1536_SetData data off words) 0.
Proof. unfold MME1536_SetData. count_waits. Qed.

Lemma waits_GetData buffer off operand words :
  waits_exactly (MME1536_GetData buffer off operand words) 0.
Proof. unfold MME1536_GetData. count_waits. Qed.

#[local] Hint Resolve waits_WaitUntilReady waits_SetData waits_GetData : waits.

Lemma waits_SetOperand_m data operand :
  waits_exactly (MME1536_SetOperand_m data operand) 0.
Proof.
  unfold MME1536_SetOperand_m.
  destruct (operand_offset operand); [| count_waits].
  eapply waits_bind; [count_waits | intros d | reflexivity].
  destruct (operand_image data (Dev.n d)); count_waits.
Qed.

Lemma waits_GetOperand_m buf operand :
  waits_exactly (MME1536_GetOperand_m buf operand) 0.
Proof.
  unfold MME1536_GetOperand_m. destruct (read_offset operand); count_waits.
Qed.

Lemma waits_StartSingle_m destination x_op y_op :
  waits_exactly (MME1536_StartSingle_m destination x_op y_op) 0.
Proof. unfold MME1536_StartSingle_m. count_waits. Qed.

Lemma waits_StartAuto_m : waits_exactly MME1536_StartAuto_m 0.
Proof. unfold MME1536_StartAuto_m. count_waits. Qed.

Lemma waits_SetExponent e0 e1 t : waits_exactly (MME1536_SetExponent e0 e1 t) 0.
Proof. unfold MME1536_SetExponent. destruct (negb _); count_waits. Qed.

#[local] Hint Resolve waits_SetOperand_m waits_GetOperand_m waits_StartSingle_m
  waits_StartAuto_m waits_SetExponent : waits.

(** The two other operations of the family, for comparison: two waits for
    a multiplication, six for the double exponentiation. *)
Lemma Multiply_m_waits result x y :
  waits_exactly (MME1536_Multiply_m result x y) 2.
Proof. unfold MME1536_Multiply_m. count_waits. Qed.

Lemma MME_m_waits result g0 g1 e0 e1 t :
  waits_exactly (MME1536_MME_m result g0 g1 e0 e1 t) 6.
Proof. unfold MME1536_MME_m. count_waits. Qed.
(** ** The steps of the operations *)

Lemma bind_Some {A B} (c : M A) (f : A -> M B) s b s' :
  bind c f s = Some (b, s') ->
  exists a s1, c s = Some (a, s1) /\ f a s1 = Some (b, s').
Proof.
  unfold bind. destruct (c s) as [[a s1] |]; [| discriminate].
  intros H. exists a, s1. split; [reflexivity | exact H].
Qed.

Lemma actions_app evs1 evs2 : actions (evs1 ++ evs2) = actions evs1 ++ actions evs2.
Proof. apply filter_app. Qed.

Lemma actions_turns (k : nat) :
  actions (concat (repeat turn_events k)) = concat (repeat turn_events k).
Proof.
  induction k as [| k IH]; [reflexivity |].
  cbn [repeat concat]. rewrite actions_app, IH. reflexivity.
Qed.

(** *** Calls that do events of one kind only *)

Lemma does_only_ret {A} P (a : A) : does_only P (ret a).
Proof.
  intros s a' s' H. injection H as _ <-. split; [reflexivity |].
  exists []. split; [| apply Forall_nil]. symmetry. apply app_nil_r.
Qed.

Lemma does_only_fault {A} P : does_only P (@fault A).
Proof. intros s a s' H. discriminate H. Qed.

Lemma does_only_bind {A B} P (c : M A) (f : A -> M B) :
  does_only P c -> (forall a, does_only P (f a)) -> does_only P (bind c f).
Proof.
  intros Hc Hf s b s' H. apply bind_Some in H. destruct H as (a & s1 & E & H).
  destruct (Hc s a s1 E) as (Hd1 & evs1 & Ht1 & Hw1).
  destruct (Hf a s1 b s' H) as (Hd2 & evs2 & Ht2 & Hw2).
  split; [congruence |].
  exists (evs1 ++ evs2). split.
  - rewrite Ht2, Ht1. symmetry. apply app_assoc.
  - rewrite actions_app. apply Forall_app. split; assumption.
Qed.

Lemma does_only_weaken {A} (P Q : Event -> Prop) (c : M A) :
  (forall e, P e -> Q e) -> does_only P c -> does_only Q c.
Proof.
  intros HPQ Hc s a s' H. destruct (Hc s a s' H) as (Hd & evs & Ht & Hw).
  split; [exact Hd |]. exists evs. split; [exact Ht |].
  apply (Forall_impl Q HPQ). exact Hw.
Qed.

Lemma does_only_get_dev P : does_only P get_dev.
Proof.
  intros s a s' H. injection H as _ <-. split; [reflexivity |].
  exists []. split; [| apply Forall_nil]. symmetry. apply app_nil_r.
Qed.

Lemma does_only_printf P msg : does_only P (printf msg).
Proof.
  intros s a s' H. injection H as _ <-. split; [reflexivity |].
  exists [EvPrintf msg]. split; [reflexivity | apply Forall_nil].
Qed.

Lemma does_only_data_store (P : Event -> Prop) off v :
  P (EvDataWrite off (u32 v)) -> does_only P (data_store off v).
Proof.
  intros HP s a s' H. injection H as _ <-. split; [reflexivity |].
  exists [EvDataWrite off (u32 v)]. split; [reflexivity |].
  apply Forall_cons; [exact HP | apply Forall_nil].
Qed.

Lemma does_only_data_load (P : Event -> Prop) off :
  P (EvDataRead off) -> does_only P (data_load off).
Proof.
  intros HP s a s' H. injection H as _ <-. split; [reflexivity |].
  exists [EvDataRead off]. split; [reflexivity |].
  apply Forall_cons; [exact HP | apply Forall_nil].
Qed.

Create HintDb does_only discriminated.
#[local] Hint Resolve does_only_get_dev does_only_printf does_only_fault
  : does_only.
#[local] Hint Extern 0 (does_only _ (ret _)) => apply does_only_ret : does_only.

(** Goes through a sequence of calls that do events of one kind only. *)
Ltac only_events :=
  lazymatch goal with
  | |- does_only _ (bind _ _) =>
      eapply does_only_bind; [only_events | intros ?; only_events]
  | |- does_only _ (if ?b then _ else _) => destruct b; only_events
  | |- does_only _ (match ?x with Some _ => _ | None => _ end) =>
      destruct x; only_events
  | |- does_only _ (let _ := _ in _) => cbv zeta; only_events
  | |- _ => solve [auto with does_only]
  end.

Lemma does_only_SetData_loop k : forall data word off lo hi,
  lo <= off -> off + ADDR_STEP * Z.of_nat k <= hi ->
  does_only (fun e => exists a v, e = EvDataWrite a v /\ lo <= a < hi)
    (SetData_loop k data word off).
Proof.
  induction k as [| k IH]; intros data word off lo hi Hlo Hhi;
    cbn [SetData_loop].
  - apply does_only_ret.
  - unfold ADDR_STEP in *.
    eapply does_only_bind; [| intros ?; apply IH; unfold ADDR_STEP; lia].
    apply does_only_data_store. eexists. eexists. split; [reflexivity | lia].
Qed.

Lemma does_only_GetData_loop k : forall off,
  does_only data_read (GetData_loop k off).
Proof.
  induction k as [| k IH]; intros off; cbn [GetData_loop].
  - apply does_only_ret.
  - eapply does_only_bind;
      [apply does_only_data_load; eexists; reflexivity | intros ?].
    eapply does_only_bind; [apply IH | intros ?; apply does_only_ret].
Qed.

Lemma does_only_SetExponent_loop k e0 e1 :
  does_only fifo_store (SetExponent_loop k e0 e1).
Proof.
  induction k as [| k IH]; cbn [SetExponent_loop].
  - apply does_only_ret.
  - eapply does_only_bind;
      [apply does_only_data_store; eexists; reflexivity | intros ?].
    eapply does_only_bind;
      [apply does_only_data_store; eexists; reflexivity | intros ?; apply IH].
Qed.

Lemma does_only_SetData operand base data :
  operand_offset operand = Some base ->
  does_only (store_into operand) (MME1536_SetData data base WORDS_TOT).
Proof.
  intros Hbase. unfold MME1536_SetData.
  apply (does_only_weaken
           (fun e => exists a v,
              e = EvDataWrite a v /\ base <= a < base + WORDS_TOT * ADDR_STEP)).
  - intros e (a & v & -> & Ha). exists base, a, v.
    split; [exact Hbase |]. split; [reflexivity | exact Ha].
  - apply does_only_SetData_loop; [lia |].
    change (Z.of_nat (Z.to_nat WORDS_TOT)) with WORDS_TOT. lia.
Qed.

Lemma does_only_SetOperand data operand length :
  does_only (store_into operand) (MME1536_SetOperand data operand length).
Proof.
  unfold MME1536_SetOperand.
  destruct (operand_offset operand) as [base |] eqn:Hbase; [| only_events].
  destruct (operand_image data length); [| only_events].
  eapply does_only_bind; [| intros ?; apply does_only_ret].
  apply does_only_SetData. exact Hbase.
Qed.

Lemma does_only_SetOperand_m data operand :
  does_only (store_into operand) (MME1536_SetOperand_m data operand).
Proof.
  unfold MME1536_SetOperand_m.
  destruct (operand_offset operand) as [base |] eqn:Hbase; [| only_events].
  eapply does_only_bind; [only_events | intros d].
  destruct (operand_image data (Dev.n d)); [| only_events].
  eapply does_only_bind; [| intros ?; apply does_only_ret].
  apply does_only_SetData. exact Hbase.
Qed.

Lemma does_only_SetExponent e0 e1 t :
  does_only fifo_store (MME1536_SetExponent e0 e1 t).
Proof.
  unfold MME1536_SetExponent.
  destruct (negb _); [only_events | apply does_only_SetExponent_loop].
Qed.

Lemma does_only_ComputeR2 P R2 m n : does_only P (MME1536_ComputeR2 R2 m n).
Proof. unfold MME1536_ComputeR2. cbv zeta. destruct (_ =? 0); only_events. Qed.

#[local] Hint Resolve does_only_ComputeR2 : does_only.

(** *** Putting steps in sequence *)

Lemma follows_app part steps1 evs1 :
  follows part steps1 evs1 ->
  forall steps2 evs2, follows part steps2 evs2 ->
  follows part (steps1 ++ steps2) (evs1 ++ evs2).
Proof.
  induction 1 as [| o stores steps evs Hs _ IH
                  | d x y steps w1 w2 evs Hp Hs Hf Hc _ IH
                  | steps w1 w2 evs Hp Hs Hf Hc _ IH
                  | stores steps evs Hs _ IH
                  | turns steps evs _ IH
                  | o loads steps evs Hs _ IH];
    intros steps2 evs2 H2.
  - exact H2.
  - rewrite <- app_assoc. cbn [app]. apply follows_load; [exact Hs |].
    apply IH, H2.
  - cbn [app]. apply follows_single; [exact Hp | exact Hs | exact Hf | exact Hc |].
    apply IH, H2.
  - cbn [app]. apply follows_auto; [exact Hp | exact Hs | exact Hf | exact Hc |].
    apply IH, H2.
  - rewrite <- app_assoc. cbn [app]. apply follows_feed; [exact Hs |].
    apply IH, H2.
  - change ((Wait :: steps) ++ steps2) with (Wait :: (steps ++ steps2)).
    change ((EvGetTime :: concat (repeat turn_events turns) ++ EvUioWrite 1 :: evs)
              ++ evs2)
      with (EvGetTime
              :: (concat (repeat turn_events turns) ++ EvUioWrite 1 :: evs) ++ evs2).
    rewrite <- app_assoc. cbn [app]. apply follows_wait. apply IH, H2.
  - change ((Read o :: steps) ++ steps2) with (Read o :: (steps ++ steps2)).
    change ((EvCtrlWrite 0 (Z.shiftl o DEST_BITS) :: loads ++ evs) ++ evs2)
      with (EvCtrlWrite 0 (Z.shiftl o DEST_BITS) :: (loads ++ evs) ++ evs2).
    rewrite <- app_assoc. apply follows_read; [exact Hs |]. apply IH, H2.
Qed.

Lemma scripted_bind {A B} q p (c : M A) (f : A -> M B) l1 l2 l :
  scripted q p c l1 -> (forall a, scripted q p (f a) l2) ->
  l1 ++ l2 = l ->
  scripted q p (bind c f) l.
Proof.
  intros Hc Hf <- s b s' Hq H. apply bind_Some in H.
  destruct H as (a & s1 & E & H).
  destruct (Hc s a s1 Hq E) as (Hq1 & evs1 & Ht1 & Hw1).
  destruct (Hf a s1 b s' Hq1 H) as (Hq2 & evs2 & Ht2 & Hw2).
  split; [exact Hq2 |].
  exists (evs1 ++ evs2). split.
  - rewrite Ht2, Ht1. symmetry. apply app_assoc.
  - rewrite actions_app. apply follows_app; assumption.
Qed.

(** A call that prints at most. *)
Lemma scripted_silent {A} q p (c : M A) :
  does_only (fun _ => False) c -> scripted q p c [].
Proof.
  intros Hc s a s' Hq H.
  destruct (Hc s a s' H) as (Hd & evs & Ht & Hw).
  split; [rewrite Hd; exact Hq |].
  exists evs. split; [exact Ht |].
  destruct (actions evs) as [| e rest]; [apply follows_nil |].
  inversion Hw as [| ? ? He _]. destruct He.
Qed.

Lemma scripted_load {A} q p operand (c : M A) :
  does_only (store_into operand) c -> scripted q p c [Load operand].
Proof.
  intros Hc s a s' Hq H.
  destruct (Hc s a s' H) as (Hd & evs & Ht & Hw).
  split; [rewrite Hd; exact Hq |].
  exists evs. split; [exact Ht |].
  rewrite <- (app_nil_r (actions evs)).
  apply follows_load; [exact Hw | apply follows_nil].
Qed.

Lemma scripted_feed {A} q p (c : M A) :
  does_only fifo_store c -> scripted q p c [Feed].
Proof.
  intros Hc s a s' Hq H.
  destruct (Hc s a s' H) as (Hd & evs & Ht & Hw).
  split; [rewrite Hd; exact Hq |].
  exists evs. split; [exact Ht |].
  rewrite <- (app_nil_r (actions evs)).
  apply follows_feed; [exact Hw | apply follows_nil].
Qed.

(** *** The starts *)

Lemma StartSingle_run p d x y s :
  exists s',
  MME1536_StartSingle p d x y s = Some (tt, s') /\
  dev s' = dev s /\
  trace s' = trace s ++
    [EvCtrlRead 0;
     EvCtrlWrite 0 (u32 (start_word (s32 (ctrl_reg s 0)) p d x y));
     EvUsleep 1;
     EvCtrlWrite 0
       (u32 (s32 (Z.land (u32 (start_word (s32 (ctrl_reg s 0)) p d x y))
                    MASK_CLEAR_START)))].
Proof.
  eexists. split;
    [lazy beta iota zeta delta
       [MME1536_StartSingle bind ctrl_load ctrl_store usleep]; reflexivity |].
  split; [reflexivity |].
  unfold log, with_trace; cbn [trace app]; rewrite <- ?app_assoc; cbn [app].
  reflexivity.
Qed.

Lemma StartSingle_m_run d x y s :
  exists s',
  MME1536_StartSingle_m d x y s = Some (tt, s') /\
  dev s' = dev s /\
  trace s' = trace s ++
    [EvCtrlRead 0;
     EvCtrlWrite 0
       (u32 (start_word (s32 (ctrl_reg s 0)) (Dev.part (dev s)) d x y));
     EvUsleep 1;
     EvCtrlWrite 0
       (u32 (s32 (Z.land
                    (u32 (start_word (s32 (ctrl_reg s 0)) (Dev.part (dev s)) d x y))
                    MASK_CLEAR_START)))].
Proof.
  eexists. split;
    [lazy beta iota zeta delta
       [MME1536_StartSingle_m bind ctrl_load ctrl_store usleep get_dev];
     reflexivity |].
  split; [reflexivity |].
  unfold log, with_trace; cbn [trace app]; rewrite <- ?app_assoc; cbn [app].
  reflexivity.
Qed.

Lemma StartAuto_run p s :
  exists s',
  MME1536_StartAuto p s = Some (tt, s') /\
  dev s' = dev s /\
  trace s' = trace s ++
    [EvCtrlWrite 0 (u32 (s32 (Z.lor START_AUTO_BITS (Z.shiftl p P_SEL_BITS))));
     EvUsleep 1;
     EvCtrlWrite 0
       (u32 (s32 (Z.land
                    (u32 (s32 (Z.lor START_AUTO_BITS (Z.shiftl p P_SEL_BITS))))
                    MASK_CLEAR_START)))].
Proof.
  eexists. split;
    [lazy beta iota zeta delta [MME1536_StartAuto bind ctrl_store usleep];
     reflexivity |].
  split; [reflexivity |].
  unfold log, with_trace; cbn [trace app]; rewrite <- ?app_assoc; cbn [app].
  reflexivity.
Qed.

Lemma StartAuto_m_run s :
  exists s',
  MME1536_StartAuto_m s = Some (tt, s') /\
  dev s' = dev s /\
  trace s' = trace s ++
    [EvCtrlWrite 0
       (u32 (s32 (Z.lor START_AUTO_BITS (Z.shiftl (Dev.part (dev s)) P_SEL_BITS))));
     EvUsleep 1;
     EvCtrlWrite 0
       (u32 (s32 (Z.land
                    (u32 (s32 (Z.lor START_AUTO_BITS
                                 (Z.shiftl (Dev.part (dev s)) P_SEL_BITS))))
                    MASK_CLEAR_START)))].
Proof.
  eexists. split;
    [lazy beta iota zeta delta
       [MME1536_StartAuto_m bind ctrl_store usleep get_dev]; reflexivity |].
  split; [reflexivity |].
  unfold log, with_trace; cbn [trace app]; rewrite <- ?app_assoc; cbn [app].
  reflexivity.
Qed.

(** The selectors of the destination and of the two factors show in their
    fields whatever the pipeline part is. *)
Lemma start_word_slots c p d x y :
  selector d -> selector x -> selector y ->
  map (ctrl_field (u32 (start_word c p d x y))) [28; 26; 24] = [d; x; y].
Proof.
  intros Hd Hx Hy. cbn [map].
  repeat f_equal.
  all: apply ctrl_field_eq; [lia | assumption |];
    intros i Hi; rewrite testbit_start_word by lia;
    replace (i + 28 - 28) with i by lia;
    replace (i + 26 - 26) with i by lia;
    replace (i + 24 - 24) with i by lia;
    rewrite ?(Z.testbit_neg_r p), ?(Z.testbit_neg_r d), ?(Z.testbit_neg_r x),
      ?(Z.testbit_neg_r y) by lia;
    rewrite ?(selector_bits_high d), ?(selector_bits_high x),
      ?(selector_bits_high y) by (assumption || lia);
    repeat match goal with
    | |- context [?a <? ?b] => destruct (Z.ltb_spec a b); try lia
    | |- context [?a =? ?b] => destruct (Z.eqb_spec a b); try lia
    end;
    rewrite ?andb_false_r, ?orb_false_r; simpl; rewrite ?orb_false_r; reflexivity.
Qed.

Lemma auto_word_slots p :
  map (ctrl_field (u32 (s32 (Z.lor START_AUTO_BITS (Z.shiftl p P_SEL_BITS)))))
    [28; 26; 24] = [0; 0; 0].
Proof.
  cbn [map].
  repeat f_equal.
  all: apply ctrl_field_eq; [lia | unfold selector; lia |];
    intros i Hi; rewrite testbit_auto_word by lia;
    rewrite ?(Z.testbit_neg_r p) by lia;
    rewrite ?Z.bits_0;
    repeat match goal with
    | |- context [?a =? ?b] => destruct (Z.eqb_spec a b); try lia
    end; reflexivity.
Qed.

Lemma follows_one_single p d x y c :
  selector d -> selector x -> selector y ->
  follows p [Single d x y]
    [EvCtrlRead 0;
     EvCtrlWrite 0 (u32 (start_word c p d x y));
     EvUsleep 1;
     EvCtrlWrite 0 (u32 (s32 (Z.land (u32 (start_word c p d x y)) MASK_CLEAR_START)))].
Proof.
  intros Hd Hx Hy.
  destruct (start_word_first c p d x y) as (F1 & F2 & F3).
  pose proof (start_pulse (start_word c p d x y)) as HP. cbv zeta in HP.
  destruct HP as (P1 & P2 & _).
  apply follows_single.
  - split; [exact F1 | split; [exact P1 | exact P2]].
  - exact F2.
  - apply start_word_slots; assumption.
  - intros Hp.
    assert (HF : map (ctrl_field (u32 (start_word c p d x y))) [30; 28; 26; 24]
                 = [p; d; x; y]).
    { apply F3. repeat (apply Forall_cons; [assumption |]). apply Forall_nil. }
    apply (f_equal (hd 0)) in HF. exact HF.
  - apply follows_nil.
Qed.

Lemma follows_one_auto p :
  follows p [Auto]
    [EvCtrlWrite 0 (u32 (s32 (Z.lor START_AUTO_BITS (Z.shiftl p P_SEL_BITS))));
     EvUsleep 1;
     EvCtrlWrite 0
       (u32 (s32 (Z.land
                    (u32 (s32 (Z.lor START_AUTO_BITS (Z.shiftl p P_SEL_BITS))))
                    MASK_CLEAR_START)))].
Proof.
  destruct (auto_word_first p) as (F1 & F2 & F3).
  pose proof (start_pulse (s32 (Z.lor START_AUTO_BITS (Z.shiftl p P_SEL_BITS))))
    as HP.
  cbv zeta in HP. destruct HP as (P1 & P2 & _).
  apply follows_auto.
  - split; [exact F1 | split; [exact P1 | exact P2]].
  - exact F2.
  - apply auto_word_slots.
  - intros Hp.
    assert (HF : map (ctrl_field
                        (u32 (s32 (Z.lor START_AUTO_BITS (Z.shiftl p P_SEL_BITS)))))
                   [30; 28; 26; 24] = [p; 0; 0; 0]).
    { apply F3. apply Forall_cons; [exact Hp |].
      repeat (apply Forall_cons; [unfold selector; lia |]). apply Forall_nil. }
    apply (f_equal (hd 0)) in HF. exact HF.
  - apply follows_nil.
Qed.

Lemma scripted_StartSingle q p d x y :
  selector d -> selector x -> selector y ->
  scripted q p (MME1536_StartSingle p d x y) [Single d x y].
Proof.
  intros Hd Hx Hy s a s' Hq H.
  destruct (StartSingle_run p d x y s) as (s1 & E & Hdev & Htr).
  rewrite E in H. injection H as _ <-.
  split; [rewrite Hdev; exact Hq |].
  eexists. split; [exact Htr |].
  apply follows_one_single; assumption.
Qed.

Lemma scripted_StartSingle_m q d x y :
  selector d -> selector x -> selector y ->
  scripted q q (MME1536_StartSingle_m d x y) [Single d x y].
Proof.
  intros Hd Hx Hy s a s' Hq H.
  destruct (StartSingle_m_run d x y s) as (s1 & E & Hdev & Htr).
  rewrite E in H. injection H as _ <-.
  split; [rewrite Hdev; exact Hq |].
  eexists. split; [exact Htr |]. rewrite Hq.
  apply follows_one_single; assumption.
Qed.

Lemma scripted_StartAuto q p : scripted q p (MME1536_StartAuto p) [Auto].
Proof.
  intros s a s' Hq H.
  destruct (StartAuto_run p s) as (s1 & E & Hdev & Htr).
  rewrite E in H. injection H as _ <-.
  split; [rewrite Hdev; exact Hq |].
  eexists. split; [exact Htr |].
  apply follows_one_auto.
Qed.

Lemma scripted_StartAuto_m q : scripted q q MME1536_StartAuto_m [Auto].
Proof.
  intros s a s' Hq H.
  destruct (StartAuto_m_run s) as (s1 & E & Hdev & Htr).
  rewrite E in H. injection H as _ <-.
  split; [rewrite Hdev; exact Hq |].
  eexists. split; [exact Htr |]. rewrite Hq.
  apply follows_one_auto.
Qed.

(** *** The read-back and the wait *)

Lemma scripted_GetData q p buffer off words :
  scripted q p (MME1536_GetData buffer off OPERAND_3 words) [Read OPERAND_3].
Proof.
  intros s a s' Hq H. unfold MME1536_GetData in H. cbv zeta in H.
  apply bind_Some in H. destruct H as (u & s1 & E & H).
  assert (Hloads : does_only data_read
            (got <- GetData_loop (Z.to_nat words) off ;;
             ret (got ++ skipn (length got) buffer))).
  { eapply does_only_bind; [apply does_only_GetData_loop | intros ?].
    apply does_only_ret. }
  destruct (Hloads s1 a s' H) as (Hd & evs & Ht & Hw).
  injection E as _ <-.
  split; [rewrite Hd; exact Hq |].
  exists (EvCtrlWrite 0 (Z.shiftl OPERAND_3 DEST_BITS) :: evs). split.
  - rewrite Ht. unfold log, with_trace. cbn [trace].
    rewrite <- app_assoc. reflexivity.
  - change (actions (EvCtrlWrite 0 (Z.shiftl OPERAND_3 DEST_BITS) :: evs))
      with (EvCtrlWrite 0 (Z.shiftl OPERAND_3 DEST_BITS) :: actions evs).
    rewrite <- (app_nil_r (actions evs)).
    apply follows_read; [exact Hw | apply follows_nil].
Qed.

Lemma read_then_return q p buffer off words :
  scripted q p
    (buf <- MME1536_GetData buffer off OPERAND_3 words ;; ret (0, buf))
    [Read OPERAND_3].
Proof.
  eapply scripted_bind; [apply scripted_GetData | intros ? | reflexivity].
  apply scripted_silent. apply does_only_ret.
Qed.

Lemma scripted_GetOperand_m q p buffer :
  scripted q p (MME1536_GetOperand_m buffer OPERAND_3) [Read OPERAND_3].
Proof.
  unfold MME1536_GetOperand_m.
  change (read_offset OPERAND_3) with (Some OP3_OFFSET). cbv iota zeta.
  eapply scripted_bind;
    [apply scripted_silent, does_only_get_dev | intros d | reflexivity].
  apply read_then_return.
Qed.

Lemma scripted_WaitUntilReady q p : scripted q p MME1536_WaitUntilReady [Wait].
Proof.
  intros s [] s' Hq H.
  destruct (WaitUntilReady_run s s' H)
    as (t0 & times & k & evs & _ & _ & _ & _ & _ & _ & _ & Hd & Htr & Hexit).
  split; [rewrite Hd; exact Hq |].
  eexists. split; [exact Htr |].
  assert (Hflow : actions evs = concat (repeat turn_events k)).
  { destruct Hexit as [(-> & _ & ->) | (k' & -> & _ & _ & [(_ & ->) | (_ & _ & ->)])].
    - reflexivity.
    - rewrite actions_app, actions_turns. apply app_nil_r.
    - apply actions_turns. }
  rewrite !actions_app, Hflow.
  change (actions [EvGetTime]) with [EvGetTime].
  change (actions [EvUioWrite 1]) with [EvUioWrite 1].
  cbn [app]. apply follows_wait, follows_nil.
Qed.

(** Goes through the calls of an operation, collecting its steps. *)
Ltac slot :=
  unfold selector, OPERAND_0, OPERAND_1, OPERAND_2, OPERAND_3; lia.

Ltac follow_script :=
  lazymatch goal with
  | |- scripted ?q ?p (bind (ret ?a) ?f) ?l =>
      change (scripted q p (f a) l); cbv beta; follow_script
  | |- scripted _ _ (bind _ _) _ =>
      eapply scripted_bind; [follow_script | intros ?; follow_script | reflexivity]
  | |- scripted _ _ (MME1536_SetOperand_m _ _) _ =>
      apply scripted_load, does_only_SetOperand_m
  | |- scripted _ _ (MME1536_SetOperand _ _ _) _ =>
      apply scripted_load, does_only_SetOperand
  | |- scripted _ _ (MME1536_SetExponent _ _ _) _ =>
      apply scripted_feed, does_only_SetExponent
  | |- scripted _ _ (MME1536_StartSingle _ _ _ _) _ =>
      apply scripted_StartSingle; slot
  | |- scripted _ _ (MME1536_StartSingle_m _ _ _) _ =>
      apply scripted_StartSingle_m; slot
  | |- scripted _ _ (MME1536_StartAuto _) _ => apply scripted_StartAuto
  | |- scripted _ _ MME1536_StartAuto_m _ => apply scripted_StartAuto_m
  | |- scripted _ _ MME1536_WaitUntilReady _ => apply scripted_WaitUntilReady
  | |- scripted _ _ (MME1536_GetOperand_m _ OPERAND_3) _ =>
      apply scripted_GetOperand_m
  | |- _ => apply scripted_silent; only_events
  end.

Lemma Exp_m_waits result g e t :
  waits_exactly (MME1536_Exp_m result g e t) 4.
Proof. unfold MME1536_Exp_m. count_waits. Qed.

Lemma Exp_m_scripted q result g e t :
  scripted q q (MME1536_Exp_m result g e t) Exp_m_steps.
Proof. unfold MME1536_Exp_m, Exp_m_steps. follow_script. Qed.
(** ** The exponentiation, step by step *)



(** ** The modulus update *)

Lemma le_combine_nonneg l : 0 <= le_combine l.
Proof.
  induction l as [| w l IH]; cbn [le_combine]; [lia |].
  pose proof (u32_range w). lia.
Qed.

Lemma le_combine_bound l : le_combine l < 2 ^ (32 * Z.of_nat (length l)).
Proof.
  induction l as [| w l IH]; cbn [le_combine length]; [reflexivity |].
  pose proof (u32_range w) as Hw. pose proof (le_combine_nonneg l) as Hl.
  rewrite Nat2Z.inj_succ.
  replace (32 * Z.succ (Z.of_nat (length l)))
    with (32 + 32 * Z.of_nat (length l)) by lia.
  rewrite Z.pow_add_r by lia.
  nia.
Qed.

Lemma le_combine_split k : forall v,
  le_combine (map s32 (le_split k v)) = v mod 2 ^ (32 * Z.of_nat k).
Proof.
  induction k as [| k IH]; intros v.
  - cbn [le_split map le_combine]. rewrite Z.mod_1_r. reflexivity.
  - cbn [le_split map le_combine]. rewrite IH, u32_s32.
    rewrite u32_small by (apply Z.mod_pos_bound; lia).
    rewrite Nat2Z.inj_succ.
    replace (32 * Z.succ (Z.of_nat k)) with (32 + 32 * Z.of_nat k) by lia.
    rewrite Z.pow_add_r by lia.
    rewrite Z.rem_mul_r by lia. reflexivity.
Qed.

Lemma le_split_zero d : le_split d 0 = repeat 0 d.
Proof. induction d as [| d IH]; [reflexivity |]. cbn. f_equal. exact IH. Qed.

Lemma le_split_small c : forall d v,
  0 <= v < 2 ^ (32 * Z.of_nat c) ->
  le_split (c + d) v = le_split c v ++ repeat 0 d.
Proof.
  induction c as [| c IH]; intros d v Hv.
  - cbn [Nat.add le_split app]. replace v with 0 by (cbn in Hv; lia).
    apply le_split_zero.
  - cbn [Nat.add le_split app]. f_equal. apply IH.
    rewrite Nat2Z.inj_succ in Hv.
    replace (32 * Z.succ (Z.of_nat c)) with (32 + 32 * Z.of_nat c) in Hv by lia.
    rewrite Z.pow_add_r in Hv by lia.
    split; [apply Z.div_pos; lia |].
    apply Z.div_lt_upper_bound; lia.
Qed.

Lemma mpz_size_fits v : 0 <= v -> v < 2 ^ (32 * Z.of_nat (mpz_size v)).
Proof.
  intros Hv. unfold mpz_size.
  destruct (Z.leb_spec v 0) as [H0 | Hpos]; [cbn; lia |].
  pose proof (Z.log2_spec v Hpos) as (_ & Hlt).
  pose proof (Z.log2_nonneg v) as Hl.
  eapply Z.lt_le_trans; [exact Hlt |].
  apply Z.pow_le_mono_r; [lia |].
  rewrite Nat2Z.inj_succ, Z2Nat.id by (apply Z.div_pos; lia).
  pose proof (Z.mod_pos_bound (Z.log2 v) 32 ltac:(lia)).
  pose proof (Z.div_mod (Z.log2 v) 32 ltac:(lia)). lia.
Qed.

Lemma mpz_size_le v (k : nat) :
  0 <= v < 2 ^ (32 * Z.of_nat k) -> (mpz_size v <= k)%nat.
Proof.
  intros Hv. unfold mpz_size.
  destruct (Z.leb_spec v 0) as [H0 | Hpos]; [lia |].
  assert (Hlog : Z.log2 v < 32 * Z.of_nat k)
    by (apply Z.log2_lt_pow2; lia).
  pose proof (Z.log2_nonneg v) as Hl.
  assert (Hd : Z.log2 v / 32 < Z.of_nat k)
    by (apply Z.div_lt_upper_bound; lia).
  pose proof (Z.div_pos (Z.log2 v) 32 Hl ltac:(lia)). lia.
Qed.

(** Exported over a zeroed buffer of [k] words, a number below 2^(32k) is
    in the buffer in full, least significant word first. *)
Lemma mpz_export_zeroed v (k : nat) :
  0 <= v < 2 ^ (32 * Z.of_nat k) ->
  mpz_export (repeat 0 k) v = map s32 (le_split k v).
Proof.
  intros Hv. unfold mpz_export. cbv zeta.
  pose proof (mpz_size_le v k Hv) as Hle.
  set (c := mpz_size v) in *.
  assert (Hlen : length (map s32 (le_split c v)) = c).
  { rewrite length_map. clear. generalize v as x.
    induction c as [| c IH]; intros x; cbn [le_split length];
      [| rewrite IH]; reflexivity. }
  rewrite Hlen.
  replace k with (c + (k - c))%nat at 2 by lia.
  rewrite le_split_small by (split; [lia | apply mpz_size_fits; lia]).
  rewrite map_app. f_equal.
  replace (repeat 0 k) with (repeat 0 c ++ repeat 0 (k - c))
    by (rewrite <- repeat_app; f_equal; lia).
  rewrite skipn_app, repeat_length, Nat.sub_diag, skipn_all2
    by (rewrite repeat_length; lia).
  cbn [skipn app]. clear. induction (k - c)%nat as [| d IH]; [reflexivity |].
  cbn [repeat map]. rewrite <- IH. reflexivity.
Qed.

Lemma zero_loop_all R2 :
  length R2 = Z.to_nat WORDS_TOT ->
  zero_loop (Z.to_nat WORDS_TOT) R2 0 = repeat 0 (Z.to_nat WORDS_TOT).
Proof.
  change (Z.to_nat WORDS_TOT) with 48%nat. intros Hlen.
  do 48 (destruct R2 as [| ? R2]; [discriminate Hlen |]).
  destruct R2; [| discriminate Hlen]. reflexivity.
Qed.

Lemma ComputeR2_zeroed m n s :
  supported_width n ->
  length m = Z.to_nat (n / 32) ->
  Z.odd (le_combine m) = true ->
  MME1536_ComputeR2 (repeat 0 (Z.to_nat WORDS_TOT)) m n s
  = Some (map s32 (le_split (Z.to_nat WORDS_TOT) (2 ^ (2 * n) mod le_combine m)), s).
Proof.
  intros Hw Hlen Hodd. unfold MME1536_ComputeR2, mpz_import. cbv zeta.
  assert (Hcount : Z.to_nat (u32 n / 32) = length m).
  { rewrite Hlen. destruct Hw as [-> | [-> | ->]]; reflexivity. }
  rewrite Hcount, firstn_all.
  assert (Hexp : u32 (s32 (2 * n)) = 2 * n)
    by (destruct Hw as [-> | [-> | ->]]; reflexivity).
  rewrite Hexp.
  pose proof (le_combine_nonneg m) as Hm0.
  pose proof (le_combine_bound m) as Hmb.
  destruct (Z.eqb_spec (le_combine m) 0) as [E | Hne];
    [rewrite E in Hodd; discriminate Hodd |].
  unfold mpz_powm_ui, ret. f_equal. f_equal.
  apply mpz_export_zeroed.
  pose proof (Z.mod_pos_bound (2 ^ (2 * n)) (le_combine m) ltac:(lia)) as Hr.
  split; [lia |].
  eapply Z.lt_le_trans; [apply Hr |].
  eapply Z.le_trans; [apply Z.lt_le_incl, Hmb |].
  apply Z.pow_le_mono_r; [lia |].
  rewrite Hlen. destruct Hw as [-> | [-> | ->]]; vm_compute; discriminate.
Qed.

Lemma UpdateModulus_steps m n s :
  supported_width n ->
  MME1536_UpdateModulus m n s
  = (R2 <- MME1536_ComputeR2
             (zero_loop (Z.to_nat WORDS_TOT) (Dev.R2 (dev s)) 0) m n ;;
     modify_dev (set_R2 R2) ;;
     MME1536_SetOperand m MODULUS n ;;
     ret tt)
      (with_dev
         (set_R2 (zero_loop (Z.to_nat WORDS_TOT) (Dev.R2 (dev s)) 0)
            (set_words (Z.quot n 32) (set_n n (set_part (part_of_width n) (dev s)))))
         s).
Proof.
  intros [-> | [-> | ->]]; reflexivity.
Qed.

(** C1: for a supported width [n], a modulus [m] of n/32 words that is odd
    and a device whose R2 buffer has its 48 words,
    MME1536_UpdateModulus returns; the R2 buffer then holds 2^(2n) mod m,
    least significant word first over its 48 words, and the 48 words of the
    modulus slot hold [m] in the place of the width [n], the rest being
    zero; the device has the width, its word count and its pipeline part. *)
Theorem UpdateModulus_R2 (m : list Z) (n : Z) (s : State) :
  supported_width n ->
  length m = Z.to_nat (n / 32) ->
  Z.odd (le_combine m) = true ->
  length (Dev.R2 (dev s)) = Z.to_nat WORDS_TOT ->
  exists evs s',
    runs (MME1536_UpdateModulus m n) s tt evs s' /\
    Dev.R2 (dev s')
    = map s32 (le_split (Z.to_nat WORDS_TOT) (2 ^ (2 * n) mod le_combine m)) /\
    le_combine (Dev.R2 (dev s')) = 2 ^ (2 * n) mod le_combine m /\
    data_writes evs
    = combine (addrs (Z.to_nat WORDS_TOT) M_OFFSET) (map u32 (slot_layout m n)) /\
    map (data_mem s') (addrs (Z.to_nat WORDS_TOT) M_OFFSET)
    = map u32 (slot_layout m n) /\
    Dev.n (dev s') = n /\ Dev.words (dev s') = n / 32 /\
    Dev.part (dev s') = part_of_width n.
Proof.
  intros Hw Hlen Hodd HR2.
  set (R := 2 ^ (2 * n) mod le_combine m).
  set (d1 := set_R2 (repeat 0 (Z.to_nat WORDS_TOT))
               (set_words (Z.quot n 32)
                  (set_n n (set_part (part_of_width n) (dev s))))).
  set (d2 := set_R2 (map s32 (le_split (Z.to_nat WORDS_TOT) R)) d1).
  assert (Hk : known_slot MODULUS) by (unfold known_slot, OPERAND_0, MODULUS; lia).
  destruct (SetOperand_runs m MODULUS n (with_dev d2 s) Hk Hw Hlen)
    as (off & evs & s' & Hoff & (Hrun & Htr) & Hdw & _ & Hmem & _ & Hdev).
  change (operand_offset MODULUS) with (Some M_OFFSET) in Hoff.
  injection Hoff as <-.
  assert (Hall : MME1536_UpdateModulus m n s = Some (tt, s')).
  { rewrite (UpdateModulus_steps m n s Hw).
    rewrite (zero_loop_all _ HR2). fold d1.
    unfold bind at 1.
    rewrite (ComputeR2_zeroed m n (with_dev d1 s) Hw Hlen Hodd). fold R.
    unfold bind at 1. unfold modify_dev at 1. unfold bind at 1.
    unfold get_dev at 1. unfold set_dev at 1.
    change (with_dev (set_R2 (map s32 (le_split (Z.to_nat WORDS_TOT) R))
                        (dev (with_dev d1 s))) (with_dev d1 s))
      with (with_dev d2 s).
    unfold bind at 1. rewrite Hrun. reflexivity. }
  exists evs, s'.
  split; [split; [exact Hall | exact Htr] |].
  rewrite Hdev. cbn [dev with_dev].
  split; [reflexivity |].
  split.
  { unfold d2. cbn [Dev.R2 set_R2]. rewrite le_combine_split.
    apply Z.mod_small. unfold R.
    pose proof (le_combine_nonneg m) as Hm0.
    pose proof (le_combine_bound m) as Hmb.
    assert (Hne : le_combine m <> 0)
      by (intros E; rewrite E in Hodd; discriminate Hodd).
    pose proof (Z.mod_pos_bound (2 ^ (2 * n)) (le_combine m) ltac:(lia)) as Hr.
    split; [lia |].
    eapply Z.lt_le_trans; [apply Hr |].
    eapply Z.le_trans; [apply Z.lt_le_incl, Hmb |].
    apply Z.pow_le_mono_r; [lia |].
    rewrite Hlen. destruct Hw as [-> | [-> | ->]]; vm_compute; discriminate. }
  split; [exact Hdw |]. split; [exact Hmem |].
  split; [reflexivity |].
  split; [| reflexivity].
  unfold d2, d1. cbn [Dev.words set_R2 set_words].
  destruct Hw as [-> | [-> | ->]]; reflexivity.
Qed.

Lemma UpdateModulus_R2_witness :
  exists evs s',
    runs (MME1536_UpdateModulus example_modulus 512) (example_state [] []) tt evs s' /\
    Dev.R2 (dev s')
    = map s32 (le_split (Z.to_nat WORDS_TOT)
                 (2 ^ (2 * 512) mod le_combine example_modulus)) /\
    le_combine (Dev.R2 (dev s')) = 2 ^ (2 * 512) mod le_combine example_modulus.
Proof.
  destruct (UpdateModulus_R2 example_modulus 512 (example_state [] []))
    as (evs & s' & Hrun & HR2 & Hval & _).
  - left. reflexivity.
  - reflexivity.
  - vm_compute. reflexivity.
  - reflexivity.
  - exists evs, s'. split; [exact Hrun |]. split; [exact HR2 | exact Hval].
Defined.
(** ** Opening and closing *)

(** After a successful MME1536_Initialize, MME1536_Clean leaves nothing
    open and nothing mapped. *)
Lemma Initialize_then_Clean_releases_all :
  exists s1 s2,
    MME1536_Initialize None all_succeed fresh_process = Some (0, s1) /\
    fds s1 = [4; 3] /\
    maps s1 = [(1073766400, PAGE_SIZE); (1073741824, PAGE_SIZE * 6)] /\
    MME1536_Clean s1 = Some (tt, s2) /\
    fds s2 = [] /\ maps s2 = [].
Proof.
  eexists. eexists.
  split; [vm_compute; reflexivity |].
  split; [reflexivity |]. split; [reflexivity |].
  split; [vm_compute; reflexivity |].
  split; reflexivity.
Qed.

(** On a failure after the control page was mapped, the labels failed2 and
    failed1 release the control page and the UIO descriptor, and leave the
    data window mapped and /dev/mem open. *)
Lemma Initialize_malloc_fails :
  exists s',
    MME1536_Initialize None malloc_fails fresh_process = Some (-1, s') /\
    fds s' = [3] /\ maps s' = [(1073741824, PAGE_SIZE * 6)].
Proof.
  eexists. split; [vm_compute; reflexivity |]. split; reflexivity.
Qed.

(** C4 fails on the code: when the UIO device cannot be opened,
    MME1536_Initialize returns -1 with the data window still mapped and the
    descriptor of /dev/mem still open. *)
Theorem Initialize_uio_open_fails_leaks :
  exists s',
    MME1536_Initialize None uio_open_fails fresh_process = Some (-1, s') /\
    fds fresh_process = [] /\ maps fresh_process = [] /\
    fds s' = [3] /\ maps s' = [(1073741824, PAGE_SIZE * 6)].
Proof.
  eexists. split; [vm_compute; reflexivity |].
  repeat split; reflexivity.
Qed.
(** ** More on the operand codec *)

Lemma addrs_range k : forall off x,
  In x (addrs k off) -> off <= x < off + ADDR_STEP * Z.of_nat k.
Proof.
  induction k as [| k IH]; intros off x Hx; cbn [addrs In] in Hx.
  - destruct Hx.
  - unfold ADDR_STEP in *. destruct Hx as [<- | Hx]; [lia |].
    apply IH in Hx. lia.
Qed.

(** Any run of MME1536_SetOperand, accepted or rejected: the control
    register and the device are left alone, and the data window changes at
    most in the 48 words of the slot. *)
Lemma SetOperand_effect data operand length s r s' :
  MME1536_SetOperand data operand length s = Some (r, s') ->
  ctrl_reg s' = ctrl_reg s /\ dev s' = dev s /\
  (r = 0 \/ r = -1) /\
  (r = -1 -> data_mem s' = data_mem s) /\
  forall off, operand_offset operand = Some off ->
  forall x, ~ In x (addrs (Z.to_nat WORDS_TOT) off) -> data_mem s' x = data_mem s x.
Proof.
  unfold MME1536_SetOperand. intros H.
  destruct (operand_offset operand) as [off |] eqn:Eo.
  - destruct (operand_image data length) as [img |] eqn:Ei.
    + destruct (SetData_loop_runs (Z.to_nat WORDS_TOT) img 0 off s)
        as (evs & s1 & (Hrun & _) & _ & _ & _ & Hout & Hc & Hd).
      assert (Hall : (MME1536_SetData img off WORDS_TOT ;; ret 0) s = Some (0, s1)).
      { unfold bind, MME1536_SetData. rewrite Hrun. reflexivity. }
      rewrite Hall in H. injection H as <- <-.
      split; [exact Hc |]. split; [exact Hd |]. split; [left; reflexivity |].
      split; [intros E; discriminate E |].
      intros off' E x Hx. injection E as <-. apply Hout, Hx.
    + injection H as <- <-.
      repeat split; try reflexivity. right. reflexivity.
  - injection H as <- <-.
    repeat split; try reflexivity. right. reflexivity.
Qed.

Lemma slots_apart operand other off off' (j k : nat) x :
  operand_offset operand = Some off ->
  read_offset other = Some off' ->
  other <> operand ->
  (j + k <= Z.to_nat WORDS_TOT)%nat ->
  In x (addrs k (off' + ADDR_STEP * Z.of_nat j)) ->
  ~ In x (addrs (Z.to_nat WORDS_TOT) off).
Proof.
  intros Ho Hr Hne Hjk Hx Hin.
  apply addrs_range in Hx. apply addrs_range in Hin.
  change (Z.to_nat WORDS_TOT) with 48%nat in *.
  unfold ADDR_STEP in *.
  unfold operand_offset in Ho. unfold read_offset in Hr.
  unfold OPERAND_0, OPERAND_1, OPERAND_2, OPERAND_3, MODULUS,
    OP0_OFFSET, OP1_OFFSET, OP2_OFFSET, OP3_OFFSET, M_OFFSET in *.
  repeat match type of Ho with
  | (if ?a =? ?b then _ else _) = _ => destruct (Z.eqb_spec a b)
  end; try discriminate Ho; injection Ho as <-;
  repeat match type of Hr with
  | (if ?a =? ?b then _ else _) = _ => destruct (Z.eqb_spec a b)
  end; try discriminate Hr; injection Hr as <-; lia.
Qed.

(** X1: storing an operand with MME1536_SetOperand, whatever the data and
    the width and whether the call is accepted or not, does not disturb the
    other slots: a following MME1536_GetOperand of another working slot
    puts in the caller's buffer what it would have put there before the
    store.  The store also leaves the control register as it was. *)
Theorem SetOperand_keeps_other_slots
  (data buf : list Z) (operand len other width r : Z) (s s1 : State) :
  MME1536_SetOperand data operand len s = Some (r, s1) ->
  working_slot other -> other <> operand -> supported_width width ->
  ctrl_reg s1 = ctrl_reg s /\
  exists got evs evs1 s2 s3,
    runs (MME1536_GetOperand buf other width) s (0, got) evs s2 /\
    runs (MME1536_GetOperand buf other width) s1 (0, got) evs1 s3.
Proof.
  intros Hset Hother Hne Hw.
  destruct (SetOperand_effect _ _ _ _ _ _ Hset) as (Hc & _ & _ & _ & Hout).
  split; [exact Hc |].
  destruct (read_offset_working other Hother) as (off' & Hr).
  destruct (GetOperand_runs buf other width off' s Hr Hw)
    as (got & evs & s2 & Hrun & Hgot).
  destruct (GetOperand_runs buf other width off' s1 Hr Hw)
    as (got1 & evs1 & s3 & Hrun1 & Hgot1).
  assert (Heq : got1 = got).
  { rewrite Hgot, Hgot1. apply map_ext_in. intros x Hx. f_equal.
    destruct (operand_offset operand) as [off |] eqn:Eo.
    - apply (Hout off eq_refl).
      eapply slots_apart; [exact Eo | exact Hr | exact Hne | | exact Hx].
      destruct Hw as [-> | [-> | ->]]; vm_compute; lia.
    - unfold MME1536_SetOperand in Hset. rewrite Eo in Hset.
      injection Hset as _ <-. reflexivity. }
  rewrite Heq in Hrun1.
  exists (got ++ skipn (length got) buf), evs, evs1, s2, s3.
  split; assumption.
Qed.

Lemma SetOperand_keeps_other_slots_witness :
  exists s1 got evs evs1 s2 s3,
    MME1536_SetOperand (repeat 9 16) OPERAND_1 512 (example_state [] [])
    = Some (0, s1) /\
    runs (MME1536_GetOperand (repeat 0 32) OPERAND_2 1024) (example_state [] [])
      (0, got) evs s2 /\
    runs (MME1536_GetOperand (repeat 0 32) OPERAND_2 1024) s1 (0, got) evs1 s3.
Proof.
  destruct (SetOperand_runs (repeat 9 16) OPERAND_1 512 (example_state [] []))
    as (off & evs0 & s1 & _ & (Hset & _) & _).
  - unfold known_slot, OPERAND_0, OPERAND_1, MODULUS. lia.
  - left. reflexivity.
  - reflexivity.
  - destruct (SetOperand_keeps_other_slots (repeat 9 16) (repeat 0 32)
                OPERAND_1 512 OPERAND_2 1024 0 (example_state [] []) s1 Hset)
      as (_ & got & evs & evs1 & s2 & s3 & H1 & H2).
    + unfold working_slot, OPERAND_0, OPERAND_2, OPERAND_3. lia.
    + unfold OPERAND_1, OPERAND_2. lia.
    + right. left. reflexivity.
    + exists s1, got, evs, evs1, s2, s3.
      split; [exact Hset | split; [exact H1 | exact H2]].
Defined.

(** X2: the two families agree when the device holds a supported width and
    the word count that goes with it, as MME1536_UpdateModulus leaves them:
    MME1536_SetOperand_m is MME1536_SetOperand with that width for every
    known slot, and MME1536_GetOperand_m is MME1536_GetOperand with that
    width for every working slot. *)
Theorem m_family_agrees (data : list Z) (operand : Z) (s : State) :
  supported_width (Dev.n (dev s)) ->
  Dev.words (dev s) = Dev.n (dev s) / 32 ->
  (known_slot operand ->
   MME1536_SetOperand_m data operand s
   = MME1536_SetOperand data operand (Dev.n (dev s)) s) /\
  (working_slot operand ->
   MME1536_GetOperand_m data operand s
   = MME1536_GetOperand data operand (Dev.n (dev s)) s).
Proof.
  intros Hw Hwords. split.
  - intros Hk. destruct (operand_offset_known operand Hk) as (off & Hoff).
    unfold MME1536_SetOperand_m, MME1536_SetOperand. rewrite Hoff.
    unfold bind at 1. unfold get_dev.
    destruct (operand_image data (Dev.n (dev s))) as [img |] eqn:Ei;
      [reflexivity |].
    exfalso. unfold operand_image in Ei. unfold supported_width in Hw.
    destruct (Z.eqb_spec (Dev.n (dev s)) BITS_LOW); [discriminate Ei |].
    destruct (Z.eqb_spec (Dev.n (dev s)) BITS_HIGH); [discriminate Ei |].
    destruct (Z.eqb_spec (Dev.n (dev s)) BITS_TOT); [discriminate Ei | tauto].
  - intros Hs. destruct (read_offset_working operand Hs) as (off & Hoff).
    unfold MME1536_GetOperand_m, MME1536_GetOperand. rewrite Hoff.
    unfold bind at 1. unfold get_dev. rewrite Hwords.
    destruct Hw as [-> | [-> | ->]]; reflexivity.
Qed.

Lemma m_family_agrees_witness :
  MME1536_SetOperand_m (repeat 9 16) OPERAND_1 (example_state [] [])
  = MME1536_SetOperand (repeat 9 16) OPERAND_1 512 (example_state [] []).
Proof.
  destruct (m_family_agrees (repeat 9 16) OPERAND_1 (example_state [] []))
    as (H & _).
  - left. reflexivity.
  - reflexivity.
  - apply H. unfold known_slot, OPERAND_0, OPERAND_1, MODULUS. lia.
Defined.

(** X3: round trip in the family that takes the width from the device.
    When the device holds a supported width n and the word count n/32, for
    a working slot and a buffer of n/32 [int]s, MME1536_SetOperand_m
    followed by MME1536_GetOperand_m puts the data back in the caller's
    buffer. *)
Theorem operand_m_round_trip (data buf : list Z) (operand : Z) (s : State) :
  supported_width (Dev.n (dev s)) ->
  Dev.words (dev s) = Dev.n (dev s) / 32 ->
  working_slot operand ->
  length data = Z.to_nat (Dev.n (dev s) / 32) ->
  Forall int_range data ->
  exists evs1 s1 evs2 s2,
    runs (MME1536_SetOperand_m data operand) s 0 evs1 s1 /\
    runs (MME1536_GetOperand_m buf operand) s1
      (0, data ++ skipn (length data) buf) evs2 s2.
Proof.
  intros Hw Hwords Hop Hlen Hint.
  set (n := Dev.n (dev s)) in *.
  destruct (SetOperand_runs data operand n s (working_slot_known _ Hop) Hw Hlen)
    as (off & evs1 & s1 & Hoff & Hrun1 & _ & _ & Hmem & _ & Hdev).
  rewrite <- (read_offset_operand_offset operand Hop) in Hoff.
  destruct (operand_image_layout data n Hw Hlen) as (_ & Hl).
  pose proof (slot_layout_int data n Hint) as Hli.
  assert (Hw1 : supported_width (Dev.n (dev s1))) by (rewrite Hdev; exact Hw).
  assert (Hwords1 : Dev.words (dev s1) = Dev.n (dev s1) / 32)
    by (rewrite Hdev; exact Hwords).
  assert (Hset : MME1536_SetOperand_m data operand s
                 = MME1536_SetOperand data operand n s).
  { unfold MME1536_SetOperand_m, MME1536_SetOperand.
    rewrite <- (read_offset_operand_offset operand Hop), Hoff.
    unfold bind at 1. unfold get_dev. fold n.
    rewrite (proj1 (operand_image_layout data n Hw Hlen)). reflexivity. }
  assert (Hget : MME1536_GetOperand_m buf operand s1
                 = MME1536_GetOperand buf operand n s1).
  { unfold MME1536_GetOperand_m, MME1536_GetOperand. rewrite Hoff.
    unfold bind at 1. unfold get_dev. rewrite Hwords1, Hdev. fold n.
    destruct Hw as [-> | [-> | ->]]; reflexivity. }
  destruct (GetOperand_runs buf operand n off s1 Hoff Hw)
    as (got & evs2 & s2 & Hrun2 & Hgot).
  rewrite (read_back (data_mem s1) off (slot_layout data n) _ _ Hmem Hli) in Hgot
    by (destruct Hw as [-> | [-> | ->]]; vm_compute; lia).
  assert (Hd : got = data).
  { rewrite Hgot. clear Hgot Hrun2 Hget Hset. unfold slot_layout.
    destruct Hw as [E | [E | E]]; rewrite E in *.
    - cbn [Z.eqb BITS_LOW BITS_HIGH Pos.eqb skipn].
      change (Z.to_nat (512 / 32)) with 16%nat in *.
      rewrite <- Hlen. rewrite firstn_app, firstn_all, Nat.sub_diag.
      cbn [firstn]. apply app_nil_r.
    - cbn [Z.eqb BITS_LOW BITS_HIGH Pos.eqb].
      change (Z.to_nat (1024 / 32)) with 32%nat in *.
      change 16%nat with (length (repeat 0 16)) at 1.
      rewrite skipn_app, skipn_all, Nat.sub_diag. cbn [skipn app].
      rewrite <- Hlen. apply firstn_all.
    - change (BITS_TOT =? BITS_LOW) with false.
      change (BITS_TOT =? BITS_HIGH) with false. cbn iota. cbn [skipn].
      rewrite <- Hlen. apply firstn_all. }
  clear Hgot. subst got.
  exists evs1, s1, evs2, s2. unfold runs in *.
  rewrite Hset, Hget. split; assumption.
Qed.

Lemma operand_m_round_trip_witness :
  exists evs1 s1 evs2 s2,
    runs (MME1536_SetOperand_m (map (fun i => Z.of_nat i - 3) (seq 0 16)) OPERAND_3)
      (example_state [] []) 0 evs1 s1 /\
    runs (MME1536_GetOperand_m (repeat 5 16) OPERAND_3) s1
      (0, map (fun i => Z.of_nat i - 3) (seq 0 16)
            ++ skipn (length (map (fun i => Z.of_nat i - 3) (seq 0 16)))
                 (repeat 5 16)) evs2 s2.
Proof.
  apply operand_m_round_trip.
  - left. reflexivity.
  - reflexivity.
  - unfold working_slot, OPERAND_0, OPERAND_3. lia.
  - reflexivity.
  - apply Forall_forall. intros x Hx. apply in_map_iff in Hx.
    destruct Hx as (i & <- & Hi). apply in_seq in Hi. unfold int_range. lia.
Defined.

Lemma read_word_value operand :
  working_slot operand ->
  u32 (s32 (Z.lor 0 (Z.shiftl operand DEST_BITS))) = Z.shiftl operand DEST_BITS.
Proof.
  intros Hop. apply Z.bits_inj'. intros i Hi.
  rewrite (read_word_bits operand i Hop). unfold DEST_BITS.
  rewrite Z.shiftl_spec by lia. reflexivity.
Qed.

(** X4: only the write side of the family that takes the width from the
    device checks that width.  On a device whose width is none of 512, 1024
    and 1536 (a device on which no modulus was installed, or an unsupported
    one was), MME1536_SetOperand_m prints its error, returns -1 and stores
    nothing, while MME1536_GetOperand_m of a working slot returns 0: it
    stores the slot in the control register and copies [words] words from
    the start of the slot into the caller's buffer. *)
Theorem GetOperand_m_does_not_check_width
  (data buf : list Z) (operand : Z) (s : State) :
  working_slot operand ->
  ~ supported_width (Dev.n (dev s)) ->
  (exists msg s1,
     runs (MME1536_SetOperand_m data operand) s (-1) [EvPrintf msg] s1 /\
     data_mem s1 = data_mem s) /\
  (exists off got s2,
     read_offset operand = Some off /\
     runs (MME1536_GetOperand_m buf operand) s (0, got ++ skipn (length got) buf)
       (EvCtrlWrite 0 (Z.shiftl operand DEST_BITS)
          :: map EvDataRead (addrs (Z.to_nat (Dev.words (dev s))) off)) s2 /\
     got = map (fun a => s32 (data_mem s a))
             (addrs (Z.to_nat (Dev.words (dev s))) off)).
Proof.
  intros Hop Hn. split.
  - destruct (operand_offset_known operand (working_slot_known _ Hop)) as (off & Hoff).
    unfold runs, MME1536_SetOperand_m. rewrite Hoff.
    unfold bind at 1. unfold get_dev. cbv beta iota.
    rewrite (operand_image_unsupported data _ Hn).
    eexists. eexists. split; [split; reflexivity | reflexivity].
  - destruct (read_offset_working operand Hop) as (off & Hoff).
    unfold runs, MME1536_GetOperand_m. rewrite Hoff.
    unfold bind at 1. unfold get_dev. cbv beta iota zeta.
    assert (Hhigh : (Dev.n (dev s) =? BITS_HIGH) = false).
    { destruct (Z.eqb_spec (Dev.n (dev s)) BITS_HIGH) as [E | E]; [| reflexivity].
      exfalso. apply Hn. right. left. exact E. }
    rewrite Hhigh.
    destruct (GetData_runs buf off operand (Dev.words (dev s)) s)
      as (got & s2 & (Hrun & Htr) & Hgot & _).
    rewrite (read_word_value operand Hop) in Htr.
    exists off, got, s2. split; [reflexivity |].
    split; [split; [| exact Htr] | exact Hgot].
    unfold bind. rewrite Hrun. reflexivity.
Qed.

Lemma GetOperand_m_does_not_check_width_witness :
  exists off got s2,
    read_offset OPERAND_1 = Some off /\
    runs (MME1536_GetOperand_m [5; 5; 5] OPERAND_1)
      (with_dev (set_words 2 (set_n 100 example_dev)) (example_state [] []))
      (0, got ++ skipn (length got) [5; 5; 5])
      (EvCtrlWrite 0 (Z.shiftl OPERAND_1 DEST_BITS)
         :: map EvDataRead (addrs (Z.to_nat 2) off)) s2.
Proof.
  destruct (GetOperand_m_does_not_check_width [] [5; 5; 5] OPERAND_1
              (with_dev (set_words 2 (set_n 100 example_dev)) (example_state [] [])))
    as (_ & off & got & s2 & Hoff & Hrun & _).
  - unfold working_slot, OPERAND_0, OPERAND_1, OPERAND_3. lia.
  - unfold supported_width, BITS_LOW, BITS_HIGH, BITS_TOT. cbn. lia.
  - exists off, got, s2. split; [exact Hoff | exact Hrun].
Defined.
(** ** More on the exponent feed *)

Lemma pack16_halves w : pack16 (hi16 w) (lo16 w) = u32 w.
Proof.
  unfold pack16, hi16, lo16.
  pose proof (Z.div_mod (u32 w) (2 ^ 16) ltac:(lia)). lia.
Qed.

Lemma lo16_pack16 a b :
  0 <= a < 2 ^ 16 -> 0 <= b < 2 ^ 16 -> lo16 (pack16 a b) = b.
Proof.
  intros Ha Hb. unfold lo16, pack16.
  rewrite u32_small by lia.
  rewrite Z.add_comm, Z.mod_add by lia. apply Z.mod_small. exact Hb.
Qed.

Lemma hi16_pack16 a b :
  0 <= a < 2 ^ 16 -> 0 <= b < 2 ^ 16 -> hi16 (pack16 a b) = a.
Proof.
  intros Ha Hb. unfold hi16, pack16.
  rewrite u32_small by lia.
  rewrite Z.add_comm, Z.div_add by lia. rewrite Z.div_small by exact Hb. lia.
Qed.

Lemma decode_packed w0 w1 rest :
  decode_stream (packed_entries w0 (Some w1) ++ rest)
  = (u32 w0, u32 w1) :: decode_stream rest.
Proof.
  cbn [packed_entries app decode_stream]. unfold entry_e0, entry_e1.
  rewrite !lo16_pack16, !hi16_pack16 by (apply hi16_range || apply lo16_range).
  rewrite !pack16_halves. reflexivity.
Qed.

Lemma decode_feed_stream e0 e1 (k : nat) :
  decode_stream (feed_stream packed_entries e0 (Some e1) k)
  = map (fun i => (u32 (load_at e0 i), u32 (load_at e1 i))) (msw_first k).
Proof.
  unfold feed_stream. cbn [option_map].
  induction (msw_first k) as [| i l IH]; [reflexivity |].
  cbn [flat_map map]. rewrite decode_packed, IH. reflexivity.
Qed.

Lemma words_by_index e0 e1 (k : nat) :
  length e0 = k -> length e1 = k ->
  map (fun i => (u32 (load_at e0 i), u32 (load_at e1 i))) (msw_first k)
  = rev (combine (map u32 e0) (map u32 e1)).
Proof.
  intros H0 H1. unfold msw_first. rewrite map_map, map_rev. f_equal.
  set (f := fun i : nat =>
              (u32 (load_at e0 (Z.of_nat i)), u32 (load_at e1 (Z.of_nat i)))).
  change (map f (seq 0 k) = combine (map u32 e0) (map u32 e1)).
  apply (nth_ext _ _ (f 0%nat) (0, 0)).
  - rewrite length_map, length_seq, length_combine, !length_map. lia.
  - intros j Hj. rewrite length_map, length_seq in Hj.
    rewrite (map_nth f), seq_nth by exact Hj. cbn [Nat.add].
    rewrite combine_nth by (rewrite !length_map; lia).
    unfold f, load_at. rewrite Nat2Z.id.
    rewrite (nth_indep (map u32 e0) 0 (u32 0)) by (rewrite length_map; lia).
    rewrite (nth_indep (map u32 e1) 0 (u32 0)) by (rewrite length_map; lia).
    rewrite !map_nth. reflexivity.
Qed.

Lemma feed_stream_length e0 e1 (k : nat) :
  length (feed_stream packed_entries e0 e1 k) = (2 * k)%nat.
Proof.
  unfold feed_stream.
  replace k with (length (msw_first k)) at 2
    by (unfold msw_first; rewrite length_map, length_rev, length_seq; reflexivity).
  induction (msw_first k) as [| i l IH]; [reflexivity |].
  cbn [flat_map]. rewrite length_app, IH.
  destruct e1; cbn [option_map packed_entries length]; lia.
Qed.

(** X5: the exponent feed loses nothing.  For two exponents of t/32 words
    each, t a multiple of 32, the entries MME1536_SetExponent pushes to the
    fifo port carry, pair by pair, the words of e0 (in the lower halves of
    the two entries) and of e1 (in the upper halves): read back in pairs,
    the stream is the list of the words of e0 and e1, last word first. *)
Theorem SetExponent_stream_decodes (e0 e1 : list Z) (t : Z) (s : State) :
  Z.rem t 32 = 0 ->
  length e0 = Z.to_nat (Z.quot t 32) ->
  length e1 = Z.to_nat (Z.quot t 32) ->
  exists stream s',
    runs (MME1536_SetExponent e0 (Some e1) t) s tt
      (map (EvDataWrite FIFO_OFFSET) stream) s' /\
    length stream = (2 * length e0)%nat /\
    decode_stream stream = rev (combine (map u32 e0) (map u32 e1)).
Proof.
  intros Ht H0 H1. unfold MME1536_SetExponent.
  rewrite Ht. cbn [Z.eqb negb].
  destruct (SetExponent_loop_runs e0 (Some e1) (Z.to_nat (Z.quot t 32)) s)
    as (s' & Hrun & _).
  exists (feed_stream packed_entries e0 (Some e1) (Z.to_nat (Z.quot t 32))), s'.
  split; [exact Hrun |]. split.
  - rewrite H0. apply feed_stream_length.
  - rewrite decode_feed_stream. apply words_by_index; assumption.
Qed.

Lemma SetExponent_stream_decodes_witness :
  exists stream s',
    runs (MME1536_SetExponent [17; -2] (Some [23; 305419896]) 64)
      (example_state [] []) tt (map (EvDataWrite FIFO_OFFSET) stream) s' /\
    length stream = 4%nat /\
    decode_stream stream
    = rev (combine (map u32 [17; -2]) (map u32 [23; 305419896])).
Proof.
  exact (SetExponent_stream_decodes [17; -2] [23; 305419896] 64
           (example_state [] []) eq_refl eq_refl eq_refl).
Defined.

Lemma fifo_entries_zero_e1 e0 (k : nat) i :
  fifo_entry_hi e0 (Some (repeat 0 k)) i = fifo_entry_hi e0 None i /\
  fifo_entry_lo e0 (Some (repeat 0 k)) i = fifo_entry_lo e0 None i.
Proof.
  unfold fifo_entry_hi, fifo_entry_lo, load_at.
  rewrite nth_repeat.
  change (u32 0) with 0. rewrite !Z.land_0_l.
  change (Z.shiftl 0 16) with 0. change (s32 0) with 0.
  rewrite !Z.lor_0_l. split; reflexivity.
Qed.

Lemma SetExponent_loop_zero_e1 e0 (k : nat) (j : nat) :
  SetExponent_loop j e0 (Some (repeat 0 k)) = SetExponent_loop j e0 None.
Proof.
  induction j as [| j IH]; [reflexivity |].
  cbn [SetExponent_loop].
  destruct (fifo_entries_zero_e1 e0 k (Z.of_nat j)) as (-> & ->).
  rewrite IH. reflexivity.
Qed.

(** X6: feeding one exponent is feeding two with the second one zero: for
    every bit-length, MME1536_SetExponent without e1 does exactly what it
    does with an e1 of t/32 zero words. *)
Theorem SetExponent_absent_e1_is_zero (e0 : list Z) (t : Z) (s : State) :
  MME1536_SetExponent e0 None t s
  = MME1536_SetExponent e0 (Some (repeat 0 (Z.to_nat (Z.quot t 32)))) t s.
Proof.
  unfold MME1536_SetExponent.
  destruct (negb (Z.rem t 32 =? 0)); [reflexivity |].
  rewrite SetExponent_loop_zero_e1. reflexivity.
Qed.

Lemma SetExponent_loop_frame e0 e1 (k : nat) : forall s s',
  SetExponent_loop k e0 e1 s = Some (tt, s') ->
  forall x, x <> FIFO_OFFSET -> data_mem s' x = data_mem s x.
Proof.
  induction k as [| k IH]; intros s s' H x Hx.
  - injection H as <-. reflexivity.
  - cbn [SetExponent_loop] in H. unfold bind at 1 in H.
    unfold data_store at 1 in H. unfold bind at 1 in H.
    unfold data_store at 1 in H.
    apply IH with (x := x) in H; [| exact Hx]. rewrite H.
    unfold log, with_trace, upd.
    cbn [dev ctrl_reg data_mem trace uio_in clock fds maps].
    destruct (Z.eqb_spec x FIFO_OFFSET); [contradiction | reflexivity].
Qed.

(** X7: whatever its arguments, MME1536_SetExponent changes the data
    window at the fifo port only, so it leaves the modulus and the operands
    in their slots; and it leaves the control register and the device as
    they were. *)
Theorem SetExponent_touches_fifo_only
  (e0 : list Z) (e1 : option (list Z)) (t : Z) (s s' : State) :
  MME1536_SetExponent e0 e1 t s = Some (tt, s') ->
  (forall x, x <> FIFO_OFFSET -> data_mem s' x = data_mem s x) /\
  (forall operand off (i : nat),
     operand_offset operand = Some off -> (i < Z.to_nat WORDS_TOT)%nat ->
     data_mem s' (off + ADDR_STEP * Z.of_nat i)
     = data_mem s (off + ADDR_STEP * Z.of_nat i)) /\
  ctrl_reg s' = ctrl_reg s /\ dev s' = dev s.
Proof.
  intros H.
  assert (Hframe : forall x, x <> FIFO_OFFSET -> data_mem s' x = data_mem s x).
  { unfold MME1536_SetExponent in H.
    destruct (negb (Z.rem t 32 =? 0)).
    - injection H as <-. reflexivity.
    - intros x Hx. exact (SetExponent_loop_frame e0 e1 _ s s' H x Hx). }
  split; [exact Hframe |]. split.
  - intros operand off i Ho Hi. apply Hframe.
    change (Z.to_nat WORDS_TOT) with 48%nat in Hi.
    unfold operand_offset in Ho.
    unfold OPERAND_0, OPERAND_1, OPERAND_2, OPERAND_3, MODULUS,
      OP0_OFFSET, OP1_OFFSET, OP2_OFFSET, OP3_OFFSET, M_OFFSET in Ho.
    unfold FIFO_OFFSET, ADDR_STEP.
    repeat match type of Ho with
    | (if ?a =? ?b then _ else _) = _ => destruct (Z.eqb_spec a b)
    end; try discriminate Ho; injection Ho as <-; lia.
  - unfold MME1536_SetExponent in H.
    destruct (negb (Z.rem t 32 =? 0)).
    + injection H as <-. split; reflexivity.
    + destruct (SetExponent_loop_runs e0 e1 (Z.to_nat (Z.quot t 32)) s)
        as (s1 & (Hrun & _) & Hc & Hd).
      rewrite Hrun in H. injection H as <-. split; assumption.
Qed.

Lemma SetExponent_touches_fifo_only_witness :
  exists s',
    MME1536_SetExponent [17; -2] None 64 (example_state [] []) = Some (tt, s') /\
    (forall x, x <> FIFO_OFFSET ->
               data_mem s' x = data_mem (example_state [] []) x).
Proof.
  destruct (SetExponent_loop_runs [17; -2] None 2 (example_state [] []))
    as (s' & (Hrun & _) & _).
  exists s'. split; [exact Hrun |].
  apply (SetExponent_touches_fifo_only [17; -2] None 64 _ _ Hrun).
Defined.
(** ** More on the interrupt wait *)

Lemma buffer_after_delivered answers : forall (k : nat) c ints_passed,
  nth_error answers k = Some (Some c) ->
  buffer_after ints_passed (firstn (S k) answers) = c.
Proof.
  induction answers as [| a answers IH]; intros k c ip H.
  - destruct k; discriminate H.
  - destruct k as [| k].
    + cbn in H. injection H as ->. reflexivity.
    + cbn [nth_error] in H. cbn [firstn]. unfold buffer_after. cbn [fold_left].
      apply (IH k c _ H).
Qed.

(** X8: the wait ends.  If the read of some turn delivers a count above
    the last-observed one, or the clock of some turn has reached the
    deadline, and the environment answers up to that turn, then
    MME1536_WaitUntilReady returns. *)
Theorem WaitUntilReady_terminates
  (s : State) (t0 : timeval) (times : list timeval) (k : nat) :
  clock s = t0 :: times ->
  (k < length (uio_in s))%nat -> (k < length times)%nat ->
  (exists c, nth_error (uio_in s) k = Some (Some c) /\
             Dev.prev_tot_ints (dev s) < c)
  \/ deadline t0 <= usec_at times k ->
  exists s', MME1536_WaitUntilReady s = Some (tt, s').
Proof.
  intros Ec Hu Hc Hexit.
  apply (WaitUntilReady_returns s t0 times k Ec Hu Hc).
  destruct Hexit as [(c & Hn & Hgt) | Hto]; [right | left; exact Hto].
  rewrite (buffer_after_delivered _ _ _ _ Hn). exact Hgt.
Qed.

Lemma WaitUntilReady_terminates_witness :
  exists s', MME1536_WaitUntilReady completed_wait = Some (tt, s').
Proof.
  apply (WaitUntilReady_terminates completed_wait
           {| tv_sec := 9; tv_usec := 100 |}
           [{| tv_sec := 9; tv_usec := 200 |}; {| tv_sec := 9; tv_usec := 900 |}]
           1%nat eq_refl).
  - cbn. lia.
  - cbn. lia.
  - left. exists 6. split; [reflexivity | cbn; lia].
Defined.

(** X9: the deadline is computed from the microseconds of the time of the
    call alone.  A call made in the last TIMEOUT_US microseconds of a
    second has a deadline of a million or more, which the microseconds of
    no later time reach: such a call never times out.  If it returns, a
    read has delivered a count above the last-observed one, that count is
    the new last-observed count, and no timeout warning was printed. *)
Theorem WaitUntilReady_deadline_beyond_the_second
  (s s' : State) (t0 : timeval) (times : list timeval) :
  clock s = t0 :: times ->
  wf_timeval t0 -> 1000000 - TIMEOUT_US <= tv_usec t0 ->
  Forall wf_timeval times ->
  -1 <= Dev.prev_tot_ints (dev s) ->
  MME1536_WaitUntilReady s = Some (tt, s') ->
  exists c (k : nat),
    In (Some c) (uio_in s) /\ Dev.prev_tot_ints (dev s) < c /\
    Dev.prev_tot_ints (dev s') = c /\
    trace s' = trace s ++ [EvGetTime] ++ concat (repeat turn_events k)
                 ++ [EvUioWrite 1].
Proof.
  intros Ec H0 Hlate Hwf Hprev H.
  destruct (WaitUntilReady_run s s' H)
    as (t0' & times' & k & evs & Ec' & Hk1 & Hk2 & _ & _ & _ & _ & Hd & Htr & Hexit).
  rewrite Ec in Ec'. injection Ec' as <- <-.
  destruct Hexit as [(-> & Hlt & _) | (k' & -> & _ & _ & Hlast)]; [lia |].
  assert (Hnever : usec_at times k' < deadline t0).
  { unfold usec_at, deadline, wf_timeval, TIMEOUT_US in *.
    assert (Hk : wf_timeval (nth k' times {| tv_sec := 0; tv_usec := 0 |})).
    { rewrite Forall_forall in Hwf. apply Hwf. apply nth_In. lia. }
    unfold wf_timeval in Hk.
    rewrite (s32_small (tv_usec t0)) by (unfold int_range; lia).
    rewrite (s32_small (tv_usec t0 + 140000)) by (unfold int_range; lia).
    rewrite s32_small by (unfold int_range; lia). lia. }
  destruct Hlast as [(Hto & _) | (_ & Hgt & ->)]; [lia |].
  rewrite buffer_after_last_delivered in Hgt.
  destruct (last_delivered (firstn (S k') (uio_in s))) as [c |] eqn:El; [| lia].
  exists c, (S k'). split; [| split; [exact Hgt | split]].
  - apply last_delivered_in in El.
    rewrite <- (firstn_skipn (S k') (uio_in s)). apply in_or_app. left. exact El.
  - rewrite Hd. cbn [Dev.prev_tot_ints set_prev_tot_ints].
    rewrite buffer_after_last_delivered, El. reflexivity.
  - exact Htr.
Qed.

Lemma WaitUntilReady_deadline_beyond_the_second_witness :
  exists s' c (k : nat),
    MME1536_WaitUntilReady
      (example_state [None; None; Some 6]
         [{| tv_sec := 9; tv_usec := 900000 |}; {| tv_sec := 9; tv_usec := 999000 |};
          {| tv_sec := 10; tv_usec := 500000 |}; {| tv_sec := 12; tv_usec := 0 |}])
    = Some (tt, s') /\
    5 < c /\ Dev.prev_tot_ints (dev s') = c.
Proof.
  set (t0 := {| tv_sec := 9; tv_usec := 900000 |}).
  set (times := [{| tv_sec := 9; tv_usec := 999000 |};
                 {| tv_sec := 10; tv_usec := 500000 |};
                 {| tv_sec := 12; tv_usec := 0 |}]).
  set (s0 := example_state [None; None; Some 6] (t0 :: times)).
  assert (Hwf0 : wf_timeval t0) by (unfold wf_timeval, t0; cbn; lia).
  assert (Hlate : 1000000 - TIMEOUT_US <= tv_usec t0) by (cbn; lia).
  assert (Hwf : Forall wf_timeval times).
  { repeat (apply Forall_cons; [unfold wf_timeval; cbn; lia |]). apply Forall_nil. }
  assert (Hprev : -1 <= Dev.prev_tot_ints (dev s0)) by (cbn; lia).
  destruct (WaitUntilReady_returns s0 t0 times 2%nat eq_refl) as (s' & Hrun).
  - cbn. lia.
  - cbn. lia.
  - right. cbn. lia.
  - destruct (WaitUntilReady_deadline_beyond_the_second
                s0 s' t0 times eq_refl Hwf0 Hlate Hwf Hprev Hrun)
      as (c & k & _ & Hgt & Hc & _).
    exists s', c, k. split; [exact Hrun |]. split; [exact Hgt | exact Hc].
Defined.
(** ** More on the operations *)

Lemma waits_StartSingle p_sel destination x_op y_op :
  waits_exactly (MME1536_StartSingle p_sel destination x_op y_op) 0.
Proof. unfold MME1536_StartSingle. count_waits. Qed.

Lemma waits_StartAuto p_sel : waits_exactly (MME1536_StartAuto p_sel) 0.
Proof. unfold MME1536_StartAuto. count_waits. Qed.

Lemma waits_SetOperand data operand length :
  waits_exactly (MME1536_SetOperand data operand length) 0.
Proof.
  unfold MME1536_SetOperand.
  destruct (operand_offset operand); [| count_waits].
  destruct (operand_image data length); count_waits.
Qed.

Lemma waits_GetOperand buf operand length :
  waits_exactly (MME1536_GetOperand buf operand length) 0.
Proof.
  unfold MME1536_GetOperand. destruct (read_offset operand); [| count_waits].
  destruct (length =? BITS_LOW); [count_waits |].
  destruct (length =? BITS_HIGH); [count_waits |].
  destruct (length =? BITS_TOT); count_waits.
Qed.

Lemma waits_ComputeR2 R2 m n : waits_exactly (MME1536_ComputeR2 R2 m n) 0.
Proof.
  unfold MME1536_ComputeR2. cbv zeta.
  destruct (_ =? 0); [intros s a s' H; discriminate H | count_waits].
Qed.

Lemma waits_fault {A} k : waits_exactly (@fault A) k.
Proof. intros s a s' H. discriminate H. Qed.

#[local] Hint Resolve waits_StartSingle waits_StartAuto waits_SetOperand
  waits_GetOperand waits_ComputeR2 : waits.

Lemma waits_MME result g0 g1 m e0 e1 n t block :
  waits_exactly (MME1536_MME result g0 g1 m e0 e1 n t block) 6.
Proof.
  unfold MME1536_MME. cbv zeta.
  eapply (waits_bind _ _ 0 6); [| intros part | reflexivity].
  { destruct (n =? BITS_LOW); [count_waits |].
    destruct (n =? BITS_HIGH); [count_waits |].
    destruct (n =? BITS_TOT); count_waits. }
  eapply (waits_bind _ _ 0 6); [| intros R2 | reflexivity].
  { destruct block; count_waits. }
  do 4 (eapply (waits_bind _ _ 0 6); [count_waits | intros ? | reflexivity]).
  eapply (waits_bind _ _ 0 6); [| intros ?; count_waits | reflexivity].
  destruct R2; [count_waits |].
  destruct (operand_image [] n); [apply waits_fault | count_waits].
Qed.

(** X10: every execution of the double exponentiation that returns, with
    the modulus of the device (MME1536_MME_m) or with a modulus of its own
    (MME1536_MME, whatever its width and whatever its malloc returns), has
    waited exactly six times. *)
Theorem double_exponentiation_waits_six :
  (forall result g0 g1 e0 e1 t,
     waits_exactly (MME1536_MME_m result g0 g1 e0 e1 t) 6) /\
  (forall result g0 g1 m e0 e1 n t block,
     waits_exactly (MME1536_MME result g0 g1 m e0 e1 n t block) 6).
Proof.
  split.
  - intros. unfold MME1536_MME_m. count_waits.
  - intros. apply waits_MME.
Qed.

Lemma double_exponentiation_waits_six_witness :
  exists r s' evs,
    MME1536_MME (repeat 0 16) (3 :: repeat 0 15) (5 :: repeat 0 15) example_modulus
      [17] [23] 512 32 (Some (repeat 0 16)) six_waits_example = Some (r, s') /\
    trace s' = trace six_waits_example ++ evs /\ waits evs = 6%nat.
Proof.
  assert (E : exists r s',
    MME1536_MME (repeat 0 16) (3 :: repeat 0 15) (5 :: repeat 0 15) example_modulus
      [17] [23] 512 32 (Some (repeat 0 16)) six_waits_example = Some (r, s')).
  { eexists. eexists. vm_compute. reflexivity. }
  destruct E as (r & s' & E).
  destruct (proj2 double_exponentiation_waits_six _ _ _ _ _ _ _ _ _ _ _ _ E)
    as (evs & Htr & Hw).
  exists r, s', evs. split; [exact E |]. split; [exact Htr | exact Hw].
Defined.

Lemma set_prev_tot_ints_same d : set_prev_tot_ints (Dev.prev_tot_ints d) d = d.
Proof. destruct d. reflexivity. Qed.

Lemma keeps_ret {A} (a : A) : keeps_config (ret a).
Proof.
  intros s a' s' H. injection H as _ <-.
  rewrite set_prev_tot_ints_same. repeat split.
Qed.

Lemma keeps_fault {A} : keeps_config (@fault A).
Proof. intros s a s' H. discriminate H. Qed.

Lemma keeps_bind {A B} (c : M A) (f : A -> M B) :
  keeps_config c -> (forall a, keeps_config (f a)) -> keeps_config (bind c f).
Proof.
  intros Hc Hf s b s' H. unfold bind in H.
  destruct (c s) as [[a s1] |] eqn:E; [| discriminate H].
  destruct (Hc s a s1 E) as (H1 & H1f & H1m).
  destruct (Hf a s1 b s' H) as (H2 & H2f & H2m).
  split; [| split; congruence].
  rewrite H2, H1. destruct (dev s); reflexivity.
Qed.

Lemma keeps_same_dev {A} (c : M A) :
  (forall s a s', c s = Some (a, s') ->
     dev s' = dev s /\ fds s' = fds s /\ maps s' = maps s) ->
  keeps_config c.
Proof.
  intros Hc s a s' H. destruct (Hc s a s' H) as (Hd & Hf & Hm).
  rewrite Hd, set_prev_tot_ints_same. repeat split; assumption.
Qed.

Lemma keeps_get_dev : keeps_config get_dev.
Proof. apply keeps_same_dev. intros s a s' H. injection H as _ <-. repeat split. Qed.

Lemma keeps_ctrl_load off : keeps_config (ctrl_load off).
Proof. apply keeps_same_dev. intros s a s' H. injection H as _ <-. repeat split. Qed.

Lemma keeps_ctrl_store off v : keeps_config (ctrl_store off v).
Proof. apply keeps_same_dev. intros s a s' H. injection H as _ <-. repeat split. Qed.

Lemma keeps_data_load off : keeps_config (data_load off).
Proof. apply keeps_same_dev. intros s a s' H. injection H as _ <-. repeat split. Qed.

Lemma keeps_data_store off v : keeps_config (data_store off v).
Proof. apply keeps_same_dev. intros s a s' H. injection H as _ <-. repeat split. Qed.

Lemma keeps_usleep us : keeps_config (usleep us).
Proof. apply keeps_same_dev. intros s a s' H. injection H as _ <-. repeat split. Qed.

Lemma keeps_printf msg : keeps_config (printf msg).
Proof. apply keeps_same_dev. intros s a s' H. injection H as _ <-. repeat split. Qed.

Lemma keeps_uio_write v : keeps_config (uio_write v).
Proof. apply keeps_same_dev. intros s a s' H. injection H as _ <-. repeat split. Qed.

Lemma keeps_uio_read buf : keeps_config (uio_read buf).
Proof.
  apply keeps_same_dev. intros s a s' H. unfold uio_read in H.
  destruct (uio_in s); [discriminate H |]. injection H as _ <-. repeat split.
Qed.

Lemma keeps_gettimeofday : keeps_config gettimeofday.
Proof.
  apply keeps_same_dev. intros s a s' H. unfold gettimeofday in H.
  destruct (clock s); [discriminate H |]. injection H as _ <-. repeat split.
Qed.

Lemma keeps_set_prev_tot_ints v : keeps_config (modify_dev (set_prev_tot_ints v)).
Proof.
  intros s a s' H. injection H as _ <-. repeat split.
Qed.

Create HintDb keeps discriminated.
#[local] Hint Resolve keeps_get_dev keeps_ctrl_load keeps_ctrl_store
  keeps_data_load keeps_data_store keeps_usleep keeps_printf keeps_uio_write
  keeps_uio_read keeps_gettimeofday keeps_set_prev_tot_ints keeps_fault : keeps.
#[local] Hint Extern 0 (keeps_config (ret _)) => apply keeps_ret : keeps.

(** Goes through a sequence of calls that each keep the configuration. *)
Ltac keep_config :=
  lazymatch goal with
  | |- keeps_config (bind _ _) =>
      eapply keeps_bind; [keep_config | intros ?; keep_config]
  | |- keeps_config (if ?b then _ else _) => destruct b; keep_config
  | |- keeps_config (match ?x with Some _ => _ | None => _ end) =>
      destruct x; keep_config
  | |- keeps_config (let _ := _ in _) => cbv zeta; keep_config
  | |- _ => solve [auto with keeps]
  end.

Lemma keeps_SetData_loop k : forall data word off,
  keeps_config (SetData_loop k data word off).
Proof.
  induction k as [| k IH]; intros data word off; cbn [SetData_loop].
  - keep_config.
  - eapply keeps_bind; [keep_config | intros ?; apply IH].
Qed.

Lemma keeps_GetData_loop k : forall off, keeps_config (GetData_loop k off).
Proof.
  induction k as [| k IH]; intros off; cbn [GetData_loop].
  - keep_config.
  - eapply keeps_bind; [keep_config | intros ?].
    eapply keeps_bind; [apply IH | intros ?; keep_config].
Qed.

Lemma keeps_SetExponent_loop k e0 e1 : keeps_config (SetExponent_loop k e0 e1).
Proof.
  induction k as [| k IH]; cbn [SetExponent_loop].
  - keep_config.
  - eapply keeps_bind; [keep_config | intros ?].
    eapply keeps_bind; [keep_config | intros ?; apply IH].
Qed.

Lemma keeps_wait_loop fuel : forall ints_passed prev timeout,
  keeps_config (wait_loop fuel ints_passed prev timeout).
Proof.
  induction fuel as [| fuel IH]; intros ip prev timeout; cbn [wait_loop].
  - destruct (ip <=? prev); keep_config.
  - destruct (ip <=? prev); [| keep_config].
    eapply keeps_bind; [keep_config | intros ?].
    eapply keeps_bind; [keep_config | intros ?].
    cbv zeta. destruct (_ >=? _); [keep_config | apply IH].
Qed.

#[local] Hint Resolve keeps_SetData_loop keeps_GetData_loop keeps_SetExponent_loop
  keeps_wait_loop : keeps.

Lemma keeps_WaitUntilReady : keeps_config MME1536_WaitUntilReady.
Proof.
  intros s a s' H.
  assert (Hb : forall fuel, keeps_config
    (time <- gettimeofday ;;
     d <- get_dev ;;
     ints_passed <- wait_loop fuel (-1) (Dev.prev_tot_ints d)
                      (s32 (s32 (tv_usec time) + TIMEOUT_US)) ;;
     modify_dev (set_prev_tot_ints ints_passed) ;;
     uio_write 1)) by (intros fuel; keep_config).
  exact (Hb (length (uio_in s)) s a s' H).
Qed.

Lemma keeps_SetOperand data operand length :
  keeps_config (MME1536_SetOperand data operand length).
Proof.
  unfold MME1536_SetOperand, MME1536_SetData.
  destruct (operand_offset operand); [| keep_config].
  destruct (operand_image data length); keep_config.
Qed.

Lemma keeps_SetOperand_m data operand :
  keeps_config (MME1536_SetOperand_m data operand).
Proof.
  unfold MME1536_SetOperand_m, MME1536_SetData.
  destruct (operand_offset operand); [| keep_config].
  eapply keeps_bind; [keep_config | intros d].
  destruct (operand_image data (Dev.n d)); keep_config.
Qed.

Lemma keeps_GetData buffer off operand words :
  keeps_config (MME1536_GetData buffer off operand words).
Proof. unfold MME1536_GetData. keep_config. Qed.

#[local] Hint Resolve keeps_WaitUntilReady keeps_SetOperand keeps_SetOperand_m
  keeps_GetData : keeps.

Lemma keeps_GetOperand buf operand length :
  keeps_config (MME1536_GetOperand buf operand length).
Proof.
  unfold MME1536_GetOperand. destruct (read_offset operand); [| keep_config].
  destruct (length =? BITS_LOW); [keep_config |].
  destruct (length =? BITS_HIGH); [keep_config |].
  destruct (length =? BITS_TOT); keep_config.
Qed.

Lemma keeps_GetOperand_m buf operand :
  keeps_config (MME1536_GetOperand_m buf operand).
Proof.
  unfold MME1536_GetOperand_m. destruct (read_offset operand); keep_config.
Qed.

Lemma keeps_StartSingle p_sel destination x_op y_op :
  keeps_config (MME1536_StartSingle p_sel destination x_op y_op).
Proof. unfold MME1536_StartSingle. keep_config. Qed.

Lemma keeps_StartSingle_m destination x_op y_op :
  keeps_config (MME1536_StartSingle_m destination x_op y_op).
Proof. unfold MME1536_StartSingle_m. keep_config. Qed.

Lemma keeps_StartAuto p_sel : keeps_config (MME1536_StartAuto p_sel).
Proof. unfold MME1536_StartAuto. keep_config. Qed.

Lemma keeps_StartAuto_m : keeps_config MME1536_StartAuto_m.
Proof. unfold MME1536_StartAuto_m. keep_config. Qed.

Lemma keeps_SetExponent e0 e1 t : keeps_config (MME1536_SetExponent e0 e1 t).
Proof. unfold MME1536_SetExponent. destruct (negb _); keep_config. Qed.

Lemma keeps_ComputeR2 R2 m n : keeps_config (MME1536_ComputeR2 R2 m n).
Proof.
  unfold MME1536_ComputeR2. cbv zeta. destruct (_ =? 0); keep_config.
Qed.

#[local] Hint Resolve keeps_GetOperand keeps_GetOperand_m keeps_StartSingle
  keeps_StartSingle_m keeps_StartAuto keeps_StartAuto_m keeps_SetExponent
  keeps_ComputeR2 : keeps.

(** X11: the operations do not reconfigure the device.  A multiplication,
    an exponentiation or a double exponentiation that returns leaves the
    width, the word count, the pipeline part and the cached R2 of the device
    as they were, MME1536_MME with its own modulus included: only the
    last-observed interrupt count changes.  No descriptor is opened or
    closed and no region mapped or unmapped. *)
Theorem operation_keeps_config (o : Operation) (s : State) (r : list Z) (s' : State) :
  operation o s = Some (r, s') ->
  Dev.n (dev s') = Dev.n (dev s) /\ Dev.words (dev s') = Dev.words (dev s) /\
  Dev.part (dev s') = Dev.part (dev s) /\ Dev.R2 (dev s') = Dev.R2 (dev s) /\
  dev s' = set_prev_tot_ints (Dev.prev_tot_ints (dev s')) (dev s) /\
  fds s' = fds s /\ maps s' = maps s.
Proof.
  intros H.
  assert (Hk : keeps_config (operation o)).
  { destruct o as [result x y | result g e t | result g0 g1 e0 e1 t
                  | result g0 g1 m e0 e1 n t block]; cbn [operation].
    - unfold MME1536_Multiply_m. keep_config.
    - unfold MME1536_Exp_m. keep_config.
    - unfold MME1536_MME_m. keep_config.
    - unfold MME1536_MME. cbv zeta.
      eapply keeps_bind; [| intros part].
      { destruct (n =? BITS_LOW); [keep_config |].
        destruct (n =? BITS_HIGH); [keep_config |].
        destruct (n =? BITS_TOT); keep_config. }
      eapply keeps_bind; [| intros R2].
      { destruct block; keep_config. }
      do 4 (eapply keeps_bind; [keep_config | intros ?]).
      eapply keeps_bind; [| intros ?; keep_config].
      destruct R2; [keep_config |].
      destruct (operand_image [] n); keep_config. }
  destruct (Hk s r s' H) as (Hd & Hf & Hm).
  rewrite Hd. cbn [Dev.n Dev.words Dev.part Dev.R2 set_prev_tot_ints].
  repeat split; assumption.
Qed.

Lemma operation_keeps_config_witness :
  exists r s',
    operation (MME (repeat 0 16) (3 :: repeat 0 15) (5 :: repeat 0 15)
                 example_modulus [17] [23] 512 32 (Some (repeat 0 16)))
      six_waits_example = Some (r, s') /\
    Dev.R2 (dev s') = Dev.R2 (dev six_waits_example) /\
    Dev.n (dev s') = Dev.n (dev six_waits_example).
Proof.
  assert (E : exists r s',
    operation (MME (repeat 0 16) (3 :: repeat 0 15) (5 :: repeat 0 15)
                 example_modulus [17] [23] 512 32 (Some (repeat 0 16)))
      six_waits_example = Some (r, s')).
  { eexists. eexists. vm_compute. reflexivity. }
  destruct E as (r & s' & E).
  destruct (operation_keeps_config _ _ _ _ E) as (Hn & _ & _ & HR & _).
  exists r, s'. split; [exact E |]. split; [exact HR | exact Hn].
Defined.
(** ** The steps of every operation *)

Lemma scripted_GetOperand q p buffer n :
  supported_width n ->
  scripted q p (MME1536_GetOperand buffer OPERAND_3 n) [Read OPERAND_3].
Proof.
  intros [-> | [-> | ->]]; unfold MME1536_GetOperand;
    change (read_offset OPERAND_3) with (Some OP3_OFFSET); cbv iota.
  - change (BITS_LOW =? BITS_LOW) with true. cbv iota. apply read_then_return.
  - change (BITS_HIGH =? BITS_LOW) with false.
    change (BITS_HIGH =? BITS_HIGH) with true. cbv iota. apply read_then_return.
  - change (BITS_TOT =? BITS_LOW) with false.
    change (BITS_TOT =? BITS_HIGH) with false.
    change (BITS_TOT =? BITS_TOT) with true. cbv iota. apply read_then_return.
Qed.

Lemma scripted_MME q result g0 g1 m e0 e1 n t block :
  supported_width n ->
  scripted q (part_of_width n)
    (MME1536_MME result g0 g1 m e0 e1 n t block)
    (script (MME result g0 g1 m e0 e1 n t block)).
Proof.
  intros Hn.
  assert (Hget : forall buffer p,
            scripted q p (MME1536_GetOperand buffer OPERAND_3 n) [Read OPERAND_3])
    by (intros; apply scripted_GetOperand; exact Hn).
  assert (Hpart :
    (if n =? BITS_LOW then ret LOW_PART
     else if n =? BITS_HIGH then ret HIGH_PART
     else if n =? BITS_TOT then ret TOT_PIPELINE
     else printf "[ERROR] MME1536: MME() -> wrong operand length: %d" ;; ret 0)
    = ret (part_of_width n))
    by (destruct Hn as [-> | [-> | ->]]; reflexivity).
  unfold MME1536_MME. cbv zeta. rewrite Hpart.
  lazymatch goal with
  | |- scripted ?q ?p (bind (ret ?a) ?f) ?l => change (scripted q p (f a) l)
  end.
  cbv beta. cbn [script app]. unfold MME_steps.
  clear Hpart. generalize (part_of_width n). intros part.
  eapply scripted_bind; [apply scripted_silent; only_events
                        | intros R2 | reflexivity].
  do 4 (eapply scripted_bind; [follow_script | intros ? | reflexivity]).
  eapply scripted_bind; [apply scripted_load | intros ? | reflexivity].
  { destruct R2; [apply does_only_SetOperand |].
    destruct (operand_image [] n);
      [apply does_only_fault | apply does_only_SetOperand]. }
  repeat (eapply scripted_bind;
          [first [ apply Hget | follow_script ] | intros ? | reflexivity ]).
  follow_script.
Qed.


(** ** More on opening and closing *)

Lemma ret_Some {A} (a b : A) s s' : ret a s = Some (b, s') -> a = b /\ s = s'.
Proof. intros H. injection H as <- <-. split; reflexivity. Qed.

Lemma sys_open_eff answer s a s1 :
  sys_open answer s = Some (a, s1) ->
  a = answer /\ dev s1 = dev s /\
  fds s1 = (if 0 <=? answer then answer :: fds s else fds s) /\
  maps s1 = maps s.
Proof.
  unfold sys_open. intros H. injection H as <- <-.
  destruct (0 <=? answer); repeat split.
Qed.

Lemma sys_mmap_eff answer len s a s1 :
  sys_mmap answer len s = Some (a, s1) ->
  a = answer /\ dev s1 = dev s /\ fds s1 = fds s /\
  maps s1 = (if answer =? MAP_FAILED then maps s else (answer, len) :: maps s).
Proof.
  unfold sys_mmap. intros H. injection H as <- <-.
  destruct (answer =? MAP_FAILED); repeat split.
Qed.

Lemma sys_close_eff fd s a s1 :
  sys_close fd s = Some (a, s1) ->
  dev s1 = dev s /\ fds s1 = filter (not_fd fd) (fds s) /\ maps s1 = maps s.
Proof. intros H. injection H as _ <-. repeat split. Qed.

Lemma sys_munmap_eff addr len s a s1 :
  sys_munmap addr len s = Some (a, s1) ->
  dev s1 = dev s /\ fds s1 = fds s /\
  maps s1 = filter (not_region addr len) (maps s).
Proof. intros H. injection H as _ <-. repeat split. Qed.

Lemma modify_dev_eff f s a s1 :
  modify_dev f s = Some (a, s1) ->
  dev s1 = f (dev s) /\ fds s1 = fds s /\ maps s1 = maps s.
Proof. intros H. injection H as _ <-. repeat split. Qed.

Lemma get_dev_eff s a s1 : get_dev s = Some (a, s1) -> a = dev s /\ s1 = s.
Proof. intros H. injection H as <- <-. split; reflexivity. Qed.

Lemma leaves_printf msg : leaves_process (printf msg).
Proof. intros s a s' H. injection H as _ <-. repeat split. Qed.

Lemma leaves_uio_write v : leaves_process (uio_write v).
Proof. intros s a s' H. injection H as _ <-. repeat split. Qed.

Lemma leaves_uio_read buf : leaves_process (uio_read buf).
Proof.
  intros s a s' H. unfold uio_read in H.
  destruct (uio_in s); [discriminate H |]. injection H as _ <-. repeat split.
Qed.

Lemma leaves_ctrl_store off v : leaves_process (ctrl_store off v).
Proof. intros s a s' H. injection H as _ <-. repeat split. Qed.

Lemma leaves_EnableInterrupt : leaves_process MME1536_EnableInterrupt.
Proof.
  intros s a s' H. unfold MME1536_EnableInterrupt in H.
  apply bind_Some in H. destruct H as (? & s1 & E1 & E2).
  apply leaves_ctrl_store in E1. apply leaves_ctrl_store in E2.
  destruct E1 as (Hd & Hf & Hm). destruct E2 as (Hd' & Hf' & Hm').
  split; [| split]; congruence.
Qed.

Lemma failed1_eff s r s' :
  failed1 s = Some (r, s') ->
  r = -1 /\ dev s' = dev s /\
  fds s' = filter (not_fd (Dev.ctrl_fd (dev s))) (fds s) /\ maps s' = maps s.
Proof.
  intros H. unfold failed1 in H.
  apply bind_Some in H. destruct H as (d & s1 & E & H).
  apply get_dev_eff in E. destruct E as (-> & ->).
  apply bind_Some in H. destruct H as (? & s2 & E & H).
  apply sys_close_eff in E. destruct E as (Hd & Hf & Hm).
  apply ret_Some in H. destruct H as (<- & <-). repeat split; assumption.
Qed.

Lemma failed2_eff s r s' :
  failed2 s = Some (r, s') ->
  r = -1 /\ dev s' = dev s /\
  fds s' = filter (not_fd (Dev.ctrl_fd (dev s))) (fds s) /\
  maps s' = filter (not_region (Dev.ctrl_ptr (dev s)) PAGE_SIZE) (maps s).
Proof.
  intros H. unfold failed2 in H.
  apply bind_Some in H. destruct H as (d & s1 & E & H).
  apply get_dev_eff in E. destruct E as (-> & ->).
  apply bind_Some in H. destruct H as (? & s2 & E & H).
  apply sys_munmap_eff in E. destruct E as (Hd & Hf & Hm).
  apply failed1_eff in H. destruct H as (-> & Hd' & Hf' & Hm').
  split; [reflexivity |]. split; [congruence |]. split; congruence.
Qed.

(** A step of the text that is a plain call. *)
Ltac next_call H a s1 E :=
  apply bind_Some in H; destruct H as (a & s1 & E & H).

(** A step that leaves the process as it is. *)
Ltac next_neutral H lemma s1 Hd Hf Hm :=
  let E := fresh "E" in
  apply bind_Some in H; destruct H as (? & s1 & E & H);
  apply lemma in E; destruct E as (Hd & Hf & Hm).

(** A store in the device structure. *)
Ltac next_field H s1 Hd Hf Hm :=
  let E := fresh "E" in
  apply bind_Some in H; destruct H as (? & s1 & E & H);
  apply modify_dev_eff in E; destruct E as (Hd & Hf & Hm).

(** Brings what is known of the states on the way to bear on the goal. *)
Ltac chain :=
  repeat match goal with
  | H : fds ?x = _ |- context [fds ?x] => rewrite H
  | H : maps ?x = _ |- context [maps ?x] => rewrite H
  | H : dev ?x = _ |- context [dev ?x] => rewrite H
  end;
  try reflexivity.

Lemma Initialize_exits uio_dev o s r s' :
  MME1536_Initialize uio_dev o s = Some (r, s') -> Initialize_exit o s r s'.
Proof.
  intros H. unfold MME1536_Initialize in H.
  (* open("/dev/mem") *)
  next_call H fd s1 E. apply sys_open_eff in E. destruct E as (-> & Hd1 & Hf1 & Hm1).
  next_field H s2 Hd2 Hf2 Hm2.
  revert H. destruct (Z.ltb_spec (open_mem o) 1) as [Hmem | Hmem]; intros H.
  { next_neutral H leaves_printf s3 Hd3 Hf3 Hm3.
    apply ret_Some in H. destruct H as (<- & <-).
    apply exit_open_mem; [exact Hmem | chain | chain]. }
  rewrite (proj2 (Z.leb_le 0 (open_mem o))) in Hf1 by lia.
  (* mmap of the data window *)
  next_call H p s3 E. apply sys_mmap_eff in E. destruct E as (-> & Hd3 & Hf3 & Hm3).
  next_field H s4 Hd4 Hf4 Hm4.
  revert H. destruct (Z.eqb_spec (s32 (mmap_data o)) (-1)) as [Hdata | Hdata]; intros H.
  { next_neutral H leaves_printf s5 Hd5 Hf5 Hm5.
    apply ret_Some in H. destruct H as (<- & <-).
    apply exit_mmap_data; [exact Hmem | exact Hdata | chain | chain]. }
  assert (Hmapped : (mmap_data o =? MAP_FAILED) = false).
  { apply Z.eqb_neq. intros Heq. apply Hdata. rewrite Heq. reflexivity. }
  rewrite Hmapped in Hm3.
  (* the UIO device *)
  next_call H u s5 E.
  assert (Epath : exists path,
            dev s5 = set_uio_dev path (dev s4) /\ fds s5 = fds s4 /\
            maps s5 = maps s4).
  { destruct uio_dev as [path |].
    - exists path. apply modify_dev_eff in E. exact E.
    - exists DEFAULT_UIO_DEV. next_field E t Hdt Hft Hmt.
      apply leaves_printf in E. destruct E as (Hd' & Hf' & Hm').
      split; [| split]; congruence. }
  clear E. destruct Epath as (path & Hd5 & Hf5 & Hm5).
  next_call H fd s6 E. apply sys_open_eff in E. destruct E as (-> & Hd6 & Hf6 & Hm6).
  next_field H s7 Hd7 Hf7 Hm7.
  revert H. destruct (Z.ltb_spec (open_uio o) 1) as [Huio | Huio]; intros H.
  { next_neutral H leaves_printf s8 Hd8 Hf8 Hm8.
    apply ret_Some in H. destruct H as (<- & <-).
    apply exit_open_uio; [exact Hmem | exact Hdata | exact Huio | chain | chain]. }
  rewrite (proj2 (Z.leb_le 0 (open_uio o))) in Hf6 by lia.
  (* mmap of the control page *)
  next_call H p s8 E. apply sys_mmap_eff in E. destruct E as (-> & Hd8 & Hf8 & Hm8).
  next_field H s9 Hd9 Hf9 Hm9.
  revert H. destruct (Z.eqb_spec (mmap_ctrl o) 0) as [Hnull | Hnull]; intros H.
  { next_neutral H leaves_printf s10 Hd10 Hf10 Hm10.
    apply failed1_eff in H. destruct H as (-> & _ & Hf' & Hm').
    assert (Hin : (mmap_ctrl o =? MAP_FAILED) = false) by (rewrite Hnull; reflexivity).
    rewrite Hin in Hm8.
    apply exit_failed1; [exact Hmem | exact Hdata | exact Huio | exact Hnull
                        | chain | chain]. }
  (* the interrupt *)
  next_field H s10 Hd10 Hf10 Hm10.
  next_call H en s11 E.
  revert E. destruct (Z.eqb_spec (mmap_ctrl o) MAP_FAILED) as [Hfail | Hfail];
    intros E; [discriminate E |].
  apply leaves_EnableInterrupt in E. destruct E as (Hd11 & Hf11 & Hm11).
  next_neutral H leaves_uio_write s12 Hd12 Hf12 Hm12.
  revert H. destruct (Z.eqb_spec (write_enable o) ENOSYS) as [Hsys | Hsys]; intros H.
  { next_neutral H leaves_printf s13 Hd13 Hf13 Hm13.
    apply failed2_eff in H. destruct H as (-> & _ & Hf' & Hm').
    apply exit_failed2; try assumption; [left; exact Hsys | chain | chain]. }
  (* the count and the buffer *)
  next_call H ints s13 E. apply leaves_uio_read in E. destruct E as (Hd13 & Hf13 & Hm13).
  next_field H s14 Hd14 Hf14 Hm14.
  destruct (malloc_R2 o) as [block |] eqn:Hblock.
  - next_field H s15 Hd15 Hf15 Hm15. apply ret_Some in H. destruct H as (<- & <-).
    apply (exit_success o s s15 block path ints); try assumption; chain.
  - next_field H s15 Hd15 Hf15 Hm15.
    next_neutral H leaves_printf s16 Hd16 Hf16 Hm16.
    apply failed2_eff in H. destruct H as (-> & _ & Hf' & Hm').
    apply exit_failed2; try assumption; [right; exact Hblock | chain | chain].
Qed.

Lemma Clean_eff s a s' :
  MME1536_Clean s = Some (a, s') ->
  fds s' = filter (not_fd (Dev.data_fd (dev s)))
             (filter (not_fd (Dev.ctrl_fd (dev s))) (fds s)) /\
  maps s' = filter (not_region (Dev.data_ptr (dev s)) (PAGE_SIZE * 6))
              (filter (not_region (Dev.ctrl_ptr (dev s)) PAGE_SIZE) (maps s)).
Proof.
  intros H. unfold MME1536_Clean in H.
  next_call H d s0 E. apply get_dev_eff in E. destruct E as (-> & ->).
  next_field H s1 Hd1 Hf1 Hm1.
  next_call H u2 s2 E. apply sys_munmap_eff in E. destruct E as (Hd2 & Hf2 & Hm2).
  next_call H u3 s3 E. apply sys_close_eff in E. destruct E as (Hd3 & Hf3 & Hm3).
  next_call H u4 s4 E. apply sys_munmap_eff in E. destruct E as (Hd4 & Hf4 & Hm4).
  apply sys_close_eff in H. destruct H as (Hd5 & Hf5 & Hm5).
  split; chain.
Qed.

Lemma Clean_returns s : exists s', MME1536_Clean s = Some (tt, s').
Proof. eexists. reflexivity. Qed.

Lemma pair_eqb_refl x : pair_eqb x x = true.
Proof. unfold pair_eqb. rewrite !Z.eqb_refl. reflexivity. Qed.

Lemma not_fd_self fd : not_fd fd fd = false.
Proof. unfold not_fd. rewrite Z.eqb_refl. reflexivity. Qed.

Lemma not_fd_other fd x : x <> fd -> not_fd fd x = true.
Proof. intros H. unfold not_fd. apply Z.eqb_neq in H. rewrite H. reflexivity. Qed.

Lemma not_region_self addr len : not_region addr len (addr, len) = false.
Proof. unfold not_region. rewrite pair_eqb_refl. reflexivity. Qed.

Lemma not_region_data addr addr' :
  not_region addr PAGE_SIZE (addr', PAGE_SIZE * 6) = true.
Proof.
  unfold not_region, pair_eqb. cbn [fst snd].
  change (PAGE_SIZE * 6 =? PAGE_SIZE) with false.
  rewrite andb_false_r. reflexivity.
Qed.

(** X13: opening and closing.  From a process with nothing open and
    nothing mapped, whatever the system calls answer: when
    MME1536_Initialize returns 0, the process holds exactly the two
    descriptors and the two regions the calls gave, the device has the
    block of malloc as its R2 and its width, word count and pipeline part
    are as they were; and
    MME1536_Clean then returns with nothing open and nothing mapped. *)
Theorem Initialize_then_Clean
  (uio_dev : option string) (o : Outcomes) (s s1 : State) :
  fds s = [] -> maps s = [] ->
  MME1536_Initialize uio_dev o s = Some (0, s1) ->
  fds s1 = [open_uio o; open_mem o] /\
  maps s1 = [(mmap_ctrl o, PAGE_SIZE); (mmap_data o, PAGE_SIZE * 6)] /\
  malloc_R2 o = Some (Dev.R2 (dev s1)) /\
  Dev.n (dev s1) = Dev.n (dev s) /\ Dev.words (dev s1) = Dev.words (dev s) /\
  Dev.part (dev s1) = Dev.part (dev s) /\
  exists s2, MME1536_Clean s1 = Some (tt, s2) /\ fds s2 = [] /\ maps s2 = [].
Proof.
  intros Hf Hm H. apply Initialize_exits in H.
  inversion H as [| | | | | s0 block path ints _ _ _ _ _ _ Hblock Hf1 Hm1 Hd1 Hr Hs].
  rewrite Hf in Hf1. rewrite Hm in Hm1.
  split; [exact Hf1 |]. split; [exact Hm1 |].
  split; [rewrite Hd1; exact Hblock |].
  split; [rewrite Hd1; reflexivity |]. split; [rewrite Hd1; reflexivity |].
  split; [rewrite Hd1; reflexivity |].
  destruct (Clean_returns s1) as (s2 & Hclean).
  exists s2. split; [exact Hclean |].
  apply Clean_eff in Hclean. destruct Hclean as (Hf2 & Hm2).
  rewrite Hf2, Hm2, Hf1, Hm1, Hd1.
  cbn [Dev.data_fd Dev.ctrl_fd Dev.data_ptr Dev.ctrl_ptr set_R2
         set_prev_tot_ints set_tv_select set_ctrl_ptr set_ctrl_fd set_uio_dev
         set_data_ptr set_data_fd].
  split.
  - cbn [filter]. rewrite not_fd_self.
    destruct (not_fd (open_uio o) (open_mem o)); cbn [filter];
      rewrite ?not_fd_self; reflexivity.
  - cbn [filter]. rewrite not_region_self, not_region_data.
    cbn [filter]. rewrite not_region_self. reflexivity.
Qed.

Lemma Initialize_then_Clean_witness :
  exists s1 s2,
    MME1536_Initialize None all_succeed fresh_process = Some (0, s1) /\
    fds s1 = [4; 3] /\
    MME1536_Clean s1 = Some (tt, s2) /\ fds s2 = [] /\ maps s2 = [].
Proof.
  assert (E : exists s1,
            MME1536_Initialize None all_succeed fresh_process = Some (0, s1))
    by (eexists; vm_compute; reflexivity).
  destruct E as (s1 & E).
  destruct (Initialize_then_Clean None all_succeed fresh_process s1
              eq_refl eq_refl E)
    as (Hf & _ & _ & _ & _ & _ & s2 & Hc & Hf2 & Hm2).
  exists s1, s2. split; [exact E |]. split; [exact Hf |].
  split; [exact Hc |]. split; [exact Hf2 | exact Hm2].
Defined.

(** X14: no return of MME1536_Initialize gives the data side back.  Once
    /dev/mem is open and the data window mapped, they stay so at every
    return, the five returns of -1 that come after included: neither the
    labels failed2 and failed1 nor the plain returns close the descriptor
    or unmap the window.  The function returns 0 or -1 only. *)
Theorem Initialize_keeps_data_side
  (uio_dev : option string) (o : Outcomes) (s : State) (r : Z) (s' : State) :
  1 <= open_mem o -> mmap_data o <> MAP_FAILED -> open_uio o <> open_mem o ->
  MME1536_Initialize uio_dev o s = Some (r, s') ->
  (r = 0 \/ r = -1) /\
  In (open_mem o) (fds s') /\
  In (mmap_data o, PAGE_SIZE * 6) (maps s').
Proof.
  intros Hmem Hdata Hdiff H. apply Initialize_exits in H.
  assert (Hmapped : (mmap_data o =? MAP_FAILED) = false)
    by (apply Z.eqb_neq; exact Hdata).
  assert (Hkeep : In (open_mem o)
                    (filter (not_fd (open_uio o))
                       (open_uio o :: open_mem o :: fds s))).
  { apply filter_In. split; [right; left; reflexivity |].
    apply not_fd_other. congruence. }
  destruct H as [s' Hlt Hf Hm | s' _ _ Hf Hm | s' _ _ _ Hf Hm | s' _ _ _ _ Hf Hm
                | s' _ _ _ _ _ _ Hf Hm | s' block path ints _ _ _ _ _ _ _ Hf Hm _].
  - lia.
  - split; [right; reflexivity |]. rewrite Hf, Hm, Hmapped.
    split; left; reflexivity.
  - split; [right; reflexivity |]. rewrite Hf, Hm.
    split; [| left; reflexivity].
    destruct (0 <=? open_uio o); [right |]; left; reflexivity.
  - split; [right; reflexivity |]. rewrite Hf, Hm.
    split; [exact Hkeep | right; left; reflexivity].
  - split; [right; reflexivity |]. rewrite Hf, Hm.
    split; [exact Hkeep |].
    apply filter_In. split; [right; left; reflexivity | apply not_region_data].
  - split; [left; reflexivity |]. rewrite Hf, Hm.
    split; right; left; reflexivity.
Qed.

Lemma Initialize_keeps_data_side_witness :
  exists s',
    MME1536_Initialize None malloc_fails fresh_process = Some (-1, s') /\
    In 3 (fds s') /\ In (1073741824, PAGE_SIZE * 6) (maps s').
Proof.
  assert (E : exists s',
            MME1536_Initialize None malloc_fails fresh_process = Some (-1, s'))
    by (eexists; vm_compute; reflexivity).
  destruct E as (s' & E).
  assert (H1 : 1 <= open_mem malloc_fails) by (cbn; lia).
  assert (H2 : mmap_data malloc_fails <> MAP_FAILED) by (cbn; discriminate).
  assert (H3 : open_uio malloc_fails <> open_mem malloc_fails) by (cbn; discriminate).
  destruct (Initialize_keeps_data_side None malloc_fails fresh_process (-1) s'
              H1 H2 H3 E) as (_ & Hf & Hm).
  exists s'. split; [exact E |]. split; [exact Hf | exact Hm].
Defined.

(** X15: the control side is given back.  From a process with nothing
    open and nothing mapped, when the UIO device was opened and its page
    mapped (at an address other than 0, which the code takes for a
    failure), a return of -1 leaves neither the UIO descriptor open nor the
    control page mapped: the two returns through the labels failed2 and
    failed1 release them. *)
Theorem Initialize_failure_releases_control_side
  (uio_dev : option string) (o : Outcomes) (s s' : State) :
  fds s = [] -> maps s = [] ->
  1 <= open_uio o -> mmap_ctrl o <> 0 -> open_uio o <> open_mem o ->
  MME1536_Initialize uio_dev o s = Some (-1, s') ->
  ~ In (open_uio o) (fds s') /\ ~ In (mmap_ctrl o, PAGE_SIZE) (maps s').
Proof.
  intros Hf0 Hm0 Huio Hnull Hdiff H. apply Initialize_exits in H.
  assert (Hdata : forall addr, (mmap_ctrl o, PAGE_SIZE) <> (addr, PAGE_SIZE * 6)).
  { intros addr Heq. injection Heq as _ Heq. discriminate Heq. }
  inversion H as [s0 _ Hf Hm | s0 _ _ Hf Hm | s0 _ _ Hlt Hf Hm | s0 _ _ _ Hz Hf Hm
                 | s0 _ _ _ _ _ _ Hf Hm |]; subst s0.
  - rewrite Hf, Hm, Hf0, Hm0. split; [| intros []].
    destruct (0 <=? open_mem o); [| intros []].
    intros [Heq | []]. congruence.
  - rewrite Hf, Hm, Hf0, Hm0. split.
    + intros [Heq | []]. congruence.
    + destruct (mmap_data o =? MAP_FAILED); [intros [] |].
      intros [Heq | []]. symmetry in Heq. exact (Hdata _ Heq).
  - lia.
  - contradiction.
  - rewrite Hf, Hm, Hf0, Hm0. split.
    + intros Hin. apply filter_In in Hin. destruct Hin as (_ & Hin).
      rewrite not_fd_self in Hin. discriminate Hin.
    + intros Hin. apply filter_In in Hin. destruct Hin as (_ & Hin).
      rewrite not_region_self in Hin. discriminate Hin.
Qed.

Lemma Initialize_failure_releases_control_side_witness :
  exists s',
    MME1536_Initialize None malloc_fails fresh_process = Some (-1, s') /\
    ~ In 4 (fds s') /\ ~ In (1073766400, PAGE_SIZE) (maps s').
Proof.
  assert (E : exists s',
            MME1536_Initialize None malloc_fails fresh_process = Some (-1, s'))
    by (eexists; vm_compute; reflexivity).
  destruct E as (s' & E).
  assert (H1 : 1 <= open_uio malloc_fails) by (cbn; lia).
  assert (H2 : mmap_ctrl malloc_fails <> 0) by (cbn; discriminate).
  assert (H3 : open_uio malloc_fails <> open_mem malloc_fails) by (cbn; discriminate).
  destruct (Initialize_failure_releases_control_side None malloc_fails
              fresh_process s' eq_refl eq_refl H1 H2 H3 E) as (Hf & Hm).
  exists s'. split; [exact E |]. split; [exact Hf | exact Hm].
Defined.
(** ** Unsupported widths *)

Lemma printf_state msg s a s1 :
  printf msg s = Some (a, s1) -> s1 = log (EvPrintf msg) s.
Proof. intros H. injection H as _ <-. reflexivity. Qed.

Lemma modify_dev_state f s a s1 :
  modify_dev f s = Some (a, s1) -> s1 = with_dev (f (dev s)) s.
Proof. intros H. injection H as _ <-. reflexivity. Qed.

Lemma ComputeR2_state R2 m n s a s1 :
  MME1536_ComputeR2 R2 m n s = Some (a, s1) -> s1 = s.
Proof.
  unfold MME1536_ComputeR2. cbv zeta.
  destruct (_ =? 0); intros H; [discriminate H |].
  apply ret_Some in H. destruct H as (_ & <-). reflexivity.
Qed.

(** X16: MME1536_UpdateModulus on a width that is none of 512, 1024 and
    1536 reports the error and goes on.  When the call returns, the device
    has the new width and its word count but the pipeline part it had
    before; nothing was stored in the data window, so the modulus slot
    holds the old modulus, and nothing in the control register; and what
    was done is two messages, the one of MME1536_UpdateModulus and the one
    of MME1536_SetOperand, which turns the modulus down. *)
Theorem UpdateModulus_unsupported_width
  (m : list Z) (n : Z) (s s' : State) :
  ~ supported_width n ->
  MME1536_UpdateModulus m n s = Some (tt, s') ->
  Dev.part (dev s') = Dev.part (dev s) /\
  Dev.n (dev s') = n /\ Dev.words (dev s') = Z.quot n 32 /\
  data_mem s' = data_mem s /\ ctrl_reg s' = ctrl_reg s /\
  exists msg1 msg2, trace s' = trace s ++ [EvPrintf msg1; EvPrintf msg2].
Proof.
  intros Hn H. unfold MME1536_UpdateModulus in H.
  assert (E1 : (n =? BITS_LOW) = false)
    by (apply Z.eqb_neq; intros ->; apply Hn; left; reflexivity).
  assert (E2 : (n =? BITS_HIGH) = false)
    by (apply Z.eqb_neq; intros ->; apply Hn; right; left; reflexivity).
  assert (E3 : (n =? BITS_TOT) = false)
    by (apply Z.eqb_neq; intros ->; apply Hn; right; right; reflexivity).
  rewrite E1, E2, E3 in H.
  next_call H u1 s1 E. apply printf_state in E.
  next_call H u2 s2 F2. apply modify_dev_state in F2.
  next_call H u3 s3 F3. apply modify_dev_state in F3.
  next_call H d4 s4 F4. apply get_dev_eff in F4. destruct F4 as (-> & ->).
  next_call H u5 s5 F5. apply modify_dev_state in F5.
  next_call H d6 s6 F6. apply get_dev_eff in F6. destruct F6 as (-> & ->).
  next_call H R2 s7 F7. apply ComputeR2_state in F7.
  next_call H u8 s8 F8. apply modify_dev_state in F8.
  next_call H r9 s9 F9.
  unfold MME1536_SetOperand in F9.
  change (operand_offset MODULUS) with (Some M_OFFSET) in F9.
  rewrite (operand_image_unsupported m n Hn) in F9.
  apply bind_Some in F9. destruct F9 as (u10 & s10 & F10 & F9).
  apply printf_state in F10.
  apply ret_Some in F9. destruct F9 as (_ & <-).
  apply ret_Some in H. destruct H as (_ & <-).
  subst s10 s8 s7 s5 s3 s2 s1.
  repeat split.
  eexists. eexists.
  unfold log, with_trace, with_dev. cbn [trace]. rewrite <- app_assoc.
  reflexivity.
Qed.

Lemma UpdateModulus_unsupported_width_witness :
  exists s',
    MME1536_UpdateModulus example_modulus 768 (example_state [] [])
    = Some (tt, s') /\
    Dev.part (dev s') = LOW_PART /\ Dev.n (dev s') = 768 /\
    data_mem s' = data_mem (example_state [] []).
Proof.
  assert (E : exists s',
            MME1536_UpdateModulus example_modulus 768 (example_state [] [])
            = Some (tt, s')) by (eexists; vm_compute; reflexivity).
  destruct E as (s' & E).
  assert (Hn : ~ supported_width 768).
  { unfold supported_width, BITS_LOW, BITS_HIGH, BITS_TOT. cbn. lia. }
  destruct (UpdateModulus_unsupported_width example_modulus 768
              (example_state [] []) s' Hn E) as (Hp & Hw & _ & Hm & _).
  exists s'. split; [exact E |]. split; [exact Hp |]. split; [exact Hw | exact Hm].
Defined.

Lemma bind_assoc {A B C} (c : M A) (f : A -> M B) (g : B -> M C) s :
  bind (bind c f) g s = bind c (fun a => bind (f a) g) s.
Proof. unfold bind. destruct (c s) as [[a s1] |]; reflexivity. Qed.

Lemma scripted_ext {A} q p (c c' : M A) steps :
  (forall s, c s = c' s) -> scripted q p c' steps -> scripted q p c steps.
Proof. intros Heq Hc s a s' Hq H. rewrite Heq in H. exact (Hc s a s' Hq H). Qed.

Lemma silent_SetOperand_unsupported data operand n :
  ~ supported_width n ->
  does_only (fun _ => False) (MME1536_SetOperand data operand n).
Proof.
  intros Hn. unfold MME1536_SetOperand.
  rewrite (operand_image_unsupported data n Hn).
  destruct (operand_offset operand); only_events.
Qed.


